(** * Reliable file transfer over UDP: selective repeat with SACK

  A shallow embedding of [codes/udp_receiver.c] and [codes/udp_sender.c].

  Conventions.
  - C integers are [Z] with the wrap-around of their width written out
    ([u16], [u32], [u64], and [s32] for the cast to [int]).
  - A byte is a [Byte.byte]; buffers, datagrams and the mapped files are
    [list Byte.byte].
  - The per-segment arrays ([have], [acked], [tx_cnt], [sent_ts]) are lists
    of [total_segs + 1] cells, as [calloc] returns them; slot 0 is unused.
  - The network, the clock and the result of [sendmsg] are inputs of the
    loops: the receiver consumes a list of [event]s, the sender a list of
    per-iteration environments.
  - A reading of [clock_gettime] is a count of nanoseconds, from which
    [tv_sec] and [tv_nsec] are the quotient and the remainder by [10^9]; a
    [double] is a binary64 [PrimFloat.float], each operation rounded to
    nearest as the C program does with SSE arithmetic. *)

From stdpp Require Import base list numbers.
From Stdlib Require Import ZArith Lia.
From Stdlib.Strings Require Byte.
From Stdlib.Floats Require PrimFloat.
From Stdlib.Numbers.Cyclic.Int63 Require Uint63.

Local Open Scope Z_scope.

(* ===================================================================== *)
(** * Part I: the programs *)
(* ===================================================================== *)

(** ** Wire format and fixed-width arithmetic (shared by both programs) *)

Module Wire.

Definition u16 (x : Z) : Z := x mod 2 ^ 16.
Definition u32 (x : Z) : Z := x mod 2 ^ 32.
Definition u64 (x : Z) : Z := x mod 2 ^ 64.

(** The cast [(int)x] of a 32-bit unsigned value. *)
Definition s32 (x : Z) : Z :=
  let y := u32 x in if y <? 2 ^ 31 then y else y - 2 ^ 32.

(** [enum { PKT_DATA=0x01, PKT_START=0x02, PKT_END=0x03, PKT_ACK=0x10 }] *)
Definition PKT_DATA : Z := 1.
Definition PKT_START : Z := 2.
Definition PKT_END : Z := 3.
Definition PKT_ACK : Z := 16.

(** [sizeof(pkt_hdr_t)] and [sizeof(ack_payload_t)], both packed. *)
Definition HDR : Z := 7.
Definition ACK_LEN : Z := 12.

Definition byte_val (b : Byte.byte) : Z := Z.of_N (Byte.to_N b).

Definition byte_of (x : Z) : Byte.byte :=
  default Byte.x00 (Byte.of_N (Z.to_N (x mod 256))).

(** Big-endian value of a byte string: what [ntohs], [ntohl] and [ntohll]
    return for the 2, 4 and 8 bytes of a field as they lie in a buffer. *)
Definition be_combine (bs : list Byte.byte) : Z :=
  fold_left (fun acc b => acc * 256 + byte_val b) bs 0.

(** The [n] bytes [htons], [htonl] and [htonll] put on the wire for [v]. *)
Fixpoint be_split (n : nat) (v : Z) : list Byte.byte :=
  match n with
  | O => []
  | S n' => byte_of (v / 256 ^ Z.of_nat n') :: be_split n' v
  end.

(** [len] bytes of [buf] from offset [off]. *)
Definition slice (buf : list Byte.byte) (off len : Z) : list Byte.byte :=
  take (Z.to_nat len) (drop (Z.to_nat off) buf).

(** A big-endian field of [n] bytes read at [buf + off]. *)
Definition rd (buf : list Byte.byte) (off n : Z) : Z :=
  be_combine (slice buf off n).

(** The header fields as both programs read them through [pkt_hdr_t*]. *)
Definition hdr_type (buf : list Byte.byte) : Z := rd buf 0 1.
Definition hdr_seq (buf : list Byte.byte) : Z := rd buf 1 4.
Definition hdr_len (buf : list Byte.byte) : Z := rd buf 5 2.

Definition mk_hdr (type seq len : Z) : list Byte.byte :=
  byte_of type :: be_split 4 seq ++ be_split 2 len.

(** [recv]/[recvfrom] into a buffer of which [cap] bytes are offered: the
    datagram, cut at [cap], replaces the front of the buffer and the rest of
    the buffer keeps what it held.  Returns the new buffer and the count. *)
Definition recv_into (buf : list Byte.byte) (cap : Z) (dg : list Byte.byte)
  : list Byte.byte * Z :=
  let got := take (Z.to_nat cap) dg in
  (got ++ drop (length got) buf, Z.of_nat (length got)).

(** [malloc(n)] or an automatic array of [n] bytes: [n] bytes of whatever
    was there, given by [junk] (missing bytes read as zero). *)
Definition raw_buffer (n : Z) (junk : list Byte.byte) : list Byte.byte :=
  take (Z.to_nat n) (junk ++ replicate (Z.to_nat n) Byte.x00).

(** A cell of a per-segment array. *)
Definition cell {A} (d : A) (l : list A) (k : Z) : A :=
  default d (l !! Z.to_nat k).

Definition flag (l : list bool) (k : Z) : bool := cell false l k.

(** [payload_max = mtu - IP_UDP - HDR; if (payload_max < 512) payload_max = 512;] *)
Definition payload_max_of (mtu : Z) : Z :=
  let p := mtu - 28 - HDR in if p <? 512 then 512 else p.

(** [(uint32_t)((total + payload_max - 1) / payload_max)], the sum and the
    quotient in [uint64_t]. *)
Definition segs_of (total payload_max : Z) : Z :=
  u32 (u64 (total + payload_max - 1) / payload_max).

(** [(uint64_t)(seq - 1) * (uint64_t)payload_max] *)
Definition seg_offset (seq payload_max : Z) : Z :=
  u64 (u32 (seq - 1) * payload_max).

(** [(double)x] for an integer [x] with [|x| < 2^63] (an [int], or the
    [long] fields of a [struct timespec]), rounded to nearest. *)
Definition to_double (x : Z) : PrimFloat.float :=
  if x <? 0 then PrimFloat.opp (PrimFloat.of_uint63 (Uint63.of_Z (- x)))
  else PrimFloat.of_uint63 (Uint63.of_Z x).

(** [now_s]: [ts.tv_sec + ts.tv_nsec/1e9] when [clock_gettime] reads [t]
    nanoseconds. *)
Definition now_s (t : Z) : PrimFloat.float :=
  PrimFloat.add (to_double (t / 10 ^ 9))
                (PrimFloat.div (to_double (t mod 10 ^ 9)) (to_double (10 ^ 9))).

End Wire.

(** ** The receiver: [udp_receiver.c] *)

Module Receiver.
Import Wire.

(** The locals of [main] that live across iterations of the receive loop.
    [fm] is the mapped output file ([fm.base[0 .. fm.size)]); [have] is
    [[]] while it is [NULL]. *)
Record state := mkState {
  buf : list Byte.byte;
  peer : Z;
  expected_total : Z;
  received : Z;
  total_segs : Z;
  cum_ack : Z;
  have : list bool;
  fm : list Byte.byte;
  started : bool;
  finished : bool
}.

(** One return of [recvfrom]: a datagram and its source, or an error. *)
Inductive event :=
| Datagram (from : Z) (bytes : list Byte.byte)
| RecvError.

(** A call of [sendmsg] with an ACK: destination, [cum_ack], [sack_mask]. *)
Record ack := mkAck { ack_to : Z; ack_cum : Z; ack_mask : Z }.

(** The bytes of that ACK on the wire ([send_ack_sack]). *)
Definition ack_bytes (a : ack) : list Byte.byte :=
  mk_hdr PKT_ACK 0 ACK_LEN ++ be_split 4 (ack_cum a) ++ be_split 8 (ack_mask a).

(** What one iteration of the loop leaves: the state and the ACKs sent; or
    the process gone through [die]. *)
Inductive outcome :=
| Cont (st : state) (out : list ack)
| Die.

(** [fmap_open_wo]: the file is created, sized and mapped, so it reads as
    [size] zero bytes.  [mmap] refuses a length of zero and [ftruncate] a
    negative [off_t]; both end in [die].  (Failures of [open] or for lack of
    space are not modelled.) *)
Definition fmap_open_wo (size : Z) : option (list Byte.byte) :=
  if (size =? 0) || (2 ^ 63 <=? size) then None
  else Some (replicate (Z.to_nat size) Byte.x00).

(** [memcpy(fm.base + off, src, len)] as the output file sees it.  The
    program makes no test of [off + len] against [fm.size].  The mapping is
    made of whole pages, so bytes copied past the end of the file land in the
    rest of its last page and never reach the file: the file keeps its size
    and takes the bytes that fall inside it.  (A copy that runs on past that
    page leaves the mapping, where C gives it no meaning; the model keeps to
    the bytes inside the file there too.) *)
Definition memcpy_at (dst : list Byte.byte) (off : Z) (src : list Byte.byte)
  : list Byte.byte :=
  list_inserts (Z.to_nat off) src dst.

(** [while (cum_ack < total_segs && have[cum_ack + 1]) cum_ack++;] *)
Fixpoint advance_loop (fuel : nat) (have : list bool) (total_segs cum_ack : Z) : Z :=
  match fuel with
  | O => cum_ack
  | S fuel' =>
      if (cum_ack <? total_segs) && flag have (u32 (cum_ack + 1))
      then advance_loop fuel' have total_segs (u32 (cum_ack + 1))
      else cum_ack
  end.

Definition advance (have : list bool) (total_segs cum_ack : Z) : Z :=
  advance_loop (Z.to_nat (total_segs - cum_ack)) have total_segs cum_ack.

(** Bit [i] of the mask under construction:
    [uint32_t s = cum_ack + 1 + (uint32_t)i; s <= total_segs && have[s]]. *)
Definition sack_bit (total_segs cum_ack : Z) (have : list bool) (i : Z) : bool :=
  let s := u32 (cum_ack + 1 + i) in
  (s <=? total_segs) && flag have s.

(** [for (int i=0; i<64; ++i) if (...) mask |= (1ULL << i);] *)
Definition build_mask (total_segs cum_ack : Z) (have : list bool) : Z :=
  fold_left
    (fun mask i =>
       if sack_bit total_segs cum_ack have i
       then Z.lor mask (Z.shiftl 1 i) else mask)
    (seqZ 0 64) 0.

Definition sack_of (st : state) : Z :=
  build_mask (total_segs st) (cum_ack st) (have st).

(** The state once [recvfrom] has filled [buf] and [peer]. *)
Definition with_rx (st : state) (buf' : list Byte.byte) (from : Z) : state :=
  mkState buf' from (expected_total st) (received st) (total_segs st)
          (cum_ack st) (have st) (fm st) (started st) (finished st).

(** The first START: sizes, bitmap and output file. *)
Definition open_session (payload_max : Z) (st : state) : outcome :=
  let expected := rd (buf st) HDR 8 in
  let segs := segs_of expected payload_max in
  match fmap_open_wo expected with
  | None => Die
  | Some m =>
      Cont (mkState (buf st) (peer st) expected (received st) segs 0
                    (replicate (Z.to_nat (segs + 1)) false) m true (finished st))
           [mkAck (peer st) 0 0]
  end.

(** A DATA packet for a segment not yet held. *)
Definition store_segment (payload_max : Z) (seq len : Z) (st : state) : state :=
  let off := seg_offset seq payload_max in
  let fm' := memcpy_at (fm st) off (slice (buf st) HDR len) in
  let have' := <[Z.to_nat seq := true]> (have st) in
  mkState (buf st) (peer st) (expected_total st) (u64 (received st + len))
          (total_segs st) (advance have' (total_segs st) (cum_ack st))
          have' fm' (started st) (finished st).

Definition reply (st : state) : list ack :=
  [mkAck (peer st) (cum_ack st) (sack_of st)].

Definition set_finished (st : state) (f : bool) : state :=
  mkState (buf st) (peer st) (expected_total st) (received st) (total_segs st)
          (cum_ack st) (have st) (fm st) (started st) f.

(** The body of [while (!finished)], from [recvfrom] to the next turn. *)
Definition iter (payload_max : Z) (ev : event) (st0 : state) : outcome :=
  match ev with
  | RecvError => Cont st0 []
  | Datagram from dg =>
      let '(buf', n) := recv_into (buf st0) (HDR + payload_max) dg in
      let st := with_rx st0 buf' from in
      if n <? HDR then Cont st [] else
      let type := hdr_type buf' in
      let seq := hdr_seq buf' in
      let len := hdr_len buf' in
      if (type =? PKT_START) && (seq =? 0) then
        if negb (started st) then
          if negb (len =? 8) then Cont st []
          else open_session payload_max st
        else Cont st [mkAck (peer st) (cum_ack st) 0]
      else if negb (started st) then Cont st []
      else if type =? PKT_DATA then
        if (seq =? 0) || (total_segs st <? seq) then Cont st []
        else if negb (flag (have st) seq) then
          if payload_max <? len then Cont st []
          else
            let st' := store_segment payload_max seq len st in
            Cont st' (reply st')
        else Cont st (reply st)
      else if type =? PKT_END then
        Cont (set_finished st (cum_ack st =? total_segs st)) (reply st)
      else Cont st []
  end.

(** The ACKs an iteration sent. *)
Definition sent (o : outcome) : list ack :=
  match o with
  | Cont _ out => out
  | Die => []
  end.

(** The locals before the loop; [junk] is what [malloc] handed out. *)
Definition init (payload_max : Z) (junk : list Byte.byte) : state :=
  mkState (raw_buffer (HDR + payload_max + 16) junk) 0 0 0 0 0 [] [] false false.

(** The loop over the datagrams that arrive: it stops once [finished] is
    set, and [None] is the process ended by [die]. *)
Fixpoint run (payload_max : Z) (evs : list event) (st : state)
  : option (state * list ack) :=
  if finished st then Some (st, []) else
  match evs with
  | [] => Some (st, [])
  | ev :: evs' =>
      match iter payload_max ev st with
      | Die => None
      | Cont st' out =>
          match run payload_max evs' st' with
          | None => None
          | Some (st'', out') => Some (st'', out ++ out')
          end
      end
  end.

(** The states the loop passes through, for some content of the fresh
    buffer and some arrivals. *)
Definition reachable (payload_max : Z) (st : state) : Prop :=
  exists junk evs out, run payload_max evs (init payload_max junk) = Some (st, out).

(** What the session consists of: everything but the receive buffer and
    the address of the last sender, which [recvfrom] overwrites. *)
Definition session (st : state)
  : Z * Z * Z * Z * list bool * list Byte.byte * bool * bool :=
  (expected_total st, received st, total_segs st, cum_ack st,
   have st, fm st, started st, finished st).

(** Segments [1 .. c] are all held. *)
Definition contiguous (have : list bool) (c : Z) : Prop :=
  forall j, 1 <= j <= c -> flag have j = true.


(** What holds of every state of the loop (see [ReceiverFacts.reachable_inv]). *)
Definition inv (payload_max : Z) (st : state) : Prop :=
  length (buf st) = Z.to_nat (HDR + payload_max + 16) /\
  0 <= cum_ack st <= total_segs st /\
  total_segs st < 2 ^ 32 /\
  (started st = true -> length (have st) = Z.to_nat (total_segs st + 1)) /\
  (started st = false -> have st = [] /\ total_segs st = 0) /\
  flag (have st) 0 = false /\
  contiguous (have st) (cum_ack st) /\
  (cum_ack st < total_segs st -> flag (have st) (cum_ack st + 1) = false).

(** The exit status after the loop:
    [if (expected_total && received != expected_total) return 1; ... return 0;] *)
Definition exit_code (st : state) : Z :=
  if negb (expected_total st =? 0) && negb (received st =? expected_total st)
  then 1 else 0.

End Receiver.

(** ** The sender: [udp_sender.c] *)

Module Sender.
Import Wire.

(** The command line after [atoi], and the size of the input file. *)
Record config := mkConfig {
  mtu : Z;
  total_bytes : Z;
  arg_win : Z;
  retries : Z;
  rto_ms : Z
}.

Definition DEFAULT_WIN : Z := 64.

(** [if (win < 1 || win > 256) win = DEFAULT_WIN;] *)
Definition win (cfg : config) : Z :=
  if (arg_win cfg <? 1) || (256 <? arg_win cfg) then DEFAULT_WIN else arg_win cfg.

Definition payload_max (cfg : config) : Z := payload_max_of (mtu cfg).

Definition total_segs (cfg : config) : Z :=
  segs_of (total_bytes cfg) (payload_max cfg).

(** [(uint16_t)MIN((uint64_t)payload_max, total_bytes - offset)] *)
Definition seg_len (total payload_max seq : Z) : Z :=
  u16 (Z.min payload_max (u64 (total - seg_offset seq payload_max))).

(** Byte [b] of the file lies in the range the sender gives segment [k]. *)
Definition in_segment (total payload_max k b : Z) : Prop :=
  seg_offset k payload_max <= b < seg_offset k payload_max + seg_len total payload_max k.

(** The per-segment arrays and the window of the main loop.  ([in_flight]
    is kept as the source keeps it; nothing reads it.) *)
Record state := mkState {
  acked : list bool;
  sent_ts : list PrimFloat.float;
  tx_cnt : list Z;
  base : Z;
  next_to_send : Z;
  in_flight : Z
}.

(** A packet handed to [sendmsg]/[send]. *)
Inductive tx :=
| TxStart (total : Z)
| TxData (seq off len : Z)
| TxEnd (seq : Z).

(** The datagram [sendmsg] puts on the wire for a packet, the payload of a
    DATA packet taken from the mapped input [file]. *)
Definition wire (file : list Byte.byte) (p : tx) : list Byte.byte :=
  match p with
  | TxStart total => mk_hdr PKT_START 0 8 ++ be_split 8 total
  | TxData seq off len => mk_hdr PKT_DATA seq len ++ slice file off len
  | TxEnd seq => mk_hdr PKT_END seq 0
  end.

(** What the world gives one iteration of the main loop: for each new
    segment whether [sendmsg] took it and the reading of the clock after it,
    the datagram [recv] returns before the timeout (if any), what [abuf]
    held before, and the reading of the clock before the retransmission
    scan. *)
Record env := mkEnv {
  send_ok : Z -> bool;
  clock : Z -> Z;
  rx : option (list Byte.byte);
  stack : list Byte.byte;
  now : Z
}.

Inductive outcome :=
| Next (st : state) (out : list tx)
| Exit (code : Z) (out : list tx).

Definition init (cfg : config) : state :=
  let n := Z.to_nat (total_segs cfg + 1) in
  mkState (replicate n false) (replicate n PrimFloat.zero) (replicate n 0) 1 1 0.

Definition data_pkt (cfg : config) (seq : Z) : tx :=
  TxData seq (seg_offset seq (payload_max cfg))
         (seg_len (total_bytes cfg) (payload_max cfg) seq).

(** The [else] branch after a successful [sendmsg] of a new segment. *)
Definition count_sent (e : env) (seq : Z) (st : state) : state :=
  mkState (acked st)
          (<[Z.to_nat seq := now_s (clock e seq)]> (sent_ts st))
          (<[Z.to_nat seq := cell 0 (tx_cnt st) seq + 1]> (tx_cnt st))
          (base st) (next_to_send st)
          (if cell 0 (tx_cnt st) seq =? 0 then in_flight st + 1 else in_flight st).

Definition set_next (st : state) (n : Z) : state :=
  mkState (acked st) (sent_ts st) (tx_cnt st) (base st) n (in_flight st).

Definition set_base (st : state) (b : Z) : state :=
  mkState (acked st) (sent_ts st) (tx_cnt st) b (next_to_send st) (in_flight st).

(** Step 1:
    [while (next_to_send <= total_segs && (int)(next_to_send - base) < win)]. *)
Fixpoint send_new (fuel : nat) (cfg : config) (e : env) (st : state) (out : list tx)
  : state * list tx :=
  match fuel with
  | O => (st, out)
  | S fuel' =>
      let seq := next_to_send st in
      if (seq <=? total_segs cfg) && (s32 (seq - base st) <? win cfg) then
        let st1 := if send_ok e seq then count_sent e seq st else st in
        send_new fuel' cfg e (set_next st1 (u32 (seq + 1))) (out ++ [data_pkt cfg seq])
      else (st, out)
  end.

(** [acked[s] = 1] with the bookkeeping of [in_flight], under [!acked[s]]. *)
Definition mark (s : Z) (st : state) : state :=
  if flag (acked st) s then st
  else mkState (<[Z.to_nat s := true]> (acked st)) (sent_ts st) (tx_cnt st)
               (base st) (next_to_send st)
               (if 0 <? cell 0 (tx_cnt st) s then in_flight st - 1 else in_flight st).

(** [for (uint32_t s = base; s <= cum && s <= total_segs; ++s)] *)
Fixpoint ack_upto (fuel : nat) (segs cum s : Z) (st : state) : state :=
  match fuel with
  | O => st
  | S fuel' =>
      if (s <=? cum) && (s <=? segs)
      then ack_upto fuel' segs cum (u32 (s + 1)) (mark s st)
      else st
  end.

(** [while (base <= total_segs && acked[base]) base++;] *)
Fixpoint slide (fuel : nat) (segs : Z) (st : state) : state :=
  match fuel with
  | O => st
  | S fuel' =>
      if (base st <=? segs) && flag (acked st) (base st)
      then slide fuel' segs (set_base st (u32 (base st + 1)))
      else st
  end.

(** One turn of [for (int i=0; i<64; ++i)] over the SACK mask. *)
Definition ack_bit (segs cum mask : Z) (st : state) (i : Z) : state :=
  if negb (Z.land mask (Z.shiftl 1 i) =? 0) then
    let s := u32 (cum + 1 + i) in
    if (s <=? segs) && negb (flag (acked st) s) then mark s st else st
  else st.

(** Turns left for a loop that counts from [from] up to [segs]; the loops
    below leave by their own test within that many turns as long as
    [segs + 1] fits in 32 bits (see [SenderFacts.send_new_fuel] and its
    neighbours). *)
Definition loop_fuel (segs from : Z) : nat := Z.to_nat (segs + 1 - from).

(** The body of [if (ah->type == PKT_ACK && ntohs(ah->len) == sizeof(ack_payload_t))]. *)
Definition process_ack (cfg : config) (cum mask : Z) (st : state) : state :=
  let segs := total_segs cfg in
  let st1 := ack_upto (loop_fuel segs (base st)) segs cum (base st) st in
  let st2 := slide (loop_fuel segs (base st1)) segs st1 in
  let st3 := fold_left (ack_bit segs cum mask) (seqZ 0 64) st2 in
  slide (loop_fuel segs (base st3)) segs st3.

(** Step 2: [recv] into [abuf[128]] and the decoding of an ACK. *)
Definition recv_ack (cfg : config) (e : env) (st : state) : state :=
  match rx e with
  | None => st
  | Some dg =>
      let '(abuf, r) := recv_into (raw_buffer 128 (stack e)) 128 dg in
      if HDR <=? r then
        if (hdr_type abuf =? PKT_ACK) && (hdr_len abuf =? ACK_LEN)
        then process_ack cfg (rd abuf HDR 4) (rd abuf (HDR + 4) 8) st
        else st
      else st
  end.

(** [(double)rto_ms/1000.0] *)
Definition rto (cfg : config) : PrimFloat.float :=
  PrimFloat.div (to_double (rto_ms cfg)) (to_double 1000).

(** [now - sent_ts[s] >= (double)rto_ms/1000.0] *)
Definition timed_out (cfg : config) (t : PrimFloat.float) (st : state) (s : Z) : bool :=
  PrimFloat.leb (rto cfg) (PrimFloat.sub t (cell PrimFloat.zero (sent_ts st) s)).

(** [tx_cnt[s]++; sent_ts[s] = now;] *)
Definition count_resent (t : PrimFloat.float) (s : Z) (st : state) : state :=
  mkState (acked st)
          (<[Z.to_nat s := t]> (sent_ts st))
          (<[Z.to_nat s := cell 0 (tx_cnt st) s + 1]> (tx_cnt st))
          (base st) (next_to_send st) (in_flight st).

(** Step 3: [for (uint32_t s = base; s < next_to_send; ++s)], with [t] the
    [double now] taken before the loop. *)
Fixpoint resend (fuel : nat) (cfg : config) (t : PrimFloat.float) (s : Z) (st : state)
         (out : list tx)
  : outcome :=
  match fuel with
  | O => Next st out
  | S fuel' =>
      if s <? next_to_send st then
        if (s =? 0) || (total_segs cfg <? s) then resend fuel' cfg t (u32 (s + 1)) st out
        else if flag (acked st) s then resend fuel' cfg t (u32 (s + 1)) st out
        else if retries cfg <=? cell 0 (tx_cnt st) s then Exit 1 out
        else if timed_out cfg t st s then
          resend fuel' cfg t (u32 (s + 1)) (count_resent t s st) (out ++ [data_pkt cfg s])
        else resend fuel' cfg t (u32 (s + 1)) st out
      else Next st out
  end.

(** The body of [while (base <= total_segs)]. *)
Definition iteration (cfg : config) (e : env) (st : state) : outcome :=
  let '(st1, out1) :=
    send_new (loop_fuel (total_segs cfg) (next_to_send st)) cfg e st [] in
  let st2 := recv_ack cfg e st1 in
  resend (Z.to_nat (next_to_send st2 - base st2)) cfg (now_s (now e)) (base st2) st2 out1.

(** How far the main loop got on the environments given. *)
Inductive progress :=
| Completed (st : state) (out : list tx)
| Exited (code : Z) (out : list tx)
| Pending (st : state) (out : list tx).

Definition emit (out : list tx) (p : progress) : progress :=
  match p with
  | Completed st o => Completed st (out ++ o)
  | Exited c o => Exited c (out ++ o)
  | Pending st o => Pending st (out ++ o)
  end.

Fixpoint bulk (cfg : config) (envs : list env) (st : state) : progress :=
  if base st <=? total_segs cfg then
    match envs with
    | [] => Pending st []
    | e :: envs' =>
        match iteration cfg e st with
        | Exit c out => Exited c out
        | Next st' out => emit out (bulk cfg envs' st')
        end
    end
  else Completed st [].

(** The segments of the DATA packets in [out]. *)
Definition data_seqs (out : list tx) : list Z :=
  omap (fun p => match p with TxData k _ _ => Some k | _ => None end) out.

(** The new segments of an iteration that [sendmsg] took in step 1. *)
Definition launched (cfg : config) (e : env) (st : state) : list Z :=
  filter (fun k => send_ok e k = true)
         (data_seqs (snd (send_new (loop_fuel (total_segs cfg) (next_to_send st)) cfg e st []))).

(** The segments the scan of that iteration handed to [sendmsg] again: the
    DATA packets of the iteration after those of step 1. *)
Definition relaunched (cfg : config) (e : env) (st : state) : list Z :=
  let n := length (snd (send_new (loop_fuel (total_segs cfg) (next_to_send st)) cfg e st [])) in
  match iteration cfg e st with
  | Next _ out => data_seqs (drop n out)
  | Exit _ out => data_seqs (drop n out)
  end.

(** Going from [st] to [st'] acknowledges no segment outside [wire]. *)
Definition acks_within (cfg : config) (wire : list Z) (st st' : state) : Prop :=
  forall k, 1 <= k <= total_segs cfg -> flag (acked st') k = true ->
            flag (acked st) k = true \/ k ∈ wire.

(** Along the run of the main loop on [envs], every datagram received in
    step 2 acknowledges only segments transmitted before it arrives: those
    of [wire], transmitted before the run, and those the iterations so far
    have put on the wire. *)
Fixpoint honest (cfg : config) (envs : list env) (st : state) (wire : list Z) : Prop :=
  match envs with
  | [] => True
  | e :: envs' =>
      base st <= total_segs cfg ->
      let st1 := fst (send_new (loop_fuel (total_segs cfg) (next_to_send st)) cfg e st []) in
      let wire1 := wire ++ launched cfg e st in
      acks_within cfg wire1 st1 (recv_ack cfg e st1) /\
      match iteration cfg e st with
      | Next st' _ => honest cfg envs' st' (wire1 ++ relaunched cfg e st)
      | Exit _ _ => True
      end
  end.

(** The state the main loop is in after the environments given, unless the
    process has exited. *)
Definition reached (p : progress) : option state :=
  match p with
  | Completed st _ => Some st
  | Pending st _ => Some st
  | Exited _ _ => None
  end.

(** [r >= sizeof(pkt_hdr_t) && ah->type == PKT_ACK] on a 64-byte [abuf]. *)
Definition is_ack (r : option (list Byte.byte) * list Byte.byte) : bool :=
  match fst r with
  | None => false
  | Some dg =>
      let '(abuf, n) := recv_into (raw_buffer 64 (snd r)) 64 dg in
      (HDR <=? n) && (hdr_type abuf =? PKT_ACK)
  end.

(** The START and END exchanges:
    [for (int t=0; t<retries; ++t) { send; recv; if (ACK) break;
                                     if (t == retries-1) exit(1); }].
    [Some true]: left the loop; [Some false]: [exit(1)]; [None]: still
    waiting when the inputs end. *)
Fixpoint knock (pkt : tx) (bound t : Z)
         (rs : list (option (list Byte.byte) * list Byte.byte)) (out : list tx)
  : option bool * list tx :=
  if t <? bound then
    match rs with
    | [] => (None, out)
    | r :: rs' =>
        if is_ack r then (Some true, out ++ [pkt])
        else if t =? bound - 1 then (Some false, out ++ [pkt])
        else knock pkt bound (t + 1) rs' (out ++ [pkt])
    end
  else (Some true, out).

(** [main] from the checks of the arguments to the exit status; [None] when
    the inputs end before the program does.  (Opening the input and setting
    up the socket are taken to succeed.) *)
Definition main (cfg : config)
           (hs : list (option (list Byte.byte) * list Byte.byte))
           (envs : list env)
           (fin : list (option (list Byte.byte) * list Byte.byte))
  : option Z * list tx :=
  if mtu cfg <? 576 then (Some 2, [])
  else if total_bytes cfg =? 0 then (Some 1, [])
  else
    match knock (TxStart (total_bytes cfg)) (retries cfg) 0 hs [] with
    | (None, o1) => (None, o1)
    | (Some false, o1) => (Some 1, o1)
    | (Some true, o1) =>
        match bulk cfg envs (init cfg) with
        | Pending _ o2 => (None, o1 ++ o2)
        | Exited c o2 => (Some c, o1 ++ o2)
        | Completed st o2 =>
            match knock (TxEnd (u32 (total_segs cfg + 1))) (retries cfg) 0 fin [] with
            | (None, o3) => (None, o1 ++ o2 ++ o3)
            | (Some false, o3) => (Some 1, o1 ++ o2 ++ o3)
            | (Some true, o3) => (Some 0, o1 ++ o2 ++ o3)
            end
        end
    end.

(** Segments an ACK [(cum, mask)] acknowledges: those from [base] up to
    [cum], and those the mask names beyond [cum]. *)
Definition cum_acks (cfg : config) (st : state) (cum k : Z) : Prop :=
  base st <= k <= Z.min cum (total_segs cfg).

Definition sack_acks (cfg : config) (cum mask k : Z) : Prop :=
  exists i, 0 <= i < 64 /\ Z.testbit mask i = true /\
            k = cum + 1 + i /\ k <= total_segs cfg.

(** [base] is the least segment not acknowledged, or [total_segs + 1]. *)
Definition least_unacked (cfg : config) (st : state) : Prop :=
  1 <= base st <= total_segs cfg + 1 /\
  (forall k, 1 <= k < base st -> flag (acked st) k = true) /\
  (base st <= total_segs cfg -> flag (acked st) (base st) = false).

(** What holds of the state at every turn of the main loop
    (see [SenderFacts.iteration_spec]). *)
Definition inv (cfg : config) (st : state) : Prop :=
  length (acked st) = Z.to_nat (total_segs cfg + 1) /\
  length (sent_ts st) = Z.to_nat (total_segs cfg + 1) /\
  length (tx_cnt st) = Z.to_nat (total_segs cfg + 1) /\
  least_unacked cfg st /\
  1 <= next_to_send st <= total_segs cfg + 1 /\
  (forall k, 0 <= cell 0 (tx_cnt st) k <= Z.max (retries cfg) 1) /\
  (forall k, next_to_send st <= k -> cell 0 (tx_cnt st) k = 0).

End Sender.

(** ** Concrete sessions *)

Module Scenario.
Import Wire.

(** [--mtu 576], the smallest accepted: 541 bytes of payload per segment. *)
Definition P0 : Z := payload_max_of 576.

(** An input of three segments: two full ones and a last one of 100 bytes. *)
Definition file0 : list Byte.byte :=
  replicate 541 Byte.x41 ++ replicate 541 Byte.x42 ++ replicate 100 Byte.x43.

Definition cfg0 : Sender.config := Sender.mkConfig 576 1182 4 50 400.

(** The sender's datagrams for that input. *)
Definition start0 : list Byte.byte := Sender.wire file0 (Sender.TxStart 1182).
Definition data0 (k : Z) : list Byte.byte := Sender.wire file0 (Sender.data_pkt cfg0 k).
Definition end0 : list Byte.byte := Sender.wire file0 (Sender.TxEnd 4).

(** A DATA packet for the last segment that carries a full 541 bytes, where
    the file has room for 100: a datagram the receiver's checks let through. *)
Definition overlong0 : list Byte.byte :=
  mk_hdr PKT_DATA 3 541 ++ replicate 541 Byte.x44.

(** The receiver after the arrivals [evs], and the ACKs it sent meanwhile. *)
Definition after (evs : list Receiver.event) : Receiver.state :=
  match Receiver.run P0 evs (Receiver.init P0 []) with
  | Some (st, _) => st
  | None => Receiver.init P0 []
  end.

Definition acks (evs : list Receiver.event) : list Receiver.ack :=
  match Receiver.run P0 evs (Receiver.init P0 []) with
  | Some (_, out) => out
  | None => []
  end.

(** An ACK datagram as the receiver sends it. *)
Definition ack0 (cum mask : Z) : list Byte.byte :=
  Receiver.ack_bytes (Receiver.mkAck 0 cum mask).

(** An iteration of the sender in which every [sendmsg] succeeds at time 5,
    the ACK [(cum, mask)] arrives, and the scan runs at time 7. *)
Definition env_ack (cum mask : Z) : Sender.env :=
  Sender.mkEnv (fun _ => true) (fun _ => 5) (Some (ack0 cum mask)) [] 7.

(** The same with no datagram before the timeout. *)
Definition env_silent : Sender.env :=
  Sender.mkEnv (fun _ => true) (fun _ => 5) None [] 7.

(** The same with a datagram of 7 bytes, an ACK header announcing 12 bytes
    of payload, received over a buffer that holds [cum_ack = 3] at offset 7. *)
Definition env_stale : Sender.env :=
  Sender.mkEnv (fun _ => true) (fun _ => 5) (Some (mk_hdr PKT_ACK 0 ACK_LEN))
               (replicate 7 Byte.x00 ++ be_split 4 3 ++ be_split 8 0) 7.

(** [--retries 0] on the three-segment input. *)
Definition cfg_no_retry : Sender.config := Sender.mkConfig 576 1182 4 0 400.

(** [--retries 2] on the three-segment input. *)
Definition cfg_two_tries : Sender.config := Sender.mkConfig 576 1182 4 2 400.

(** An iteration with no datagram before the timeout whose scan runs half a
    second after the segments were sent. *)
Definition env_late : Sender.env :=
  Sender.mkEnv (fun _ => true) (fun _ => 5) None [] 500000005.

(** Six segments with a window of four. *)
Definition cfg6 : Sender.config := Sender.mkConfig 576 3246 4 50 400.

(** The sessions of the specification's end-to-end scenarios. *)

(** [T = 1500], [mtu = 1500], [W = 4], [RTO = 100 ms]. *)
Definition P1 : Z := payload_max_of 1500.
Definition file1 : list Byte.byte := replicate 1465 Byte.x61 ++ replicate 35 Byte.x62.
Definition cfg1 : Sender.config := Sender.mkConfig 1500 1500 4 50 100.

(** Inputs of [k] whole segments of 541 bytes, at [mtu = 576]. *)
Definition segments (k : nat) : list Byte.byte := replicate (k * 541) Byte.x63.
Definition cfg_of (k : nat) : Sender.config :=
  Sender.mkConfig 576 (Z.of_nat (k * 541)) 4 50 400.
Definition data_of (k : nat) (seq : Z) : list Byte.byte :=
  Sender.wire (segments k) (Sender.data_pkt (cfg_of k) seq).
Definition start_of (k : nat) : list Byte.byte :=
  Sender.wire (segments k) (Sender.TxStart (Z.of_nat (k * 541))).

(** The receiver's ACKs when START and then the segments [order] of [k]
    arrive from address 9. *)
Definition acks_of (k : nat) (order : list Z) : list Receiver.ack :=
  match Receiver.run P0 (Receiver.Datagram 9 (start_of k)
                          :: map (fun s => Receiver.Datagram 9 (data_of k s)) order)
                     (Receiver.init P0 []) with
  | Some (_, out) => out
  | None => []
  end.

(** An iteration of the sender in which the datagram [dg] arrives. *)
Definition env_rx (dg : list Byte.byte) : Sender.env :=
  Sender.mkEnv (fun _ => true) (fun _ => 5) (Some dg) [] 7.

(** The sender's packets as arrivals at the receiver, from address [from]. *)
Definition arrivals (file : list Byte.byte) (from : Z) (out : list Sender.tx)
  : list Receiver.event :=
  map (fun p => Receiver.Datagram from (Sender.wire file p)) out.

End Scenario.

(** ** Host byte order: [htonll] and [ntohll] *)

Module ByteOrder.
Import Wire.

(** The byte order of the host: the one [#if __BYTE_ORDER__ ==
    __ORDER_LITTLE_ENDIAN__] selects, or the other. *)
Inductive endian := Little | Big.

(** The value of an unsigned object on a little-endian host, from its bytes
    in memory, lowest address first. *)
Fixpoint le_value (bs : list Byte.byte) : Z :=
  match bs with
  | [] => 0
  | b :: bs' => byte_val b + 256 * le_value bs'
  end.

(** The [n] bytes such a host keeps in memory for the unsigned value [v]. *)
Fixpoint le_bytes (n : nat) (v : Z) : list Byte.byte :=
  match n with
  | O => []
  | S n' => byte_of v :: le_bytes n' (v / 256)
  end.

(** Reading an unsigned object from memory and writing it there, as the
    [memcpy] to and from [fs_net] and the [iovec]s over [h] and [ap] do. *)
Definition load (h : endian) (bs : list Byte.byte) : Z :=
  match h with
  | Little => le_value bs
  | Big => be_combine bs
  end.

Definition store (h : endian) (n : nat) (v : Z) : list Byte.byte :=
  match h with
  | Little => le_bytes n v
  | Big => be_split n v
  end.

(** [htonl] of the C library: the 32-bit value whose bytes in memory are
    those of [x] in network order. *)
Definition htonl (h : endian) (x : Z) : Z := load h (be_split 4 x).

(** [htonll]:
    [(((uint64_t)htonl(v & 0xffffffffULL)) << 32) | htonl((uint32_t)(v >> 32))]
    on a little-endian host, [v] itself otherwise. *)
Definition htonll (h : endian) (v : Z) : Z :=
  match h with
  | Little =>
      Z.lor (u64 (Z.shiftl (htonl h (u32 (Z.land v 4294967295))) 32))
            (htonl h (u32 (Z.shiftr v 32)))
  | Big => v
  end.

(** [static inline uint64_t ntohll(uint64_t v){ return htonll(v); }] *)
Definition ntohll (h : endian) (v : Z) : Z := htonll h v.

End ByteOrder.

(** ** Notions for the receiver's session *)

Module Session.
Import Wire Receiver.

(** [finished] is set only with a session open and every segment counted in
    [cum_ack]. *)
Definition settled (st : state) : Prop :=
  finished st = true -> started st = true /\ cum_ack st = total_segs st.

(** While a session is open, the output file has the size announced and the
    segment count is the one computed from it. *)
Definition sized (payload_max : Z) (st : state) : Prop :=
  started st = true ->
  0 < expected_total st < 2 ^ 63 /\
  Z.of_nat (length (fm st)) = expected_total st /\
  total_segs st = segs_of (expected_total st) payload_max.

End Session.

(** ** The sender's packets as the receiver's arrivals *)

Module Transfer.
Import Wire.

(** What [recvfrom] returns to the receiver when the other end is a sender:
    one of its packets, from some address, or an error. *)
Definition arrival : Type := option (Z * Sender.tx).

(** The packets a sender with configuration [cfg] builds: START with the
    size of its input, DATA for a segment in [1, total_segs] with the offset
    and length it computes, END with [total_segs + 1]. *)
Definition sends (cfg : Sender.config) (p : Sender.tx) : bool :=
  match p with
  | Sender.TxStart t => t =? Sender.total_bytes cfg
  | Sender.TxData k off len =>
      (1 <=? k) && (k <=? Sender.total_segs cfg)
      && (off =? seg_offset k (Sender.payload_max cfg))
      && (len =? Sender.seg_len (Sender.total_bytes cfg) (Sender.payload_max cfg) k)
  | Sender.TxEnd s => s =? u32 (Sender.total_segs cfg + 1)
  end.

Definition genuine (cfg : Sender.config) (a : arrival) : bool :=
  match a with
  | None => true
  | Some (_, p) => sends cfg p
  end.

(** The event at the receiver, the payloads read from the input [file]. *)
Definition deliver (file : list Byte.byte) (a : arrival) : Receiver.event :=
  match a with
  | None => Receiver.RecvError
  | Some (from, p) => Receiver.Datagram from (Sender.wire file p)
  end.

Definition sumZ (l : list Z) : Z := foldr Z.add 0 l.

(** The bytes of the segments marked in [have], by the sender's lengths. *)
Definition held_bytes (total payload_max segs : Z) (have : list bool) : Z :=
  sumZ (map (fun k => if flag have k then Sender.seg_len total payload_max k else 0)
            (seqZ 1 segs)).

(** The receiver's session is the one of the sender of [file]: same size
    and segment count, an output file of that size in which every segment
    held has the bytes of the input, and [received] counting those bytes. *)
Definition mirrors (cfg : Sender.config) (file : list Byte.byte) (st : Receiver.state)
  : Prop :=
  (Receiver.started st = false -> Receiver.received st = 0) /\
  (Receiver.started st = true ->
   Receiver.expected_total st = Sender.total_bytes cfg /\
   Receiver.total_segs st = Sender.total_segs cfg /\
   length (Receiver.fm st) = length file /\
   Receiver.received st
   = held_bytes (Sender.total_bytes cfg) (Sender.payload_max cfg) (Sender.total_segs cfg)
                (Receiver.have st) /\
   forall k i,
     1 <= k <= Sender.total_segs cfg -> flag (Receiver.have st) k = true ->
     0 <= i < Sender.seg_len (Sender.total_bytes cfg) (Sender.payload_max cfg) k ->
     Receiver.fm st !! Z.to_nat ((k - 1) * Sender.payload_max cfg + i)
     = file !! Z.to_nat ((k - 1) * Sender.payload_max cfg + i)).

End Transfer.

(** ** Notions for the sender's window and timers *)

Module Pacing.
Import Wire Sender.

(** Segment [k] has been counted as sent and is not acknowledged. *)
Definition outstanding (st : state) (k : Z) : Prop :=
  0 < cell 0 (tx_cnt st) k /\ flag (acked st) k = false.

(** The test of the retransmission scan on a segment in its range:
    [!acked[s]] and [now - sent_ts[s] >= rto]. *)
Definition due (cfg : config) (t : PrimFloat.float) (st : state) (s : Z) : bool :=
  negb (flag (acked st) s) && timed_out cfg t st s.

(** Where step 1 stops: the first segment beyond the input or the window. *)
Definition send_limit (cfg : config) (st : state) : Z :=
  Z.min (total_segs cfg + 1) (base st + win cfg).

(** A DATA packet of the sender for a segment of its input. *)
Definition segment_pkt (cfg : config) (p : tx) : Prop :=
  exists k, 1 <= k <= total_segs cfg /\ p = data_pkt cfg k.

(** The packets handed to [sendmsg] by an iteration, and by a run of the
    main loop, however they end. *)
Definition emitted (o : outcome) : list tx :=
  match o with
  | Next _ out => out
  | Exit _ out => out
  end.

Definition transmitted (p : progress) : list tx :=
  match p with
  | Completed _ out => out
  | Exited _ out => out
  | Pending _ out => out
  end.

(** [next_to_send] is within the window. *)
Definition paced (cfg : config) (st : state) : Prop :=
  next_to_send st <= base st + win cfg.

(** An answer to a START or END: what [recv] returned and what the 64-byte
    buffer held before. *)
Definition answer : Type := option (list Byte.byte) * list Byte.byte.

(** The segments handed to the network over the run of the main loop on
    [envs], one entry per transmission: for each iteration that runs, the new
    segments that [sendmsg] took and then the segments the scan sent again. *)
Fixpoint handed_over (cfg : config) (envs : list env) (st : state) : list Z :=
  if base st <=? total_segs cfg then
    match envs with
    | [] => []
    | e :: envs' =>
        launched cfg e st ++ relaunched cfg e st ++
        match iteration cfg e st with
        | Next st' _ => handed_over cfg envs' st'
        | Exit _ _ => []
        end
    end
  else [].

(** How many times [k] occurs in [l]. *)
Definition times (k : Z) (l : list Z) : Z :=
  Z.of_nat (length (filter (fun j => j = k) l)).

End Pacing.

(* ===================================================================== *)
(** * Part II: properties *)
(* ===================================================================== *)

(** ** Fixed-width arithmetic and the byte codec *)

Module WireFacts.
Import Wire.

Lemma u16_small x : 0 <= x < 2 ^ 16 -> u16 x = x.
Proof. intros H. unfold u16. apply Z.mod_small. exact H. Qed.

Lemma u32_small x : 0 <= x < 2 ^ 32 -> u32 x = x.
Proof. intros H. unfold u32. apply Z.mod_small. exact H. Qed.

Lemma u64_small x : 0 <= x < 2 ^ 64 -> u64 x = x.
Proof. intros H. unfold u64. apply Z.mod_small. exact H. Qed.

Lemma u32_range x : 0 <= u32 x < 2 ^ 32.
Proof. unfold u32. apply Z.mod_pos_bound. lia. Qed.

Lemma u64_range x : 0 <= u64 x < 2 ^ 64.
Proof. unfold u64. apply Z.mod_pos_bound. lia. Qed.

Lemma byte_val_range b : 0 <= byte_val b < 256.
Proof.
  unfold byte_val. pose proof (Byte.to_N_bounded b). lia.
Qed.

Lemma byte_val_of x : byte_val (byte_of x) = x mod 256.
Proof.
  unfold byte_val, byte_of.
  assert (Hr : 0 <= x mod 256 < 256) by (apply Z.mod_pos_bound; lia).
  destruct (Byte.of_N (Z.to_N (x mod 256))) as [b|] eqn:E.
  - apply Byte.to_of_N in E. simpl. rewrite E. lia.
  - apply Byte.of_N_None_iff in E. lia.
Qed.

Lemma byte_of_val b : byte_of (byte_val b) = b.
Proof.
  unfold byte_of, byte_val. pose proof (Byte.to_N_bounded b) as Hb.
  rewrite Z.mod_small by lia. rewrite N2Z.id, Byte.of_to_N. reflexivity.
Qed.

Lemma be_combine_from (bs : list Byte.byte) (acc : Z) :
  fold_left (fun a b => a * 256 + byte_val b) bs acc
  = acc * 256 ^ Z.of_nat (length bs) + be_combine bs.
Proof.
  unfold be_combine. revert acc.
  induction bs as [|b bs IH]; intros acc; simpl fold_left.
  - simpl. lia.
  - rewrite IH, (IH (0 * 256 + byte_val b)).
    replace (Z.of_nat (length (b :: bs))) with (Z.succ (Z.of_nat (length bs)))
      by (simpl length; lia).
    rewrite Z.pow_succ_r by lia. ring.
Qed.

Lemma be_combine_cons b bs :
  be_combine (b :: bs) = byte_val b * 256 ^ Z.of_nat (length bs) + be_combine bs.
Proof.
  unfold be_combine at 1. simpl fold_left. rewrite be_combine_from. ring.
Qed.

Lemma be_combine_range bs : 0 <= be_combine bs < 256 ^ Z.of_nat (length bs).
Proof.
  induction bs as [|b bs IH].
  - unfold be_combine. simpl. lia.
  - rewrite be_combine_cons. pose proof (byte_val_range b) as Hb.
    replace (Z.of_nat (length (b :: bs))) with (Z.succ (Z.of_nat (length bs)))
      by (simpl length; lia).
    rewrite Z.pow_succ_r by lia.
    assert (0 < 256 ^ Z.of_nat (length bs)) by (apply Z.pow_pos_nonneg; lia).
    nia.
Qed.

Lemma be_split_length n v : length (be_split n v) = n.
Proof. induction n as [|n IH]; simpl; [reflexivity | now rewrite IH]. Qed.

(** Reading back what was put on the wire gives the value in its width. *)
Lemma be_combine_split n v :
  be_combine (be_split n v) = v mod 256 ^ Z.of_nat n.
Proof.
  induction n as [|n IH].
  - simpl. unfold be_combine. simpl. now rewrite Z.mod_1_r.
  - cbn [be_split]. rewrite be_combine_cons, be_split_length, IH, byte_val_of.
    replace (Z.of_nat (S n)) with (Z.succ (Z.of_nat n)) by lia.
    rewrite Z.pow_succ_r by lia.
    assert (Hp : 0 < 256 ^ Z.of_nat n) by (apply Z.pow_pos_nonneg; lia).
    rewrite (Z.mul_comm 256), Z.rem_mul_r by lia. lia.
Qed.

(** *** Buffers, datagrams and flags *)

Lemma raw_buffer_length n junk : length (raw_buffer n junk) = Z.to_nat n.
Proof.
  unfold raw_buffer. rewrite length_take, length_app, length_replicate. lia.
Qed.

Lemma recv_into_length buf cap dg :
  (Z.to_nat cap <= length buf)%nat ->
  length (fst (recv_into buf cap dg)) = length buf.
Proof.
  intros H. unfold recv_into. cbn [fst].
  rewrite length_app, length_drop, length_take. lia.
Qed.

Lemma recv_into_count buf cap dg :
  snd (recv_into buf cap dg) = Z.of_nat (length dg) `min` Z.of_nat (Z.to_nat cap).
Proof.
  unfold recv_into. cbn [snd]. rewrite length_take. lia.
Qed.

(** A field that lies within the bytes received is read from the datagram. *)
Lemma slice_recv_into buf cap dg off len :
  0 <= off -> 0 <= len -> off + len <= snd (recv_into buf cap dg) ->
  slice (fst (recv_into buf cap dg)) off len = slice dg off len.
Proof.
  intros Hoff Hlen Hfit. unfold recv_into in *. cbn [fst snd] in *.
  unfold slice. apply list_eq. intros i.
  rewrite !lookup_take. destruct (decide (i < Z.to_nat len)%nat) as [Hi|Hi]; [|reflexivity].
  rewrite !lookup_drop.
  rewrite lookup_app_l by lia.
  rewrite lookup_take. rewrite length_take in Hfit.
  destruct (decide (Z.to_nat off + i < Z.to_nat cap)%nat); [reflexivity | lia].
Qed.

Lemma rd_recv_into buf cap dg off n :
  0 <= off -> 0 <= n -> off + n <= snd (recv_into buf cap dg) ->
  rd (fst (recv_into buf cap dg)) off n = rd dg off n.
Proof. intros. unfold rd. now rewrite slice_recv_into. Qed.

Lemma flag_insert_eq (l : list bool) s :
  (Z.to_nat s < length l)%nat -> flag (<[Z.to_nat s := true]> l) s = true.
Proof.
  intros H. unfold flag, cell. now rewrite list_lookup_insert_eq.
Qed.

Lemma flag_insert_ne (l : list bool) s k :
  0 <= s -> 0 <= k -> k <> s -> flag (<[Z.to_nat s := true]> l) k = flag l k.
Proof.
  intros Hs Hk Hne. unfold flag, cell.
  rewrite list_lookup_insert_ne by lia. reflexivity.
Qed.

Lemma flag_insert_mono (l : list bool) s k :
  flag l k = true -> flag (<[Z.to_nat s := true]> l) k = true.
Proof.
  unfold flag, cell. intros H.
  destruct (decide (Z.to_nat s = Z.to_nat k)) as [E|E].
  - rewrite E. destruct (l !! Z.to_nat k) eqn:El; [|discriminate].
    apply lookup_lt_Some in El. now rewrite list_lookup_insert_eq.
  - now rewrite list_lookup_insert_ne.
Qed.

Lemma flag_replicate_false n k : flag (replicate n false) k = false.
Proof.
  unfold flag, cell. destruct (replicate n false !! Z.to_nat k) eqn:E; [|reflexivity].
  apply lookup_replicate in E. simpl. tauto.
Qed.

Lemma flag_nil k : flag [] k = false.
Proof. reflexivity. Qed.

(** When the datagram holds its header, the header is read from it. *)
Lemma header_of_datagram bf cap dg :
  HDR <= snd (recv_into bf cap dg) ->
  hdr_type (fst (recv_into bf cap dg)) = hdr_type dg /\
  hdr_seq (fst (recv_into bf cap dg)) = hdr_seq dg /\
  hdr_len (fst (recv_into bf cap dg)) = hdr_len dg.
Proof.
  intros H. unfold hdr_type, hdr_seq, hdr_len, HDR in *.
  rewrite !rd_recv_into by lia. auto.
Qed.

Lemma hdr_seq_nonneg bf : 0 <= hdr_seq bf.
Proof. unfold hdr_seq, rd. apply be_combine_range. Qed.

Lemma slice_lookup (bf : list Byte.byte) off len i :
  0 <= off -> 0 <= i < len ->
  slice bf off len !! Z.to_nat i = bf !! Z.to_nat (off + i).
Proof.
  intros Hoff Hi. unfold slice. rewrite lookup_take.
  destruct (decide (Z.to_nat i < Z.to_nat len)%nat); [|lia].
  rewrite lookup_drop. f_equal. lia.
Qed.

Lemma slice_length (bf : list Byte.byte) off len :
  0 <= off -> 0 <= len -> off + len <= Z.of_nat (length bf) ->
  Z.of_nat (length (slice bf off len)) = len.
Proof.
  intros Hoff Hlen Hfit. unfold slice. rewrite length_take, length_drop. lia.
Qed.

Lemma flag_true_lt (l : list bool) k : flag l k = true -> (Z.to_nat k < length l)%nat.
Proof.
  unfold flag, cell. intros H. destruct (l !! Z.to_nat k) eqn:E; [|discriminate].
  now apply lookup_lt_Some in E.
Qed.

Lemma recv_count_header bf P dg :
  0 <= P -> HDR <= Z.of_nat (length dg) -> HDR <= snd (recv_into bf (HDR + P) dg).
Proof.
  intros HP Hlen. rewrite recv_into_count. unfold HDR in *. lia.
Qed.

(** *** The codec: a field written is the field read *)

Lemma rd_at (pre fld rest : list Byte.byte) off n :
  off = Z.of_nat (length pre) -> n = Z.of_nat (length fld) ->
  rd (pre ++ fld ++ rest) off n = be_combine fld.
Proof.
  intros -> ->. unfold rd, slice.
  rewrite !Nat2Z.id, drop_app_length, take_app_length. reflexivity.
Qed.

Lemma mk_hdr_length t s l : length (mk_hdr t s l) = 7%nat.
Proof.
  unfold mk_hdr. cbn [length]. rewrite length_app, !be_split_length. reflexivity.
Qed.

Lemma mk_hdr_fields t s l rest :
  hdr_type (mk_hdr t s l ++ rest) = t mod 256 /\
  hdr_seq (mk_hdr t s l ++ rest) = s mod 2 ^ 32 /\
  hdr_len (mk_hdr t s l ++ rest) = l mod 2 ^ 16.
Proof.
  assert (E1 : mk_hdr t s l ++ rest
               = [] ++ [byte_of t] ++ (be_split 4 s ++ be_split 2 l ++ rest))
    by (unfold mk_hdr; cbn [app]; now rewrite <- app_assoc).
  assert (E2 : mk_hdr t s l ++ rest
               = [byte_of t] ++ be_split 4 s ++ (be_split 2 l ++ rest))
    by (unfold mk_hdr; cbn [app]; now rewrite <- app_assoc).
  assert (E3 : mk_hdr t s l ++ rest
               = (byte_of t :: be_split 4 s) ++ be_split 2 l ++ rest)
    by (unfold mk_hdr; cbn [app]; now rewrite <- app_assoc).
  unfold hdr_type, hdr_seq, hdr_len. split_and!.
  - rewrite E1, rd_at by reflexivity.
    unfold be_combine. cbn [fold_left]. rewrite byte_val_of. lia.
  - rewrite E2, rd_at by (rewrite ?be_split_length; reflexivity).
    rewrite be_combine_split. reflexivity.
  - rewrite E3, rd_at by (cbn [length]; rewrite ?be_split_length; reflexivity).
    rewrite be_combine_split. reflexivity.
Qed.

End WireFacts.

(** ** Segmentation: offsets and lengths of the DATA packets *)

Module SegmenterFacts.
Import Wire WireFacts Sender.

(** The quotient [(T + P - 1) / P] is the ceiling of [T / P]. *)
Lemma ceil_bounds T P :
  0 < P -> let q := (T + P - 1) / P in P * (q - 1) < T <= P * q.
Proof.
  intros HP q. subst q.
  pose proof (Z.div_mod (T + P - 1) P ltac:(lia)) as Hdm.
  pose proof (Z.mod_pos_bound (T + P - 1) P HP) as Hm.
  lia.
Qed.

Section Bounded.
Variables T P : Z.
Hypothesis HT : 0 < T.
Hypothesis HP : 512 <= P <= 65535.
Hypothesis Hfit : (T + P - 1) / P < 2 ^ 32.

Local Abbreviation N := ((T + P - 1) / P).

Lemma ceil_pos : 1 <= N.
Proof.
  pose proof (ceil_bounds T P ltac:(lia)) as Hc. cbv zeta in Hc.
  nia.
Qed.

Lemma total_fits : 0 <= T + P - 1 < 2 ^ 64.
Proof.
  pose proof (ceil_bounds T P ltac:(lia)) as Hc. cbv zeta in Hc.
  assert (P * ((T + P - 1) / P - 1) < 2 ^ 32 * 65535) by nia.
  lia.
Qed.

Lemma segs_of_ceil : segs_of T P = N.
Proof.
  unfold segs_of. rewrite (u64_small _ total_fits). apply u32_small.
  pose proof ceil_pos. lia.
Qed.

Lemma seg_offset_exact k : 1 <= k <= N -> seg_offset k P = (k - 1) * P.
Proof.
  intros Hk. unfold seg_offset.
  rewrite (u32_small (k - 1)) by lia.
  apply u64_small. nia.
Qed.

Lemma seg_len_exact k :
  1 <= k <= N -> seg_len T P k = Z.min P (T - (k - 1) * P).
Proof.
  intros Hk. unfold seg_len. rewrite (seg_offset_exact k Hk).
  pose proof (ceil_bounds T P ltac:(lia)) as Hc. cbv zeta in Hc.
  pose proof total_fits as Hf.
  assert (Hrem : 0 < T - (k - 1) * P) by nia.
  rewrite (u64_small (T - (k - 1) * P)) by nia.
  apply u16_small. lia.
Qed.

Lemma seg_len_full k : 1 <= k < N -> seg_len T P k = P.
Proof.
  intros Hk. rewrite seg_len_exact by lia.
  pose proof (ceil_bounds T P ltac:(lia)) as Hc. cbv zeta in Hc.
  apply Z.min_l. nia.
Qed.

Lemma seg_len_last : seg_len T P N = T - (N - 1) * P /\ 1 <= seg_len T P N <= P.
Proof.
  pose proof ceil_pos as Hn.
  rewrite seg_len_exact by lia.
  pose proof (ceil_bounds T P ltac:(lia)) as Hc. cbv zeta in Hc.
  rewrite Z.min_r by nia. split; [reflexivity | nia].
Qed.

End Bounded.

(** C9 (as amended).  For a total length [T > 0], a segment size
    [512 <= P <= 65535] (what the 16-bit [len] holds) and a segment count
    [(T + P - 1) / P] below [2 ^ 32] (what [total_segs] holds), the sender's
    computation gives [total_segs = ceil (T / P)], offset [(k - 1) * P] for
    segment [k], length [P] for every [k < N] and a length in [1, P] for
    [k = N]; every byte of [0, T) lies in the range of some segment, every
    range lies in [0, T), and no byte lies in two ranges. *)
Theorem segments_partition_payload (T P : Z) :
  0 < T -> 512 <= P <= 65535 -> (T + P - 1) / P < 2 ^ 32 ->
  let N := segs_of T P in
  N = (T + P - 1) / P /\
  (forall k, 1 <= k <= N -> seg_offset k P = (k - 1) * P) /\
  (forall k, 1 <= k < N -> seg_len T P k = P) /\
  1 <= seg_len T P N <= P /\
  (forall b, 0 <= b < T <->
             exists k, 1 <= k <= N /\ in_segment T P k b) /\
  (forall k k' b, 1 <= k <= N -> 1 <= k' <= N ->
                  in_segment T P k b -> in_segment T P k' b -> k = k').
Proof.
  intros HT HP Hfit N. subst N. rewrite (segs_of_ceil T P HT HP Hfit).
  pose proof (ceil_bounds T P ltac:(lia)) as Hc. cbv zeta in Hc.
  pose proof (ceil_pos T P HT HP) as Hn.
  pose proof (seg_len_last T P HT HP Hfit) as [Hlast Hlast'].
  set (N := (T + P - 1) / P) in *.
  assert (Hlen : forall k, 1 <= k <= N ->
                           1 <= seg_len T P k <= P /\
                           (k - 1) * P + seg_len T P k <= T /\
                           (k < N -> seg_len T P k = P)).
  { intros k Hk. destruct (Z.eq_dec k N) as [->|Hne].
    - split; [exact Hlast'|]. split; [lia|lia].
    - rewrite (seg_len_full T P HT HP Hfit k) by (fold N; lia).
      split; [lia|]. split; [nia | reflexivity]. }
  split; [reflexivity|].
  split; [intros k Hk; now apply (seg_offset_exact T P HP Hfit)|].
  split; [intros k Hk; now apply (seg_len_full T P HT HP Hfit)|].
  split; [exact Hlast'|].
  split.
  - intros b. split.
    + intros Hb. exists (b / P + 1).
      pose proof (Z.div_mod b P ltac:(lia)) as Hdm.
      pose proof (Z.mod_pos_bound b P ltac:(lia)) as Hm.
      assert (Hq : 0 <= b / P) by (apply Z.div_pos; lia).
      assert (HqN : b / P + 1 <= N) by nia.
      split; [lia|]. unfold in_segment.
      rewrite (seg_offset_exact T P HP Hfit) by (fold N; lia).
      destruct (Hlen (b / P + 1) ltac:(lia)) as (_ & _ & Hfull).
      destruct (Z.eq_dec (b / P + 1) N) as [E|E].
      * rewrite E, Hlast. lia.
      * rewrite Hfull by lia. lia.
    + intros (k & Hk & Hin). unfold in_segment in Hin.
      rewrite (seg_offset_exact T P HP Hfit) in Hin by (fold N; lia).
      destruct (Hlen k Hk) as (? & ? & _). nia.
  - intros k k' b Hk Hk' Hin Hin'. unfold in_segment in *.
    rewrite (seg_offset_exact T P HP Hfit) in Hin, Hin' by (fold N; lia).
    destruct (Hlen k Hk) as (? & _ & _). destruct (Hlen k' Hk') as (? & _ & _).
    nia.
Qed.

Lemma segments_partition_payload_witness :
  (0 < 1500 /\ 512 <= 1465 <= 65535 /\ (1500 + 1465 - 1) / 1465 < 2 ^ 32 /\
   1 <= 1 < segs_of 1500 1465 /\ 0 <= 1499 < 1500) /\
  segs_of 1500 1465 = 2 /\ seg_offset 2 1465 = (2 - 1) * 1465 /\
  seg_len 1500 1465 1 = 1465 /\
  1 <= seg_len 1500 1465 2 <= 1465 /\
  (exists k, 1 <= k <= segs_of 1500 1465 /\ in_segment 1500 1465 k 1499).
Proof.
  assert (H1 : 0 < 1500) by lia.
  assert (H2 : 512 <= 1465 <= 65535) by lia.
  assert (H3 : (1500 + 1465 - 1) / 1465 < 2 ^ 32) by (vm_compute; reflexivity).
  assert (H4 : 1 <= 1 < segs_of 1500 1465) by (vm_compute; split; [discriminate | reflexivity]).
  assert (H5 : 0 <= 1499 < 1500) by lia.
  split; [auto 10|].
  pose proof (segments_partition_payload 1500 1465 H1 H2 H3)
    as (HN & Hoff & Hfull & Hlast & Hcover & _).
  split; [exact HN|].
  split; [apply Hoff; vm_compute; split; discriminate|].
  split; [exact (Hfull 1 H4)|].
  split; [exact Hlast|].
  exact (proj1 (Hcover 1499) H5).
Defined.

(** C9, as stated, fails beyond the widths of the fields: with
    [--mtu 65571] the segment size is 65536 and the 16-bit length of a full
    segment is 0; and a length of [2 ^ 41 + 1] bytes at segment size 512
    needs [2 ^ 32 + 1] segments where [total_segs] holds 1. *)
Lemma segmentation_breaks_beyond_field_widths :
  (let P := payload_max_of 65571 in
   let T := 65537 in
   0 < T /\ 512 <= P /\ 1 <= 1 < (T + P - 1) / P /\ seg_len T P 1 = 0 /\ seg_len T P 1 <> P) /\
  (let P := 512 in
   let T := 2 ^ 41 + 1 in
   0 < T /\ 512 <= P /\ (T + P - 1) / P = 2 ^ 32 + 1 /\ segs_of T P = 1).
Proof.
  vm_compute. repeat split; discriminate.
Qed.

End SegmenterFacts.

(** ** The receiver *)

Module ReceiverFacts.
Import Wire WireFacts Receiver.

(** *** The loop that advances [cum_ack] *)

Lemma advance_loop_spec (hv : list bool) (segs : Z) :
  segs < 2 ^ 32 ->
  forall fuel c,
    0 <= c <= segs -> (Z.to_nat (segs - c) <= fuel)%nat ->
    let c' := advance_loop fuel hv segs c in
    c <= c' <= segs /\
    (forall j, c < j <= c' -> flag hv j = true) /\
    (c' < segs -> flag hv (c' + 1) = false).
Proof.
  intros Hsegs fuel. induction fuel as [|fuel IH]; intros c Hc Hfuel; cbn [advance_loop].
  - cbv zeta. assert (c = segs) by lia. subst. repeat split; lia.
  - destruct (c <? segs) eqn:Hlt; cbn [andb].
    + apply Z.ltb_lt in Hlt. rewrite (u32_small (c + 1)) by lia.
      destruct (flag hv (c + 1)) eqn:Hf.
      * destruct (IH (c + 1) ltac:(lia) ltac:(lia)) as (H1 & H2 & H3).
        cbv zeta. split; [lia|]. split; [|exact H3].
        intros j Hj. destruct (Z.eq_dec j (c + 1)) as [->|Hne]; [exact Hf|].
        apply H2. lia.
      * cbv zeta. split; [lia|]. split; [intros j Hj; lia | intros _; exact Hf].
    + apply Z.ltb_ge in Hlt. cbv zeta. repeat split; lia.
Qed.

(** More fuel than [total_segs - cum_ack] changes nothing. *)
Lemma advance_fuel (hv : list bool) (segs : Z) :
  segs < 2 ^ 32 ->
  forall fuel c,
    0 <= c -> (Z.to_nat (segs - c) <= fuel)%nat ->
    advance_loop (S fuel) hv segs c = advance_loop fuel hv segs c.
Proof.
  intros Hsegs fuel. induction fuel as [|fuel IH]; intros c Hc Hfuel.
  - cbn [advance_loop].
    replace (c <? segs) with false by (symmetry; apply Z.ltb_ge; lia). reflexivity.
  - change (advance_loop (S (S fuel)) hv segs c)
      with (if (c <? segs) && flag hv (u32 (c + 1))
            then advance_loop (S fuel) hv segs (u32 (c + 1)) else c).
    change (advance_loop (S fuel) hv segs c)
      with (if (c <? segs) && flag hv (u32 (c + 1))
            then advance_loop fuel hv segs (u32 (c + 1)) else c).
    destruct ((c <? segs) && flag hv (u32 (c + 1))) eqn:Hcond; [|reflexivity].
    apply andb_true_iff in Hcond as [Hlt _]. apply Z.ltb_lt in Hlt.
    rewrite (u32_small (c + 1)) by lia. apply IH; lia.
Qed.

Lemma advance_spec (hv : list bool) (segs c : Z) :
  segs < 2 ^ 32 -> 0 <= c <= segs ->
  let c' := advance hv segs c in
  c <= c' <= segs /\
  (forall j, c < j <= c' -> flag hv j = true) /\
  (c' < segs -> flag hv (c' + 1) = false).
Proof.
  intros Hsegs Hc. unfold advance. apply advance_loop_spec; [exact Hsegs | exact Hc | lia].
Qed.

(** *** One iteration, case by case *)

(** The iteration on a datagram, with the result of [recvfrom] named. *)
Lemma iter_datagram P from dg st0 :
  let buf' := fst (recv_into (buf st0) (HDR + P) dg) in
  let n := snd (recv_into (buf st0) (HDR + P) dg) in
  let st := with_rx st0 buf' from in
  iter P (Datagram from dg) st0 =
  if n <? HDR then Cont st [] else
  if (hdr_type buf' =? PKT_START) && (hdr_seq buf' =? 0) then
    if negb (started st) then
      if negb (hdr_len buf' =? 8) then Cont st []
      else open_session P st
    else Cont st [mkAck (peer st) (cum_ack st) 0]
  else if negb (started st) then Cont st []
  else if hdr_type buf' =? PKT_DATA then
    if (hdr_seq buf' =? 0) || (total_segs st <? hdr_seq buf') then Cont st []
    else if negb (flag (have st) (hdr_seq buf')) then
      if P <? hdr_len buf' then Cont st []
      else Cont (store_segment P (hdr_seq buf') (hdr_len buf') st)
                (reply (store_segment P (hdr_seq buf') (hdr_len buf') st))
    else Cont st (reply st)
  else if hdr_type buf' =? PKT_END then
    Cont (set_finished st (cum_ack st =? total_segs st)) (reply st)
  else Cont st [].
Proof.
  cbv zeta. unfold iter. destruct (recv_into (buf st0) (HDR + P) dg) as [b n].
  reflexivity.
Qed.

(** *** The invariant *)

Lemma with_rx_inv P st from dg :
  inv P st -> inv P (with_rx st (fst (recv_into (buf st) (HDR + P) dg)) from).
Proof.
  intros (Hb & Hrest). split; [|exact Hrest].
  cbn [with_rx buf]. rewrite recv_into_length; [exact Hb|]. rewrite Hb. lia.
Qed.

Lemma open_session_inv P st st' out :
  inv P st -> open_session P st = Cont st' out -> inv P st'.
Proof.
  intros (Hb & _) H. unfold open_session in H.
  destruct (fmap_open_wo (rd (buf st) HDR 8)) as [m|]; [|discriminate].
  injection H as <- _. unfold inv. cbn.
  pose proof (u32_range (u64 (rd (buf st) HDR 8 + P - 1) / P)) as Hr.
  unfold segs_of. split_and!; try lia; try exact Hb; try discriminate.
  - intros _. now rewrite length_replicate.
  - apply flag_replicate_false.
  - intros j Hj. lia.
  - intros _. apply flag_replicate_false.
Qed.

Lemma store_segment_inv P seq len st :
  inv P st -> started st = true -> 1 <= seq <= total_segs st ->
  inv P (store_segment P seq len st).
Proof.
  intros (Hb & Hc & Hn & Hlen & _ & Hz & Hcont & _) Hs Hseq.
  specialize (Hlen Hs).
  pose proof (advance_spec (<[Z.to_nat seq := true]> (have st)) (total_segs st)
                           (cum_ack st) Hn Hc) as Hadv.
  cbv zeta in Hadv. destruct Hadv as (Ha1 & Ha2 & Ha3).
  unfold inv, store_segment. cbn.
  split_and!; try lia; try exact Hb.
  - intros _. now rewrite length_insert.
  - rewrite Hs. discriminate.
  - rewrite flag_insert_ne by lia. exact Hz.
  - intros j Hj.
    destruct (Z_le_gt_dec j (cum_ack st)) as [Hle|Hgt].
    + apply flag_insert_mono. apply Hcont. lia.
    + apply Ha2. lia.
  - exact Ha3.
Qed.

Lemma iter_inv P ev st st' out :
  inv P st -> iter P ev st = Cont st' out -> inv P st'.
Proof.
  intros Hinv H. destruct ev as [from dg|].
  2:{ cbn in H. now injection H as <- _. }
  rewrite iter_datagram in H. cbv zeta in H.
  pose proof (with_rx_inv P st from dg Hinv) as Hinv1.
  set (st1 := with_rx st (fst (recv_into (buf st) (HDR + P) dg)) from) in *.
  repeat match type of H with
         | context [if ?c then _ else _] => destruct c eqn:?
         end;
    try discriminate;
    try (injection H as <- _; exact Hinv1).
  - eapply open_session_inv; eauto.
  - injection H as <- _. apply store_segment_inv; [exact Hinv1| |].
    + now destruct (started st1).
    + match goal with
      | Hor : (_ || _) = false |- _ => apply orb_false_iff in Hor as [H0 H1]
      end.
      apply Z.eqb_neq in H0. apply Z.ltb_ge in H1.
      pose proof (hdr_seq_nonneg (fst (recv_into (buf st) (HDR + P) dg))).
      unfold recv_into in *. cbn [fst snd] in *. lia.
Qed.

Lemma receiver_init_inv P junk : inv P (init P junk).
Proof.
  unfold inv, init. cbn. rewrite raw_buffer_length.
  split_and!; try lia; try discriminate; try reflexivity; try tauto.
  intros j Hj. lia.
Qed.

Lemma run_inv P evs : forall st st' out,
  inv P st -> run P evs st = Some (st', out) -> inv P st'.
Proof.
  induction evs as [|ev evs IH]; intros st st' out Hinv H; cbn [run] in H.
  - destruct (finished st); injection H as <- _; exact Hinv.
  - destruct (finished st); [injection H as <- _; exact Hinv|].
    destruct (iter P ev st) as [st1 o1|] eqn:Hit; [|discriminate].
    destruct (run P evs st1) as [[st2 o2]|] eqn:Hrun; [|discriminate].
    injection H as <- _. eapply IH; [|exact Hrun]. eapply iter_inv; eauto.
Qed.

Lemma reachable_inv P st : reachable P st -> inv P st.
Proof.
  intros (junk & evs & out & H). eapply run_inv; [apply receiver_init_inv | exact H].
Qed.


(** Bits set stay set and [cum_ack] does not go back. *)
Lemma iter_monotone P ev st st' out :
  inv P st -> iter P ev st = Cont st' out ->
  (forall k, flag (have st) k = true -> flag (have st') k = true) /\
  cum_ack st <= cum_ack st'.
Proof.
  intros Hinv H. destruct ev as [from dg|].
  2:{ cbn in H. injection H as <- _. split; [auto | lia]. }
  rewrite iter_datagram in H. cbv zeta in H.
  pose proof (with_rx_inv P st from dg Hinv) as Hinv1.
  set (st1 := with_rx st (fst (recv_into (buf st) (HDR + P) dg)) from) in *.
  assert (Hsame : have st1 = have st /\ cum_ack st1 = cum_ack st) by (split; reflexivity).
  destruct Hsame as [Hh Hc]. rewrite <- Hh, <- Hc. clearbody st1. clear Hh Hc.
  repeat match type of H with
         | context [if ?c then _ else _] => destruct c eqn:?
         end;
    try discriminate;
    try (injection H as <- _; split; [auto | cbn; lia]).
  - unfold open_session in H.
    destruct (fmap_open_wo (rd (buf st1) HDR 8)); [|discriminate].
    injection H as <- _. cbn.
    destruct Hinv1 as (_ & Hca & _ & _ & Hns & _).
    destruct (started st1); [discriminate|].
    destruct (Hns eq_refl) as [Hnil Hz]. rewrite Hnil.
    split; [intros k Hk; rewrite flag_nil in Hk; discriminate | lia].
  - injection H as <- _. cbn. split.
    + intros k Hk. now apply flag_insert_mono.
    + destruct Hinv1 as (_ & Hca & Hn & _).
      pose proof (advance_spec (<[Z.to_nat (hdr_seq (fst (recv_into (buf st) (HDR + P) dg))) := true]>
                                  (have st1)) (total_segs st1) (cum_ack st1) Hn Hca) as Ha.
      cbv zeta in Ha. unfold recv_into in *. cbn [fst snd] in *. lia.
Qed.

(** *** The SACK mask, bit by bit *)

Lemma fold_mask_testbit (f : Z -> bool) (l : list Z) : forall (m i : Z),
  0 <= i -> Forall (fun j => 0 <= j) l ->
  Z.testbit (fold_left (fun mask j => if f j then Z.lor mask (Z.shiftl 1 j) else mask) l m) i
  = Z.testbit m i || (bool_decide (i ∈ l) && f i).
Proof.
  induction l as [|j l IH]; intros m i Hi Hl.
  - cbn. now rewrite orb_false_r.
  - inversion Hl as [|? ? Hj Hl']; subst. cbn [fold_left]. rewrite IH by assumption.
    destruct (decide (i = j)) as [->|Hne].
    + rewrite (bool_decide_eq_true_2 (j ∈ j :: l)) by apply list_elem_of_here.
      destruct (f j) eqn:Hf.
      * rewrite Z.lor_spec, Z.shiftl_1_l, Z.pow2_bits_true by lia.
        destruct (Z.testbit m j), (bool_decide (j ∈ l)); reflexivity.
      * destruct (Z.testbit m j), (bool_decide (j ∈ l)); reflexivity.
    + assert (Hiff : bool_decide (i ∈ j :: l) = bool_decide (i ∈ l)).
      { apply bool_decide_ext. rewrite elem_of_cons. tauto. }
      rewrite Hiff.
      destruct (f j); [|reflexivity].
      rewrite Z.lor_spec, Z.shiftl_1_l, Z.pow2_bits_false by lia.
      now rewrite orb_false_r.
Qed.

Lemma build_mask_testbit segs c hv i :
  Z.testbit (build_mask segs c hv) i
  = bool_decide (0 <= i < 64) && sack_bit segs c hv i.
Proof.
  destruct (Z_lt_le_dec i 0) as [Hneg|Hi].
  - rewrite Z.testbit_neg_r by lia. rewrite bool_decide_eq_false_2 by lia. reflexivity.
  - unfold build_mask. rewrite fold_mask_testbit.
    + rewrite Z.bits_0. cbn [orb]. f_equal. apply bool_decide_ext.
      rewrite elem_of_seqZ. lia.
    + exact Hi.
    + apply Forall_seqZ. intros; lia.
Qed.

(** *** Writing into the mapped file *)

Lemma memcpy_at_inside (dst src : list Byte.byte) off i :
  0 <= off -> 0 <= i < Z.of_nat (length src) -> off + i < Z.of_nat (length dst) ->
  memcpy_at dst off src !! Z.to_nat (off + i) = src !! Z.to_nat i.
Proof.
  intros Hoff Hi Hfit. unfold memcpy_at.
  rewrite list_lookup_inserts by lia. f_equal. lia.
Qed.

Lemma memcpy_at_outside (dst src : list Byte.byte) off j :
  0 <= off -> 0 <= j -> (j < off \/ off + Z.of_nat (length src) <= j) ->
  memcpy_at dst off src !! Z.to_nat j = dst !! Z.to_nat j.
Proof.
  intros Hoff Hj [Hlt|Hge]; unfold memcpy_at.
  - apply list_lookup_inserts_lt. lia.
  - apply list_lookup_inserts_ge. lia.
Qed.

(** *** A DATA packet for a segment not yet held *)

Lemma seg_offset_in_range seq P :
  1 <= seq < 2 ^ 32 -> 0 <= P < 2 ^ 31 -> seg_offset seq P = (seq - 1) * P.
Proof.
  intros Hs HP. unfold seg_offset. rewrite (u32_small (seq - 1)) by lia.
  apply u64_small. nia.
Qed.

Lemma fresh_data_stored P st from dg :
  inv P st -> 0 <= P < 2 ^ 31 -> started st = true ->
  hdr_type dg = PKT_DATA ->
  1 <= hdr_seq dg <= total_segs st ->
  flag (have st) (hdr_seq dg) = false ->
  hdr_len dg <= P ->
  HDR + hdr_len dg <= Z.of_nat (length dg) ->
  let st1 := with_rx st (fst (recv_into (buf st) (HDR + P) dg)) from in
  let st' := store_segment P (hdr_seq dg) (hdr_len dg) st1 in
  iter P (Datagram from dg) st = Cont st' [mkAck from (cum_ack st') (sack_of st')] /\
  fm st' = memcpy_at (fm st) ((hdr_seq dg - 1) * P) (slice dg HDR (hdr_len dg)) /\
  have st' = <[Z.to_nat (hdr_seq dg) := true]> (have st) /\
  cum_ack st' = advance (have st') (total_segs st) (cum_ack st).
Proof.
  intros Hinv HP Hs Hty Hseq Hfresh Hlen Hfit st1 st'.
  assert (Hlen0 : 0 <= hdr_len dg) by (unfold hdr_len, rd; apply be_combine_range).
  assert (Hn : HDR + hdr_len dg <= snd (recv_into (buf st) (HDR + P) dg)).
  { rewrite recv_into_count. unfold HDR in *. lia. }
  destruct (header_of_datagram (buf st) (HDR + P) dg ltac:(unfold HDR in *; lia))
    as (Ht & Hq & Hl).
  destruct Hinv as (_ & _ & Hsegs & _).
  split_and!.
  - rewrite iter_datagram. cbv zeta. rewrite Ht, Hq, Hl, Hty.
    replace (snd (recv_into (buf st) (HDR + P) dg) <? HDR) with false
      by (symmetry; apply Z.ltb_ge; lia).
    cbn [with_rx started total_segs have]. rewrite Hs, Hfresh. cbn [negb andb].
    replace (PKT_DATA =? PKT_START) with false by reflexivity.
    replace (PKT_DATA =? PKT_DATA) with true by reflexivity. cbn [andb].
    replace (hdr_seq dg =? 0) with false by (symmetry; apply Z.eqb_neq; lia).
    replace (total_segs st <? hdr_seq dg) with false by (symmetry; apply Z.ltb_ge; lia).
    replace (P <? hdr_len dg) with false by (symmetry; apply Z.ltb_ge; lia).
    cbn [orb]. reflexivity.
  - subst st' st1. unfold store_segment. cbn [fm with_rx buf].
    rewrite seg_offset_in_range by lia.
    rewrite slice_recv_into by (unfold HDR in *; lia). reflexivity.
  - reflexivity.
  - reflexivity.
Qed.



(** *** Packets that are dropped or only acknowledged *)

(** A datagram too short for a header changes nothing and is not answered. *)
Lemma short_datagram_dropped P st from dg :
  Z.of_nat (length dg) < HDR ->
  exists st', iter P (Datagram from dg) st = Cont st' [] /\ session st' = session st.
Proof.
  intros Hshort. eexists. rewrite iter_datagram. cbv zeta.
  replace (snd (recv_into (buf st) (HDR + P) dg) <? HDR) with true.
  - split; reflexivity.
  - symmetry. apply Z.ltb_lt. rewrite recv_into_count. lia.
Qed.

Lemma reply_with_rx st bf from :
  reply (with_rx st bf from) = [mkAck from (cum_ack st) (sack_of st)].
Proof. unfold reply, sack_of. cbn [with_rx peer cum_ack total_segs have]. reflexivity. Qed.

(** A DATA packet for a segment already held is acknowledged and nothing else. *)
Lemma duplicate_data_acked P st from dg :
  0 <= P -> inv P st -> started st = true ->
  HDR <= Z.of_nat (length dg) ->
  hdr_type dg = PKT_DATA ->
  flag (have st) (hdr_seq dg) = true ->
  exists st',
    iter P (Datagram from dg) st = Cont st' [mkAck from (cum_ack st) (sack_of st)] /\
    session st' = session st.
Proof.
  intros HP Hinv Hs Hlen Hty Hdup.
  pose proof (recv_count_header (buf st) P dg HP Hlen) as Hn.
  destruct (header_of_datagram (buf st) (HDR + P) dg Hn) as (Ht & Hq & _).
  destruct Hinv as (_ & _ & _ & Hl & _ & Hz & _).
  pose proof (flag_true_lt _ _ Hdup) as Hlt. rewrite (Hl Hs) in Hlt.
  assert (Hne : hdr_seq dg <> 0) by (intros E; rewrite E, Hz in Hdup; discriminate).
  pose proof (hdr_seq_nonneg dg) as Hnn.
  eexists. rewrite iter_datagram. cbv zeta. rewrite Ht, Hq, Hty.
  replace (snd (recv_into (buf st) (HDR + P) dg) <? HDR) with false
    by (symmetry; apply Z.ltb_ge; lia).
  cbn [with_rx started total_segs have]. rewrite Hs, Hdup. cbn [negb andb].
  replace (PKT_DATA =? PKT_START) with false by reflexivity.
  replace (PKT_DATA =? PKT_DATA) with true by reflexivity. cbn [andb].
  replace (hdr_seq dg =? 0) with false by (symmetry; apply Z.eqb_neq; lia).
  replace (total_segs st <? hdr_seq dg) with false by (symmetry; apply Z.ltb_ge; lia).
  cbn [orb]. rewrite reply_with_rx. split; reflexivity.
Qed.

(** C10.  While no START has been accepted, a DATA or END packet (whatever
    its length, sequence number and source) leaves the session as it is, with
    nothing allocated, and no ACK or other datagram is sent. *)
Theorem data_and_end_ignored_before_start (P : Z) (st : state) (from : Z)
        (dg : list Byte.byte) :
  started st = false ->
  hdr_type dg = PKT_DATA \/ hdr_type dg = PKT_END ->
  exists st',
    iter P (Datagram from dg) st = Cont st' [] /\
    session st' = session st /\ started st' = false.
Proof.
  intros Hs Hty. eexists. rewrite iter_datagram. cbv zeta.
  destruct (snd (recv_into (buf st) (HDR + P) dg) <? HDR) eqn:Hn.
  - split_and!; [reflexivity | reflexivity | exact Hs].
  - apply Z.ltb_ge in Hn.
    destruct (header_of_datagram (buf st) (HDR + P) dg Hn) as (Ht & _ & _).
    rewrite Ht. cbn [with_rx started]. rewrite Hs. cbn [negb].
    replace (hdr_type dg =? PKT_START) with false
      by (destruct Hty as [-> | ->]; reflexivity).
    cbn [andb]. split_and!; [reflexivity | reflexivity | cbn; now rewrite ?Hs].
Qed.

Lemma data_and_end_ignored_before_start_witness :
  let st := Receiver.init Scenario.P0 [] in
  (started st = false /\
   (hdr_type (Scenario.data0 1) = PKT_DATA \/ hdr_type (Scenario.data0 1) = PKT_END)) /\
  exists st',
    iter Scenario.P0 (Datagram 1 (Scenario.data0 1)) st = Cont st' [] /\
    session st' = session st /\ started st' = false.
Proof.
  intros st.
  assert (H1 : started st = false) by reflexivity.
  assert (H2 : hdr_type (Scenario.data0 1) = PKT_DATA \/ hdr_type (Scenario.data0 1) = PKT_END)
    by (left; vm_compute; reflexivity).
  split; [split; assumption|].
  exact (data_and_end_ignored_before_start Scenario.P0 st 1 (Scenario.data0 1) H1 H2).
Defined.

(** C8 (as amended).  A START packet with sequence number 0 that arrives
    while a session is active is answered, whatever peer it comes from, with
    an ACK to its source that carries the current [cum_ack] (and an empty SACK
    mask); the bitmap, the output file and the rest of the session stay as
    they are. *)
Theorem start_during_session_reacked (P : Z) (st : state) (from : Z)
        (dg : list Byte.byte) :
  0 <= P -> started st = true ->
  HDR <= Z.of_nat (length dg) -> hdr_type dg = PKT_START -> hdr_seq dg = 0 ->
  exists st',
    iter P (Datagram from dg) st = Cont st' [mkAck from (cum_ack st) 0] /\
    session st' = session st.
Proof.
  intros HP Hs Hlen Hty Hseq.
  pose proof (recv_count_header (buf st) P dg HP Hlen) as Hn.
  destruct (header_of_datagram (buf st) (HDR + P) dg Hn) as (Ht & Hq & _).
  eexists. rewrite iter_datagram. cbv zeta. rewrite Ht, Hq, Hty, Hseq.
  replace (snd (recv_into (buf st) (HDR + P) dg) <? HDR) with false
    by (symmetry; apply Z.ltb_ge; lia).
  cbn [with_rx started peer cum_ack]. rewrite Hs.
  replace (PKT_START =? PKT_START) with true by reflexivity.
  cbn [Z.eqb andb negb]. split; reflexivity.
Qed.

Lemma start_during_session_reacked_witness :
  let st := Scenario.after [Datagram 1 Scenario.start0; Datagram 1 (Scenario.data0 1)] in
  (0 <= Scenario.P0 /\ started st = true /\
   HDR <= Z.of_nat (length Scenario.start0) /\
   hdr_type Scenario.start0 = PKT_START /\ hdr_seq Scenario.start0 = 0) /\
  exists st',
    iter Scenario.P0 (Datagram 1 Scenario.start0) st = Cont st' [mkAck 1 (cum_ack st) 0] /\
    session st' = session st.
Proof.
  intros st.
  assert (H0 : 0 <= Scenario.P0) by (vm_compute; discriminate).
  assert (H1 : started st = true) by (vm_compute; reflexivity).
  assert (H2 : HDR <= Z.of_nat (length Scenario.start0)) by (vm_compute; discriminate).
  assert (H3 : hdr_type Scenario.start0 = PKT_START) by (vm_compute; reflexivity).
  assert (H4 : hdr_seq Scenario.start0 = 0) by (vm_compute; reflexivity).
  split; [auto 10|].
  exact (start_during_session_reacked Scenario.P0 st 1 Scenario.start0 H0 H1 H2 H3 H4).
Defined.

(** C8, as stated, fails for a START from another peer: the session was
    opened by peer 1 and has segment 1; a START from peer 2 is answered with
    an ACK to peer 2 carrying [cum_ack = 1]. *)
Lemma start_from_other_peer_is_answered :
  let st := Scenario.after [Datagram 1 Scenario.start0; Datagram 1 (Scenario.data0 1)] in
  started st = true /\ peer st = 1 /\ 2 <> peer st /\
  sent (iter Scenario.P0 (Datagram 2 Scenario.start0) st) = [mkAck 2 1 0] /\
  sent (iter Scenario.P0 (Datagram 2 Scenario.start0) st) <> [].
Proof.
  vm_compute. split_and!; try reflexivity; discriminate.
Qed.

(** C6 (as amended).  A DATA packet whose sequence number is 0 or above
    [total_segs], or whose segment is not yet held and whose [len] exceeds
    [payload_max], is discarded: the session is unchanged and no ACK is
    sent. *)
Theorem invalid_data_discarded (P : Z) (st : state) (from : Z) (dg : list Byte.byte) :
  hdr_type dg = PKT_DATA ->
  hdr_seq dg = 0 \/ total_segs st < hdr_seq dg \/
  (flag (have st) (hdr_seq dg) = false /\ P < hdr_len dg) ->
  exists st',
    iter P (Datagram from dg) st = Cont st' [] /\ session st' = session st.
Proof.
  intros Hty Hbad. eexists. rewrite iter_datagram. cbv zeta.
  destruct (snd (recv_into (buf st) (HDR + P) dg) <? HDR) eqn:Hn;
    [split; reflexivity|].
  apply Z.ltb_ge in Hn.
  destruct (header_of_datagram (buf st) (HDR + P) dg Hn) as (Ht & Hq & Hl).
  rewrite Ht, Hq, Hl, Hty.
  replace (PKT_DATA =? PKT_START) with false by reflexivity.
  replace (PKT_DATA =? PKT_DATA) with true by reflexivity.
  cbn [andb with_rx started total_segs have].
  destruct (started st); cbn [negb]; [|split; reflexivity].
  destruct ((hdr_seq dg =? 0) || (total_segs st <? hdr_seq dg)) eqn:Hrange;
    [split; reflexivity|].
  apply orb_false_iff in Hrange as [H0 H1].
  apply Z.eqb_neq in H0. apply Z.ltb_ge in H1.
  destruct Hbad as [Hb | [Hb | [Hfresh Hlong]]]; [lia | lia |].
  rewrite Hfresh. cbn [negb].
  replace (P <? hdr_len dg) with true by (symmetry; apply Z.ltb_lt; lia).
  split; reflexivity.
Qed.

Lemma invalid_data_discarded_witness :
  let st := Scenario.after [Datagram 1 Scenario.start0] in
  let dg := mk_hdr PKT_DATA 2 600 ++ replicate 600 Byte.x44 in
  (hdr_type dg = PKT_DATA /\
   (hdr_seq dg = 0 \/ total_segs st < hdr_seq dg \/
    (flag (have st) (hdr_seq dg) = false /\ Scenario.P0 < hdr_len dg))) /\
  exists st',
    iter Scenario.P0 (Datagram 1 dg) st = Cont st' [] /\ session st' = session st.
Proof.
  intros st dg.
  assert (H1 : hdr_type dg = PKT_DATA) by (vm_compute; reflexivity).
  assert (H2 : hdr_seq dg = 0 \/ total_segs st < hdr_seq dg \/
               (flag (have st) (hdr_seq dg) = false /\ Scenario.P0 < hdr_len dg))
    by (right; right; vm_compute; split; reflexivity).
  split; [split; assumption|].
  exact (invalid_data_discarded Scenario.P0 st 1 dg H1 H2).
Defined.

(** C6, as stated, fails for a DATA packet whose segment is already held:
    its [len] is not looked at, and a packet of 600 bytes of payload, above
    [payload_max = 541], is acknowledged like any duplicate. *)
Lemma oversized_duplicate_is_acked :
  let st := Scenario.after [Datagram 1 Scenario.start0; Datagram 1 (Scenario.data0 1)] in
  let dg := mk_hdr PKT_DATA 1 600 ++ replicate 600 Byte.x44 in
  hdr_type dg = PKT_DATA /\ hdr_seq dg = 1 /\ flag (have st) 1 = true /\
  Scenario.P0 < hdr_len dg /\ Z.of_nat (length dg) = HDR + hdr_len dg /\
  sent (iter Scenario.P0 (Datagram 1 dg) st) = [mkAck 1 1 0] /\
  sent (iter Scenario.P0 (Datagram 1 dg) st) <> [].
Proof.
  vm_compute. split_and!; try reflexivity; discriminate.
Qed.

(** *** The ACKs *)

Lemma sack_of_testbit st i :
  0 <= i < 64 ->
  Z.testbit (sack_of st) i = true <->
  u32 (cum_ack st + 1 + i) <= total_segs st /\
  flag (have st) (u32 (cum_ack st + 1 + i)) = true.
Proof.
  intros Hi. unfold sack_of. rewrite build_mask_testbit.
  rewrite bool_decide_eq_true_2 by exact Hi. cbn [andb]. unfold sack_bit.
  rewrite andb_true_iff, Z.leb_le. reflexivity.
Qed.

(** Every ACK an iteration sends is the START answer, with an empty mask, or
    the answer to DATA or END, with the mask of the state it leaves. *)
Lemma iter_acks P from dg st st' out a :
  iter P (Datagram from dg) st = Cont st' out -> In a out ->
  ack_to a = from /\ ack_cum a = cum_ack st' /\
  HDR <= Z.of_nat (length dg) /\
  (hdr_type dg = PKT_START /\ ack_mask a = 0 \/
   (hdr_type dg = PKT_DATA \/ hdr_type dg = PKT_END) /\ ack_mask a = sack_of st').
Proof.
  intros H Hin. rewrite iter_datagram in H. cbv zeta in H.
  destruct (snd (recv_into (buf st) (HDR + P) dg) <? HDR) eqn:Hn.
  { injection H as _ <-. destruct Hin. }
  apply Z.ltb_ge in Hn.
  destruct (header_of_datagram (buf st) (HDR + P) dg Hn) as (Ht & Hq & Hl).
  assert (Hlen : HDR <= Z.of_nat (length dg)) by (rewrite recv_into_count in Hn; lia).
  rewrite Ht, Hq, Hl in H.
  set (st1 := with_rx st (fst (recv_into (buf st) (HDR + P) dg)) from) in *.
  assert (Hp1 : peer st1 = from) by reflexivity.
  destruct ((hdr_type dg =? PKT_START) && (hdr_seq dg =? 0)) eqn:Hstart.
  - apply andb_true_iff in Hstart as [Hty _]. apply Z.eqb_eq in Hty.
    destruct (negb (started st1)).
    + destruct (negb (hdr_len dg =? 8)).
      * injection H as _ <-. destruct Hin.
      * unfold open_session in H.
        destruct (fmap_open_wo (rd (buf st1) HDR 8)); [|discriminate].
        injection H as <- <-. destruct Hin as [<-|[]]. cbn. auto 10.
    + injection H as <- <-. destruct Hin as [<-|[]]. cbn. auto 10.
  - destruct (negb (started st1)); [injection H as _ <-; destruct Hin|].
    destruct (hdr_type dg =? PKT_DATA) eqn:Hdata.
    + apply Z.eqb_eq in Hdata.
      destruct ((hdr_seq dg =? 0) || (total_segs st1 <? hdr_seq dg));
        [injection H as _ <-; destruct Hin|].
      destruct (negb (flag (have st1) (hdr_seq dg))).
      * destruct (P <? hdr_len dg); [injection H as _ <-; destruct Hin|].
        injection H as <- <-. destruct Hin as [<-|[]].
        cbn [ack_to ack_cum ack_mask store_segment peer]. auto 10.
      * injection H as <- <-. destruct Hin as [<-|[]].
        cbn [ack_to ack_cum ack_mask]. auto 10.
    + destruct (hdr_type dg =? PKT_END) eqn:Hend; [|injection H as _ <-; destruct Hin].
      apply Z.eqb_eq in Hend.
      injection H as <- <-. destruct Hin as [<-|[]].
      unfold reply, sack_of.
      cbn [ack_to ack_cum ack_mask set_finished total_segs cum_ack have peer].
      split_and!; [exact Hp1 | reflexivity | exact Hlen | right; split; [right; exact Hend | reflexivity]].
Qed.

(** C5 (as amended).  In every ACK sent in answer to DATA or END, bit [i]
    ([0 <= i < 64]) of [sack_mask] is set if and only if [s <= total_segs] and
    [have[s]] is set, for [s = cum_ack + 1 + i] in 32-bit arithmetic, which is
    [cum_ack + 1 + i] whenever [total_segs + 64 < 2 ^ 32]; every ACK sent in
    answer to START has [sack_mask = 0]. *)
Theorem ack_mask_reports_have (P : Z) (st st' : state) (from : Z)
        (dg : list Byte.byte) (out : list ack) (a : ack) :
  reachable P st ->
  iter P (Datagram from dg) st = Cont st' out -> In a out ->
  ack_cum a = cum_ack st' /\
  (hdr_type dg = PKT_START -> ack_mask a = 0) /\
  (hdr_type dg <> PKT_START ->
   (forall i, 0 <= i < 64 ->
      Z.testbit (ack_mask a) i = true <->
      u32 (cum_ack st' + 1 + i) <= total_segs st' /\
      flag (have st') (u32 (cum_ack st' + 1 + i)) = true) /\
   (total_segs st' + 64 < 2 ^ 32 ->
    forall i, 0 <= i < 64 ->
      Z.testbit (ack_mask a) i = true <->
      cum_ack st' + 1 + i <= total_segs st' /\
      flag (have st') (cum_ack st' + 1 + i) = true)).
Proof.
  intros Hreach Hit Hin.
  pose proof (iter_inv P _ _ _ _ (reachable_inv P st Hreach) Hit) as Hinv'.
  destruct (iter_acks P from dg st st' out a Hit Hin) as (_ & Hcum & _ & Hmask).
  split; [exact Hcum|]. split.
  - intros Hty. destruct Hmask as [[_ Hz]|[[Hd|He] _]]; [exact Hz | | ];
      rewrite Hty in *; discriminate.
  - intros Hty. destruct Hmask as [[Hs _]|[_ Hm]]; [contradiction|].
    rewrite Hm. split.
    + intros i Hi. now apply sack_of_testbit.
    + intros Hfit i Hi. rewrite sack_of_testbit by exact Hi.
      destruct Hinv' as (_ & Hc & _).
      rewrite (u32_small (cum_ack st' + 1 + i)) by lia. reflexivity.
Qed.

Lemma ack_mask_reports_have_witness :
  let st := Scenario.after [Datagram 1 Scenario.start0] in
  let dg := Scenario.data0 3 in
  let st' := Scenario.after [Datagram 1 Scenario.start0; Datagram 1 dg] in
  let a := mkAck 1 0 4 in
  let a0 := mkAck 1 0 0 in
  (reachable Scenario.P0 st /\
   iter Scenario.P0 (Datagram 1 dg) st = Cont st' [a] /\ In a [a] /\
   hdr_type dg <> PKT_START /\ total_segs st' + 64 < 2 ^ 32 /\ 0 <= 2 < 64 /\
   iter Scenario.P0 (Datagram 1 Scenario.start0) st
   = Cont (with_rx st (fst (recv_into (buf st) (HDR + Scenario.P0) Scenario.start0)) 1) [a0] /\
   In a0 [a0] /\ hdr_type Scenario.start0 = PKT_START) /\
  (Z.testbit (ack_mask a) 2 = true <->
   cum_ack st' + 1 + 2 <= total_segs st' /\ flag (have st') (cum_ack st' + 1 + 2) = true) /\
  ack_mask a0 = 0.
Proof.
  intros st dg st' a a0.
  assert (H1 : reachable Scenario.P0 st).
  { exists [], [Datagram 1 Scenario.start0], [mkAck 1 0 0]. vm_compute. reflexivity. }
  assert (H2 : iter Scenario.P0 (Datagram 1 dg) st = Cont st' [a]) by (vm_compute; reflexivity).
  assert (H3 : In a [a]) by (left; reflexivity).
  assert (H4 : hdr_type dg <> PKT_START) by (vm_compute; discriminate).
  assert (H5 : total_segs st' + 64 < 2 ^ 32) by (vm_compute; reflexivity).
  assert (H6 : 0 <= 2 < 64) by lia.
  assert (H7 : iter Scenario.P0 (Datagram 1 Scenario.start0) st
               = Cont (with_rx st (fst (recv_into (buf st) (HDR + Scenario.P0) Scenario.start0)) 1)
                      [a0]) by (vm_compute; reflexivity).
  assert (H8 : In a0 [a0]) by (left; reflexivity).
  assert (H9 : hdr_type Scenario.start0 = PKT_START) by (vm_compute; reflexivity).
  split; [auto 20|].
  destruct (ack_mask_reports_have Scenario.P0 st st' 1 dg [a] a H1 H2 H3) as (_ & _ & Hbits).
  destruct (ack_mask_reports_have Scenario.P0 st _ 1 Scenario.start0 [a0] a0 H1 H7 H8)
    as (_ & Hstart & _).
  split; [exact (proj2 (Hbits H4) H5 2 H6) | exact (Hstart H9)].
Defined.

(** C5, as stated, fails for the ACK that answers a START during the
    session: segment 3 is held beyond [cum_ack = 0], so bit 2 should be set,
    and the ACK carries the mask 0. *)
Lemma start_ack_has_empty_mask :
  let st := Scenario.after [Datagram 1 Scenario.start0; Datagram 1 (Scenario.data0 3)] in
  sent (iter Scenario.P0 (Datagram 1 Scenario.start0) st) = [mkAck 1 0 0] /\
  cum_ack st = 0 /\ total_segs st = 3 /\
  cum_ack st + 1 + 2 <= total_segs st /\ flag (have st) (cum_ack st + 1 + 2) = true /\
  Z.testbit (ack_mask (mkAck 1 0 0)) 2 = false.
Proof.
  vm_compute. split_and!; try reflexivity; discriminate.
Qed.

(** *** The ACK on the wire *)

Lemma fold_mask_nonneg (f : Z -> bool) (l : list Z) : forall m,
  0 <= m -> 0 <= fold_left (fun mask j => if f j then Z.lor mask (Z.shiftl 1 j) else mask) l m.
Proof.
  induction l as [|j l IH]; intros m Hm; cbn [fold_left]; [exact Hm|].
  apply IH. destruct (f j); [|exact Hm].
  apply Z.lor_nonneg. split; [exact Hm|]. rewrite Z.shiftl_1_l.
  destruct (Z_lt_le_dec j 0); [rewrite Z.pow_neg_r by lia; lia | apply Z.pow_nonneg; lia].
Qed.

(** The mask fits the 64 bits of [sack_mask]. *)
Lemma sack_of_range st : 0 <= sack_of st < 2 ^ 64.
Proof.
  assert (Hnn : 0 <= sack_of st).
  { unfold sack_of, build_mask. apply fold_mask_nonneg. lia. }
  split; [exact Hnn|].
  apply (Z.bounded_iff_bits_nonneg 64 (sack_of st)); [lia | exact Hnn|].
  intros l Hl. unfold sack_of. rewrite build_mask_testbit.
  rewrite bool_decide_eq_false_2 by lia. reflexivity.
Qed.

(** What the sender's decoder finds in the bytes of an ACK. *)
Lemma ack_bytes_decoded a :
  0 <= ack_cum a < 2 ^ 32 -> 0 <= ack_mask a < 2 ^ 64 ->
  Z.of_nat (length (ack_bytes a)) = HDR + ACK_LEN /\
  hdr_type (ack_bytes a) = PKT_ACK /\ hdr_len (ack_bytes a) = ACK_LEN /\
  rd (ack_bytes a) HDR 4 = ack_cum a /\
  rd (ack_bytes a) (HDR + 4) 8 = ack_mask a.
Proof.
  intros Hc Hm. unfold ack_bytes.
  destruct (mk_hdr_fields PKT_ACK 0 ACK_LEN (be_split 4 (ack_cum a) ++ be_split 8 (ack_mask a)))
    as (Ht & _ & Hl).
  split_and!.
  - rewrite !length_app, mk_hdr_length, !be_split_length. reflexivity.
  - rewrite Ht. reflexivity.
  - rewrite Hl. reflexivity.
  - rewrite rd_at by (rewrite ?mk_hdr_length, ?be_split_length; reflexivity).
    rewrite be_combine_split. apply Z.mod_small. exact Hc.
  - replace (mk_hdr PKT_ACK 0 ACK_LEN ++ be_split 4 (ack_cum a) ++ be_split 8 (ack_mask a))
      with ((mk_hdr PKT_ACK 0 ACK_LEN ++ be_split 4 (ack_cum a)) ++ be_split 8 (ack_mask a) ++ [])
      by (now rewrite app_nil_r, app_assoc).
    rewrite rd_at
      by (rewrite ?length_app, ?mk_hdr_length, ?be_split_length; reflexivity).
    rewrite be_combine_split. apply Z.mod_small. exact Hm.
Qed.

End ReceiverFacts.

(** ** The sender *)

Module SenderFacts.
Import Wire WireFacts Sender.

(** *** Cells of the per-segment arrays *)

Lemma cell_insert_eq {A} (d : A) (l : list A) k v :
  (Z.to_nat k < length l)%nat -> cell d (<[Z.to_nat k := v]> l) k = v.
Proof. intros H. unfold cell. now rewrite list_lookup_insert_eq. Qed.

Lemma cell_insert_ne {A} (d : A) (l : list A) k j v :
  0 <= k -> 0 <= j -> j <> k -> cell d (<[Z.to_nat k := v]> l) j = cell d l j.
Proof.
  intros Hk Hj Hne. unfold cell. rewrite list_lookup_insert_ne by lia. reflexivity.
Qed.

Lemma cell_replicate {A} (d : A) n k : cell d (replicate n d) k = d.
Proof.
  unfold cell. destruct (replicate n d !! Z.to_nat k) eqn:E; [|reflexivity].
  apply lookup_replicate in E. simpl. tauto.
Qed.

(** [mask & (1ULL << i)] is nonzero exactly when bit [i] of [mask] is set. *)
Lemma land_bit_test mask i :
  0 <= i -> negb (Z.land mask (Z.shiftl 1 i) =? 0) = Z.testbit mask i.
Proof.
  intros Hi. rewrite Z.shiftl_1_l.
  destruct (Z.testbit mask i) eqn:E.
  - destruct (Z.eqb_spec (Z.land mask (2 ^ i)) 0) as [Hz|Hnz]; [|reflexivity].
    assert (Hb : Z.testbit (Z.land mask (2 ^ i)) i = true)
      by (rewrite Z.land_spec, E, Z.pow2_bits_true by lia; reflexivity).
    rewrite Hz, Z.bits_0 in Hb. discriminate.
  - assert (Hz : Z.land mask (2 ^ i) = 0).
    { apply Z.bits_inj'. intros n Hn. rewrite Z.land_spec, Z.bits_0.
      destruct (Z.eq_dec i n) as [<-|Hne].
      - now rewrite E.
      - rewrite Z.pow2_bits_false by lia. apply andb_false_r. }
    rewrite Hz. reflexivity.
Qed.

(** *** Marking a segment acknowledged *)

Lemma mark_frame s st :
  sent_ts (mark s st) = sent_ts st /\ tx_cnt (mark s st) = tx_cnt st /\
  base (mark s st) = base st /\ next_to_send (mark s st) = next_to_send st /\
  length (acked (mark s st)) = length (acked st).
Proof.
  unfold mark. destruct (flag (acked st) s); cbn; rewrite ?length_insert; auto.
Qed.

Lemma mark_acked s st k :
  0 <= s -> 0 <= k -> (Z.to_nat s < length (acked st))%nat ->
  flag (acked (mark s st)) k = (k =? s) || flag (acked st) k.
Proof.
  intros Hs Hk Hlt. unfold mark. destruct (flag (acked st) s) eqn:Hf.
  - destruct (Z.eqb_spec k s) as [->|Hne]; [now rewrite Hf | reflexivity].
  - cbn [acked]. destruct (Z.eqb_spec k s) as [->|Hne].
    + unfold flag. now rewrite cell_insert_eq.
    + unfold flag. now rewrite cell_insert_ne.
Qed.

Lemma mark_id s st : flag (acked st) s = true -> mark s st = st.
Proof. intros H. unfold mark. now rewrite H. Qed.

(** Case analysis on the comparisons and bits of a goal, then arithmetic. *)
Ltac split_cmp :=
  match goal with
  | |- context [(?x <=? ?y)] => destruct (Z.leb_spec0 x y)
  | |- context [(?x <? ?y)] => destruct (Z.ltb_spec0 x y)
  | |- context [(?x =? ?y)] => destruct (Z.eqb_spec x y)
  end.

Ltac split_bit :=
  match goal with
  | |- context [flag ?l ?k] => destruct (flag l k)
  | |- context [Z.testbit ?m ?i] => destruct (Z.testbit m i)
  end.

Ltac by_cases :=
  repeat split_cmp; cbn [andb orb negb];
  repeat split_bit; cbn [andb orb negb];
  try reflexivity; try lia.

(** *** The loops of the ACK handler *)

Lemma ack_upto_spec segs cum :
  segs + 1 < 2 ^ 32 ->
  forall fuel s st,
    0 <= s <= segs + 1 ->
    length (acked st) = Z.to_nat (segs + 1) ->
    (Z.to_nat (segs + 1 - s) <= fuel)%nat ->
    let st' := ack_upto fuel segs cum s st in
    sent_ts st' = sent_ts st /\ tx_cnt st' = tx_cnt st /\
    base st' = base st /\ next_to_send st' = next_to_send st /\
    length (acked st') = length (acked st) /\
    forall k, 0 <= k ->
      flag (acked st') k
      = flag (acked st) k || ((s <=? k) && (k <=? cum) && (k <=? segs)).
Proof.
  intros Hsegs fuel. induction fuel as [|fuel IH]; intros s st Hs Hlen Hfuel; cbn [ack_upto].
  - cbv zeta. split_and!; try reflexivity. intros k Hk. by_cases.
  - destruct ((s <=? cum) && (s <=? segs)) eqn:Hc.
    + apply andb_true_iff in Hc as [Hc1 Hc2]. apply Z.leb_le in Hc1, Hc2.
      rewrite (u32_small (s + 1)) by lia.
      destruct (mark_frame s st) as (F1 & F2 & F3 & F4 & F5).
      destruct (IH (s + 1) (mark s st) ltac:(lia) ltac:(now rewrite F5) ltac:(lia))
        as (G1 & G2 & G3 & G4 & G5 & G6).
      cbv zeta. split_and!; try congruence.
      intros k Hk. rewrite G6 by exact Hk. rewrite mark_acked by lia. by_cases.
    + cbv zeta. split_and!; try reflexivity. intros k Hk.
      apply andb_false_iff in Hc. destruct Hc as [Hc|Hc]; apply Z.leb_gt in Hc; by_cases.
Qed.

Lemma slide_spec segs :
  segs + 1 < 2 ^ 32 ->
  forall fuel st,
    0 <= base st <= segs + 1 ->
    (Z.to_nat (segs + 1 - base st) <= fuel)%nat ->
    let st' := slide fuel segs st in
    acked st' = acked st /\ sent_ts st' = sent_ts st /\ tx_cnt st' = tx_cnt st /\
    next_to_send st' = next_to_send st /\ in_flight st' = in_flight st /\
    base st <= base st' <= segs + 1 /\
    (forall k, base st <= k < base st' -> flag (acked st) k = true) /\
    (base st' <= segs -> flag (acked st) (base st') = false).
Proof.
  intros Hsegs fuel. induction fuel as [|fuel IH]; intros st Hb Hfuel; cbn [slide].
  - cbv zeta. split_and!; try reflexivity; try lia.
  - destruct (base st <=? segs) eqn:Hle; cbn [andb].
    + apply Z.leb_le in Hle. destruct (flag (acked st) (base st)) eqn:Hf.
      * rewrite (u32_small (base st + 1)) by lia.
        destruct (IH (set_base st (base st + 1)) ltac:(cbn; lia) ltac:(cbn; lia))
          as (G1 & G2 & G3 & G4 & G5 & G6 & G7 & G8).
        cbn [set_base acked sent_ts tx_cnt next_to_send in_flight base] in *.
        cbv zeta. split_and!; try assumption; try lia.
        intros k Hk. destruct (Z.eq_dec k (base st)) as [->|Hne]; [exact Hf|].
        apply G7. lia.
      * cbv zeta. split_and!; try reflexivity; try lia.
        intros _. exact Hf.
    + apply Z.leb_gt in Hle. cbv zeta. split_and!; try reflexivity; try lia.
Qed.

Lemma ack_bit_spec segs cum mask st i :
  0 <= i -> 0 <= segs ->
  length (acked st) = Z.to_nat (segs + 1) ->
  let st' := ack_bit segs cum mask st i in
  sent_ts st' = sent_ts st /\ tx_cnt st' = tx_cnt st /\
  base st' = base st /\ next_to_send st' = next_to_send st /\
  length (acked st') = length (acked st) /\
  forall k, 0 <= k ->
    flag (acked st') k
    = flag (acked st) k
      || (Z.testbit mask i && (k =? u32 (cum + 1 + i)) && (k <=? segs)).
Proof.
  intros Hi Hsegs Hlen. unfold ack_bit. rewrite land_bit_test by exact Hi.
  pose proof (u32_range (cum + 1 + i)) as Hr.
  set (s := u32 (cum + 1 + i)) in *.
  destruct (Z.testbit mask i) eqn:Hbit.
  - destruct (s <=? segs) eqn:Hle; cbn [andb].
    + apply Z.leb_le in Hle. destruct (flag (acked st) s) eqn:Hf; cbn [negb].
      * cbv zeta. split_and!; try reflexivity. intros k Hk.
        destruct (Z.eqb_spec k s) as [->|Hne]; [rewrite Hf; reflexivity|].
        cbn [andb]. now rewrite orb_false_r.
      * destruct (mark_frame s st) as (F1 & F2 & F3 & F4 & F5).
        cbv zeta. split_and!; try assumption. intros k Hk.
        rewrite mark_acked by lia.
        destruct (Z.eqb_spec k s) as [->|Hne]; cbn [andb orb].
        -- replace (s <=? segs) with true by (symmetry; apply Z.leb_le; lia).
           now rewrite orb_true_r.
        -- now rewrite orb_false_r.
    + apply Z.leb_gt in Hle. cbv zeta. split_and!; try reflexivity. intros k Hk.
      destruct (Z.eqb_spec k s) as [->|Hne]; cbn [andb].
      * replace (s <=? segs) with false by (symmetry; apply Z.leb_gt; lia).
        now rewrite orb_false_r.
      * now rewrite orb_false_r.
  - cbv zeta. split_and!; try reflexivity. intros k Hk. cbn [andb].
    now rewrite orb_false_r.
Qed.

Lemma ack_bits_spec segs cum mask :
  0 <= segs ->
  forall l st,
    Forall (fun i => 0 <= i) l ->
    length (acked st) = Z.to_nat (segs + 1) ->
    let st' := fold_left (ack_bit segs cum mask) l st in
    sent_ts st' = sent_ts st /\ tx_cnt st' = tx_cnt st /\
    base st' = base st /\ next_to_send st' = next_to_send st /\
    length (acked st') = length (acked st) /\
    forall k, 0 <= k ->
      flag (acked st') k = true <->
      flag (acked st) k = true \/
      exists i, i ∈ l /\ Z.testbit mask i = true /\ k = u32 (cum + 1 + i) /\ k <= segs.
Proof.
  intros Hsegs l. induction l as [|i l IH]; intros st Hl Hlen; cbn [fold_left].
  - cbv zeta. split_and!; try reflexivity. intros k Hk. split; [auto|].
    intros [H|(i & Hin & _)]; [exact H|]. inversion Hin.
  - inversion Hl as [|? ? Hi Hl']; subst.
    destruct (ack_bit_spec segs cum mask st i Hi Hsegs Hlen) as (F1 & F2 & F3 & F4 & F5 & F6).
    destruct (IH (ack_bit segs cum mask st i) Hl' ltac:(congruence))
      as (G1 & G2 & G3 & G4 & G5 & G6).
    cbv zeta. split_and!; try congruence.
    intros k Hk. rewrite G6 by exact Hk. rewrite F6 by exact Hk.
    rewrite orb_true_iff, !andb_true_iff, Z.eqb_eq, Z.leb_le. split.
    + intros [[H|((Hb & He) & Hle)]|(j & Hin & Hb & He & Hle)].
      * left; exact H.
      * right. exists i. split; [apply list_elem_of_here|auto].
      * right. exists j. split; [now apply list_elem_of_further|auto].
    + intros [H|(j & Hin & Hb & He & Hle)]; [left; left; exact H|].
      apply elem_of_cons in Hin as [->|Hin].
      * left. right. auto.
      * right. exists j. auto.
Qed.

Lemma total_segs_nonneg cfg : 0 <= total_segs cfg.
Proof. unfold total_segs, segs_of. apply u32_range. Qed.

(** The ACK handler as a whole: which bits of [acked] it sets, and where it
    leaves [base]. *)
Lemma process_ack_spec cfg cum mask st :
  total_segs cfg + 1 < 2 ^ 32 -> inv cfg st ->
  let st' := process_ack cfg cum mask st in
  sent_ts st' = sent_ts st /\ tx_cnt st' = tx_cnt st /\
  next_to_send st' = next_to_send st /\
  length (acked st') = length (acked st) /\
  (forall k, 0 <= k ->
     flag (acked st') k = true <->
     flag (acked st) k = true \/
     (base st <= k <= cum /\ k <= total_segs cfg) \/
     exists i, 0 <= i < 64 /\ Z.testbit mask i = true /\
               k = u32 (cum + 1 + i) /\ k <= total_segs cfg) /\
  least_unacked cfg st' /\ base st <= base st'.
Proof.
  intros Hsegs (La & Ls & Lt & (Hb & Hlow & Hstop) & Hnext & Hcnt & Hzero).
  pose proof (total_segs_nonneg cfg) as Hn0.
  unfold process_ack. set (N := total_segs cfg) in *.
  destruct (ack_upto_spec N cum Hsegs (loop_fuel N (base st)) (base st) st
              ltac:(lia) La ltac:(unfold loop_fuel; lia))
    as (A1 & A2 & A3 & A4 & A5 & A6).
  set (st1 := ack_upto (loop_fuel N (base st)) N cum (base st) st) in *.
  destruct (slide_spec N Hsegs (loop_fuel N (base st1)) st1
              ltac:(lia) ltac:(unfold loop_fuel; lia))
    as (B1 & B2 & B3 & B4 & B5 & B6 & B7 & B8).
  set (st2 := slide (loop_fuel N (base st1)) N st1) in *.
  destruct (ack_bits_spec N cum mask Hn0 (seqZ 0 64) st2
              ltac:(apply Forall_seqZ; intros; lia) ltac:(congruence))
    as (C1 & C2 & C3 & C4 & C5 & C6).
  set (st3 := fold_left (ack_bit N cum mask) (seqZ 0 64) st2) in *.
  destruct (slide_spec N Hsegs (loop_fuel N (base st3)) st3
              ltac:(lia) ltac:(unfold loop_fuel; lia))
    as (D1 & D2 & D3 & D4 & D5 & D6 & D7 & D8).
  set (st4 := slide (loop_fuel N (base st3)) N st3) in *.
  assert (Hbits : forall k, 0 <= k ->
            flag (acked st4) k = true <->
            flag (acked st) k = true \/
            (base st <= k <= cum /\ k <= N) \/
            exists i, 0 <= i < 64 /\ Z.testbit mask i = true /\
                      k = u32 (cum + 1 + i) /\ k <= N).
  { intros k Hk. rewrite D1, C6 by exact Hk. rewrite B1, A6 by exact Hk.
    rewrite orb_true_iff, !andb_true_iff, !Z.leb_le.
    setoid_rewrite elem_of_seqZ. split.
    - intros [[H|((H1 & H2) & H3)]|(i & Hi & H)].
      + left; exact H.
      + right; left; lia.
      + right; right. exists i. split; [lia | exact H].
    - intros [H|[H|(i & Hi & H)]].
      + left; left; exact H.
      + left; right; lia.
      + right. exists i. split; [lia | exact H]. }
  cbv zeta. split_and!; try congruence; try lia.
  - exact Hbits.
  - split_and!; try lia.
    + intros k Hk. apply Hbits; [lia|].
      destruct (Z_lt_le_dec k (base st)) as [H1|H1]; [left; apply Hlow; lia|].
      destruct (Z_lt_le_dec k (base st2)) as [H2|H2].
      * assert (Hf : flag (acked st1) k = true) by (apply B7; lia).
        rewrite A6 in Hf by lia. apply orb_true_iff in Hf as [Hf|Hf]; [left; exact Hf|].
        rewrite !andb_true_iff, !Z.leb_le in Hf. right; left. lia.
      * assert (Hf : flag (acked st3) k = true) by (apply D7; lia).
        rewrite <- D1 in Hf. apply Hbits in Hf; [exact Hf | lia].
    + intros Hle. rewrite D1. apply D8. exact Hle.
Qed.

Lemma process_ack_inv cfg cum mask st :
  total_segs cfg + 1 < 2 ^ 32 -> inv cfg st -> inv cfg (process_ack cfg cum mask st).
Proof.
  intros Hsegs Hinv.
  destruct (process_ack_spec cfg cum mask st Hsegs Hinv) as (F1 & F2 & F3 & F4 & _ & F6 & _).
  destruct Hinv as (La & Ls & Lt & _ & Hnext & Hcnt & Hzero).
  unfold inv. rewrite F1, F2, F3, F4. auto 10.
Qed.

(** *** Receiving an ACK *)

Lemma rd_range bf off n :
  0 <= n -> 0 <= rd bf off n < 256 ^ n.
Proof.
  intros Hn. unfold rd. pose proof (be_combine_range (slice bf off n)) as Hr.
  assert (Hlen : Z.of_nat (length (slice bf off n)) <= n)
    by (unfold slice; rewrite length_take; lia).
  assert (256 ^ Z.of_nat (length (slice bf off n)) <= 256 ^ n)
    by (apply Z.pow_le_mono_r; lia).
  lia.
Qed.

(** [recv_ack] either leaves the state or runs the handler on a 32-bit [cum]. *)
Lemma recv_ack_cases cfg e st :
  recv_ack cfg e st = st \/
  exists cum mask, 0 <= cum < 2 ^ 32 /\ recv_ack cfg e st = process_ack cfg cum mask st.
Proof.
  unfold recv_ack. destruct (rx e) as [dg|]; [|left; reflexivity].
  destruct (recv_into (raw_buffer 128 (stack e)) 128 dg) as [abuf r].
  destruct (HDR <=? r); [|left; reflexivity].
  destruct ((hdr_type abuf =? PKT_ACK) && (hdr_len abuf =? ACK_LEN)); [|left; reflexivity].
  right. exists (rd abuf HDR 4), (rd abuf (HDR + 4) 8). split; [|reflexivity].
  apply (rd_range abuf HDR 4). lia.
Qed.

(** An ACK datagram that holds its 12 bytes of payload is decoded from the
    datagram. *)
Lemma recv_ack_whole cfg e st dg :
  rx e = Some dg -> HDR + ACK_LEN <= Z.of_nat (length dg) ->
  hdr_type dg = PKT_ACK -> hdr_len dg = ACK_LEN ->
  recv_ack cfg e st = process_ack cfg (rd dg HDR 4) (rd dg (HDR + 4) 8) st.
Proof.
  intros Hrx Hlen Hty Hl. unfold recv_ack. rewrite Hrx.
  assert (Hn : HDR + ACK_LEN <= snd (recv_into (raw_buffer 128 (stack e)) 128 dg)).
  { rewrite recv_into_count. unfold HDR, ACK_LEN in *. lia. }
  destruct (header_of_datagram (raw_buffer 128 (stack e)) 128 dg
              ltac:(unfold HDR, ACK_LEN in *; lia)) as (Ht & _ & Hle).
  pose proof (rd_recv_into (raw_buffer 128 (stack e)) 128 dg HDR 4
                ltac:(unfold HDR; lia) ltac:(lia) ltac:(unfold HDR, ACK_LEN in *; lia)) as Hc.
  pose proof (rd_recv_into (raw_buffer 128 (stack e)) 128 dg (HDR + 4) 8
                ltac:(unfold HDR; lia) ltac:(lia) ltac:(unfold HDR, ACK_LEN in *; lia)) as Hm.
  destruct (recv_into (raw_buffer 128 (stack e)) 128 dg) as [abuf r].
  cbn [fst snd] in *. rewrite Ht, Hle, Hty, Hl, Hc, Hm.
  replace (HDR <=? r) with true by (symmetry; apply Z.leb_le; unfold HDR, ACK_LEN in *; lia).
  reflexivity.
Qed.

Lemma recv_ack_short cfg e st dg :
  rx e = Some dg -> Z.of_nat (length dg) < HDR -> recv_ack cfg e st = st.
Proof.
  intros Hrx Hlen. unfold recv_ack. rewrite Hrx.
  pose proof (recv_into_count (raw_buffer 128 (stack e)) 128 dg) as Hn.
  destruct (recv_into (raw_buffer 128 (stack e)) 128 dg) as [abuf r].
  cbn [snd] in Hn.
  replace (HDR <=? r) with false by (symmetry; apply Z.leb_gt; lia).
  reflexivity.
Qed.

Lemma recv_ack_inv cfg e st :
  total_segs cfg + 1 < 2 ^ 32 -> inv cfg st -> inv cfg (recv_ack cfg e st).
Proof.
  intros Hsegs Hinv. destruct (recv_ack_cases cfg e st) as [->|(cum & mask & _ & ->)].
  - exact Hinv.
  - now apply process_ack_inv.
Qed.

Lemma recv_ack_frame cfg e st :
  total_segs cfg + 1 < 2 ^ 32 -> inv cfg st ->
  let st' := recv_ack cfg e st in
  sent_ts st' = sent_ts st /\ tx_cnt st' = tx_cnt st /\
  next_to_send st' = next_to_send st /\ base st <= base st' /\
  (forall k, flag (acked st) k = true -> flag (acked st') k = true).
Proof.
  intros Hsegs Hinv. cbv zeta.
  destruct (recv_ack_cases cfg e st) as [->|(cum & mask & _ & ->)].
  - split_and!; auto; lia.
  - destruct (process_ack_spec cfg cum mask st Hsegs Hinv)
      as (F1 & F2 & F3 & F4 & F5 & _ & F7).
    split_and!; auto. intros k Hk.
    destruct (Z_lt_le_dec k 0) as [Hneg|Hpos].
    + unfold flag, cell in *. replace (Z.to_nat k) with (Z.to_nat 0) in * by lia.
      apply (F5 0 ltac:(lia)). left. exact Hk.
    + apply F5; [exact Hpos | left; exact Hk].
Qed.

(** *** Transmissions and retransmissions *)

Lemma count_sent_inv cfg e st :
  total_segs cfg + 1 < 2 ^ 32 -> inv cfg st ->
  next_to_send st <= total_segs cfg ->
  inv cfg (set_next (if send_ok e (next_to_send st)
                     then count_sent e (next_to_send st) st else st)
                    (next_to_send st + 1)).
Proof.
  intros Hsegs (La & Ls & Lt & Hleast & Hnext & Hcnt & Hzero) Hle.
  destruct (send_ok e (next_to_send st)).
  - unfold inv. cbn. rewrite !length_insert.
    split_and!; try exact Hleast; try lia.
    + intros k. destruct (Nat.eq_dec (Z.to_nat k) (Z.to_nat (next_to_send st))) as [E|E].
      * unfold cell. rewrite E, list_lookup_insert_eq by lia. cbn.
        fold (cell 0 (tx_cnt st) (next_to_send st)).
        rewrite (Hzero (next_to_send st)) by lia. lia.
      * unfold cell. rewrite list_lookup_insert_ne by lia. apply Hcnt.
    + intros k Hk. rewrite cell_insert_ne by lia. apply Hzero. lia.
  - unfold inv. cbn. split_and!; try exact Hleast; try assumption; try lia.
    intros k Hk. apply Hzero. lia.
Qed.

Lemma tx_cnt_count_sent e s st k :
  0 <= cell 0 (tx_cnt st) s ->
  cell 0 (tx_cnt st) k <= cell 0 (tx_cnt (count_sent e s st)) k.
Proof.
  intros Hs. cbn [count_sent tx_cnt].
  destruct (Nat.eq_dec (Z.to_nat k) (Z.to_nat s)) as [E|E].
  - unfold cell in *. rewrite E. destruct (tx_cnt st !! Z.to_nat s) eqn:El.
    + rewrite list_lookup_insert_eq by (now apply lookup_lt_Some in El). cbn. lia.
    + rewrite list_insert_ge by (now apply lookup_ge_None in El). rewrite El. cbn. lia.
  - unfold cell. rewrite list_lookup_insert_ne by lia. lia.
Qed.

(** Step 1 keeps the invariant, touches neither [acked] nor [base], and only
    raises counters. *)
Lemma send_new_spec cfg e :
  total_segs cfg + 1 < 2 ^ 32 ->
  forall fuel st out,
    inv cfg st ->
    let st' := fst (send_new fuel cfg e st out) in
    inv cfg st' /\ acked st' = acked st /\ base st' = base st /\
    next_to_send st <= next_to_send st' /\
    (forall k, cell 0 (tx_cnt st) k <= cell 0 (tx_cnt st') k).
Proof.
  intros Hsegs fuel. induction fuel as [|fuel IH]; intros st out Hinv; cbn [send_new].
  - cbn. split_and!; auto; lia.
  - destruct ((next_to_send st <=? total_segs cfg)
              && (s32 (next_to_send st - base st) <? win cfg)) eqn:Hc.
    2:{ cbn. split_and!; auto; lia. }
    apply andb_true_iff in Hc as [Hle _]. apply Z.leb_le in Hle.
    pose proof Hinv as (_ & _ & _ & _ & Hnext & Hcnt & _).
    rewrite (u32_small (next_to_send st + 1)) by lia.
    pose proof (count_sent_inv cfg e st Hsegs Hinv Hle) as Hinv1.
    set (st1 := set_next _ _) in *.
    destruct (IH st1 (out ++ [data_pkt cfg (next_to_send st)]) Hinv1)
      as (G1 & G2 & G3 & G4 & G5).
    cbv zeta. split; [exact G1|].
    assert (Hsame : acked st1 = acked st /\ base st1 = base st /\
                    next_to_send st1 = next_to_send st + 1 /\
                    forall k, cell 0 (tx_cnt st) k <= cell 0 (tx_cnt st1) k).
    { subst st1. destruct (send_ok e (next_to_send st)); cbn.
      - split_and!; auto. intros k. apply (tx_cnt_count_sent e). apply Hcnt.
      - split_and!; auto. intros k. lia. }
    destruct Hsame as (S1 & S2 & S3 & S4).
    split_and!; try congruence; try lia.
    intros k. specialize (S4 k). specialize (G5 k). lia.
Qed.

Lemma count_resent_inv cfg t s st :
  inv cfg st -> 1 <= s -> s < next_to_send st ->
  cell 0 (tx_cnt st) s < retries cfg ->
  inv cfg (count_resent t s st).
Proof.
  intros (La & Ls & Lt & Hleast & Hnext & Hcnt & Hzero) Hs Hlt Hr.
  unfold inv. cbn. rewrite !length_insert.
  split_and!; try exact Hleast; try lia.
  - intros k. destruct (Nat.eq_dec (Z.to_nat k) (Z.to_nat s)) as [E|E].
    + unfold cell. rewrite E, list_lookup_insert_eq by lia. cbn.
      fold (cell 0 (tx_cnt st) s). specialize (Hcnt s). lia.
    + unfold cell. rewrite list_lookup_insert_ne by lia. apply Hcnt.
  - intros k Hk. rewrite cell_insert_ne by lia. apply Hzero. lia.
Qed.

Lemma tx_cnt_count_resent t s st k :
  0 <= cell 0 (tx_cnt st) s ->
  cell 0 (tx_cnt st) k <= cell 0 (tx_cnt (count_resent t s st)) k.
Proof.
  intros Hs. cbn [count_resent tx_cnt].
  destruct (Nat.eq_dec (Z.to_nat k) (Z.to_nat s)) as [E|E].
  - unfold cell in *. rewrite E. destruct (tx_cnt st !! Z.to_nat s) eqn:El.
    + rewrite list_lookup_insert_eq by (now apply lookup_lt_Some in El). cbn. lia.
    + rewrite list_insert_ge by (now apply lookup_ge_None in El). rewrite El. cbn. lia.
  - unfold cell. rewrite list_lookup_insert_ne by lia. lia.
Qed.

(** Step 3, when it does not exit, keeps the invariant, touches neither
    [acked] nor [base] nor [next_to_send], and only raises counters. *)
Lemma resend_spec cfg t :
  total_segs cfg + 1 < 2 ^ 32 ->
  forall fuel s st out st' out',
    inv cfg st -> 0 <= s ->
    resend fuel cfg t s st out = Next st' out' ->
    inv cfg st' /\ acked st' = acked st /\ base st' = base st /\
    next_to_send st' = next_to_send st /\
    (forall k, cell 0 (tx_cnt st) k <= cell 0 (tx_cnt st') k).
Proof.
  intros Hsegs fuel. induction fuel as [|fuel IH]; intros s st out st' out' Hinv Hs H;
    cbn [resend] in H.
  - injection H as <- _. split_and!; auto. intros; lia.
  - destruct (s <? next_to_send st) eqn:Hlt.
    2:{ injection H as <- _. split_and!; auto. intros; lia. }
    apply Z.ltb_lt in Hlt.
    pose proof Hinv as (_ & _ & _ & _ & Hnext & Hcnt & _).
    rewrite (u32_small (s + 1)) in H by lia.
    destruct ((s =? 0) || (total_segs cfg <? s)) eqn:Hrange;
      [apply (IH (s + 1) st out st' out' Hinv ltac:(lia) H)|].
    apply orb_false_iff in Hrange as [H0 H1].
    apply Z.eqb_neq in H0. apply Z.ltb_ge in H1.
    destruct (flag (acked st) s); [apply (IH (s + 1) st out st' out' Hinv ltac:(lia) H)|].
    destruct (retries cfg <=? cell 0 (tx_cnt st) s) eqn:Hr; [discriminate|].
    apply Z.leb_gt in Hr.
    destruct (timed_out cfg t st s);
      [|apply (IH (s + 1) st out st' out' Hinv ltac:(lia) H)].
    pose proof (count_resent_inv cfg t s st Hinv ltac:(lia) Hlt Hr) as Hinv1.
    destruct (IH (s + 1) (count_resent t s st) _ st' out' Hinv1 ltac:(lia) H)
      as (G1 & G2 & G3 & G4 & G5).
    split_and!; auto.
    intros k. specialize (G5 k).
    pose proof (tx_cnt_count_resent t s st k ltac:(apply Hcnt)). lia.
Qed.

(** *** Enough fuel: more turns change nothing *)

Lemma send_new_S fuel cfg e st out :
  send_new (S fuel) cfg e st out
  = if (next_to_send st <=? total_segs cfg) && (s32 (next_to_send st - base st) <? win cfg)
    then send_new fuel cfg e
           (set_next (if send_ok e (next_to_send st)
                      then count_sent e (next_to_send st) st else st)
                     (u32 (next_to_send st + 1)))
           (out ++ [data_pkt cfg (next_to_send st)])
    else (st, out).
Proof. reflexivity. Qed.

Lemma send_new_fuel cfg e :
  total_segs cfg + 1 < 2 ^ 32 ->
  forall fuel st out,
    0 <= next_to_send st ->
    (loop_fuel (total_segs cfg) (next_to_send st) <= fuel)%nat ->
    send_new (S fuel) cfg e st out = send_new fuel cfg e st out.
Proof.
  intros Hsegs fuel. unfold loop_fuel.
  induction fuel as [|fuel IH]; intros st out Hn Hfuel.
  - rewrite send_new_S.
    replace (next_to_send st <=? total_segs cfg) with false
      by (symmetry; apply Z.leb_gt; lia).
    reflexivity.
  - rewrite (send_new_S (S fuel) cfg e st out), (send_new_S fuel cfg e st out).
    destruct (next_to_send st <=? total_segs cfg) eqn:Hle; [|reflexivity].
    apply Z.leb_le in Hle. cbn [andb].
    destruct (s32 (next_to_send st - base st) <? win cfg); [|reflexivity].
    apply IH; cbn [set_next next_to_send]; rewrite (u32_small (next_to_send st + 1)) by lia; lia.
Qed.

Lemma resend_S fuel cfg t s st out :
  resend (S fuel) cfg t s st out
  = if s <? next_to_send st then
      if (s =? 0) || (total_segs cfg <? s) then resend fuel cfg t (u32 (s + 1)) st out
      else if flag (acked st) s then resend fuel cfg t (u32 (s + 1)) st out
      else if retries cfg <=? cell 0 (tx_cnt st) s then Exit 1 out
      else if timed_out cfg t st s then
        resend fuel cfg t (u32 (s + 1)) (count_resent t s st) (out ++ [data_pkt cfg s])
      else resend fuel cfg t (u32 (s + 1)) st out
    else Next st out.
Proof. reflexivity. Qed.

Lemma resend_fuel cfg t :
  forall fuel s st out,
    0 <= s -> next_to_send st < 2 ^ 32 ->
    (Z.to_nat (next_to_send st - s) <= fuel)%nat ->
    resend (S fuel) cfg t s st out = resend fuel cfg t s st out.
Proof.
  intros fuel. induction fuel as [|fuel IH]; intros s st out Hs Hn Hfuel.
  - rewrite resend_S.
    replace (s <? next_to_send st) with false by (symmetry; apply Z.ltb_ge; lia).
    reflexivity.
  - rewrite (resend_S (S fuel) cfg t s st out), (resend_S fuel cfg t s st out).
    destruct (s <? next_to_send st) eqn:Hlt; [|reflexivity].
    apply Z.ltb_lt in Hlt. rewrite (u32_small (s + 1)) by lia.
    repeat match goal with
           | |- context [if ?b then _ else _] => destruct b
           end;
      try reflexivity; apply IH; cbn [count_resent next_to_send]; lia.
Qed.

Lemma ack_upto_fuel segs cum :
  segs + 1 < 2 ^ 32 ->
  forall fuel s st,
    0 <= s -> (loop_fuel segs s <= fuel)%nat ->
    ack_upto (S fuel) segs cum s st = ack_upto fuel segs cum s st.
Proof.
  intros Hsegs fuel. unfold loop_fuel.
  induction fuel as [|fuel IH]; intros s st Hs Hfuel.
  - cbn [ack_upto].
    replace (s <=? segs) with false by (symmetry; apply Z.leb_gt; lia).
    now rewrite andb_false_r.
  - change (ack_upto (S (S fuel)) segs cum s st)
      with (if (s <=? cum) && (s <=? segs)
            then ack_upto (S fuel) segs cum (u32 (s + 1)) (mark s st) else st).
    change (ack_upto (S fuel) segs cum s st)
      with (if (s <=? cum) && (s <=? segs)
            then ack_upto fuel segs cum (u32 (s + 1)) (mark s st) else st).
    destruct ((s <=? cum) && (s <=? segs)) eqn:Hc; [|reflexivity].
    apply andb_true_iff in Hc as [_ Hle]. apply Z.leb_le in Hle.
    rewrite (u32_small (s + 1)) by lia. apply IH; lia.
Qed.

Lemma slide_fuel segs :
  segs + 1 < 2 ^ 32 ->
  forall fuel st,
    0 <= base st -> (loop_fuel segs (base st) <= fuel)%nat ->
    slide (S fuel) segs st = slide fuel segs st.
Proof.
  intros Hsegs fuel. unfold loop_fuel.
  induction fuel as [|fuel IH]; intros st Hb Hfuel.
  - cbn [slide].
    replace (base st <=? segs) with false by (symmetry; apply Z.leb_gt; lia).
    reflexivity.
  - change (slide (S (S fuel)) segs st)
      with (if (base st <=? segs) && flag (acked st) (base st)
            then slide (S fuel) segs (set_base st (u32 (base st + 1))) else st).
    change (slide (S fuel) segs st)
      with (if (base st <=? segs) && flag (acked st) (base st)
            then slide fuel segs (set_base st (u32 (base st + 1))) else st).
    destruct ((base st <=? segs) && flag (acked st) (base st)) eqn:Hc; [|reflexivity].
    apply andb_true_iff in Hc as [Hle _]. apply Z.leb_le in Hle.
    apply IH; cbn [set_base base]; rewrite (u32_small (base st + 1)) by lia; lia.
Qed.

(** *** The main loop *)

Lemma sender_init_inv cfg : total_segs cfg + 1 < 2 ^ 32 -> inv cfg (init cfg).
Proof.
  intros Hsegs. pose proof (total_segs_nonneg cfg) as Hn.
  unfold inv, least_unacked, init. cbn. rewrite !length_replicate.
  split_and!; try reflexivity; try lia.
  - intros _. apply flag_replicate_false.
  - intros k. rewrite cell_replicate. lia.
  - intros k _. apply cell_replicate.
Qed.

Lemma iteration_spec cfg e st st' out :
  total_segs cfg + 1 < 2 ^ 32 -> inv cfg st ->
  iteration cfg e st = Next st' out ->
  inv cfg st' /\ base st <= base st' /\
  (forall k, flag (acked st) k = true -> flag (acked st') k = true) /\
  (forall k, cell 0 (tx_cnt st) k <= cell 0 (tx_cnt st') k).
Proof.
  intros Hsegs Hinv H. unfold iteration in H.
  pose proof (send_new_spec cfg e Hsegs (loop_fuel (total_segs cfg) (next_to_send st))
                            st [] Hinv) as Hs1.
  destruct (send_new (loop_fuel (total_segs cfg) (next_to_send st)) cfg e st [])
    as [st1 out1].
  cbn [fst] in Hs1. destruct Hs1 as (I1 & A1 & B1 & N1 & T1).
  pose proof (recv_ack_inv cfg e st1 Hsegs I1) as I2.
  destruct (recv_ack_frame cfg e st1 Hsegs I1) as (_ & T2 & _ & B2 & A2).
  set (st2 := recv_ack cfg e st1) in *.
  pose proof I2 as (_ & _ & _ & (Hb & _) & _).
  destruct (resend_spec cfg (now_s (now e)) Hsegs _ (base st2) st2 out1 st' out I2 ltac:(lia) H)
    as (I3 & A3 & B3 & _ & T3).
  split; [exact I3|]. split; [lia|]. split.
  - intros k Hk. rewrite A3. apply A2. rewrite A1. exact Hk.
  - intros k. specialize (T1 k). specialize (T3 k). rewrite T2 in T3. lia.
Qed.

Lemma bulk_spec cfg :
  total_segs cfg + 1 < 2 ^ 32 ->
  forall envs st st',
    inv cfg st -> reached (bulk cfg envs st) = Some st' ->
    inv cfg st' /\ base st <= base st' /\
    (forall k, flag (acked st) k = true -> flag (acked st') k = true) /\
    (forall k, cell 0 (tx_cnt st) k <= cell 0 (tx_cnt st') k).
Proof.
  intros Hsegs envs. induction envs as [|e envs IH]; intros st st' Hinv H; cbn [bulk] in H.
  - destruct (base st <=? total_segs cfg); injection H as <-;
      (split_and!; auto; try lia; intros; lia).
  - destruct (base st <=? total_segs cfg).
    2:{ injection H as <-. split_and!; auto; try lia; intros; lia. }
    destruct (iteration cfg e st) as [st1 o1|c o1] eqn:Hit; [|discriminate].
    destruct (iteration_spec cfg e st st1 o1 Hsegs Hinv Hit) as (I1 & B1 & A1 & T1).
    assert (H' : reached (bulk cfg envs st1) = Some st')
      by (destruct (bulk cfg envs st1); exact H).
    destruct (IH st1 st' I1 H') as (I2 & B2 & A2 & T2).
    split_and!; auto; try lia.
    intros k. specialize (T1 k). specialize (T2 k). lia.
Qed.

(** *** The ACK handler and [base] *)

(** C3.  When the sender handles an ACK datagram that holds its 12 bytes of
    payload [(cum, mask)]: [acked[s]] holds afterwards for every [s] in
    [base, min (cum, N)] and for every [s = cum + 1 + i <= N] with bit [i] of
    [mask] set; no other bit of [acked[1 .. N]] changes; [base] is then the
    least [k] with [acked[k]] clear, or [N + 1]; and [base] never decreases,
    over the handler and over any number of iterations of the main loop. *)
Theorem ack_marks_and_slides (cfg : config) (e : env) (dg : list Byte.byte)
        (st : state) :
  total_segs cfg + 1 < 2 ^ 32 -> inv cfg st ->
  rx e = Some dg -> HDR + ACK_LEN <= Z.of_nat (length dg) ->
  hdr_type dg = PKT_ACK -> hdr_len dg = ACK_LEN ->
  let cum := rd dg HDR 4 in
  let mask := rd dg (HDR + 4) 8 in
  let st' := recv_ack cfg e st in
  (forall s, cum_acks cfg st cum s -> flag (acked st') s = true) /\
  (forall s, sack_acks cfg cum mask s -> flag (acked st') s = true) /\
  (forall k, 1 <= k <= total_segs cfg ->
             ~ cum_acks cfg st cum k -> ~ sack_acks cfg cum mask k ->
             flag (acked st') k = flag (acked st) k) /\
  least_unacked cfg st' /\
  base st <= base st' /\
  (forall envs st2, reached (bulk cfg envs st) = Some st2 ->
                    base st <= base st2 /\ least_unacked cfg st2).
Proof.
  intros Hsegs Hinv Hrx Hlen Hty Hl cum mask st'.
  subst st'. rewrite (recv_ack_whole cfg e st dg Hrx Hlen Hty Hl). fold cum mask.
  assert (Hcum : 0 <= cum < 2 ^ 32) by (apply (rd_range dg HDR 4); lia).
  destruct (process_ack_spec cfg cum mask st Hsegs Hinv)
    as (_ & _ & _ & _ & Hbits & Hleast & Hmono).
  pose proof Hinv as (_ & _ & _ & (Hb & Hlow & _) & _).
  pose proof (total_segs_nonneg cfg) as Hn0.
  split_and!.
  - intros s [Hs1 Hs2]. apply Hbits; [lia|]. right; left. lia.
  - intros s (i & Hi & Hbit & -> & Hle). apply Hbits; [lia|]. right; right.
    exists i. rewrite (u32_small (cum + 1 + i)) by lia. auto.
  - intros k Hk Hnc Hns.
    destruct (flag (acked (process_ack cfg cum mask st)) k) eqn:Hf.
    + apply Hbits in Hf; [|lia]. destruct Hf as [Hf|[Hf|(i & Hi & Hbit & Hki & Hle)]].
      * now rewrite Hf.
      * exfalso. apply Hnc. unfold cum_acks. lia.
      * destruct (Z_lt_le_dec (cum + 1 + i) (2 ^ 32)) as [Hsmall|Hwrap].
        -- exfalso. apply Hns. exists i. rewrite (u32_small (cum + 1 + i)) in Hki by lia. auto.
        -- assert (Hk' : k = cum + 1 + i - 2 ^ 32).
           { rewrite Hki. unfold u32. symmetry. apply (Z.mod_unique _ _ 1); lia. }
           destruct (Z_lt_le_dec k (base st)) as [Hlt|Hge].
           ++ symmetry. apply Hlow. lia.
           ++ exfalso. apply Hnc. unfold cum_acks. lia.
    + destruct (flag (acked st) k) eqn:Hf0; [|reflexivity].
      assert (Hf1 : flag (acked (process_ack cfg cum mask st)) k = true)
        by (apply Hbits; [lia | left; exact Hf0]).
      congruence.
  - exact Hleast.
  - exact Hmono.
  - intros envs st2 Hreach.
    destruct (bulk_spec cfg Hsegs envs st st2 Hinv Hreach) as ((_ & _ & _ & Hl2 & _) & Hb2 & _).
    split; assumption.
Qed.

Lemma ack_marks_and_slides_witness :
  let cfg := Scenario.cfg0 in
  let e := Scenario.env_ack 1 2 in
  let dg := Scenario.ack0 1 2 in
  let st := init cfg in
  (total_segs cfg + 1 < 2 ^ 32 /\ inv cfg st /\ rx e = Some dg /\
   HDR + ACK_LEN <= Z.of_nat (length dg) /\ hdr_type dg = PKT_ACK /\
   hdr_len dg = ACK_LEN /\ cum_acks cfg st (rd dg HDR 4) 1 /\
   sack_acks cfg (rd dg HDR 4) (rd dg (HDR + 4) 8) 3 /\
   1 <= 2 <= total_segs cfg /\ ~ cum_acks cfg st (rd dg HDR 4) 2 /\
   ~ sack_acks cfg (rd dg HDR 4) (rd dg (HDR + 4) 8) 2 /\
   reached (bulk cfg [] st) = Some st) /\
  flag (acked (recv_ack cfg e st)) 1 = true /\
  flag (acked (recv_ack cfg e st)) 3 = true /\
  flag (acked (recv_ack cfg e st)) 2 = flag (acked st) 2 /\
  least_unacked cfg (recv_ack cfg e st) /\
  base st <= base (recv_ack cfg e st) /\
  base st <= base st.
Proof.
  intros cfg e dg st.
  assert (Hc : rd dg HDR 4 = 1) by (vm_compute; reflexivity).
  assert (Hm : rd dg (HDR + 4) 8 = 2) by (vm_compute; reflexivity).
  assert (H1 : total_segs cfg + 1 < 2 ^ 32) by (vm_compute; reflexivity).
  assert (H2 : inv cfg st) by (apply sender_init_inv; exact H1).
  assert (H3 : rx e = Some dg) by reflexivity.
  assert (H4 : HDR + ACK_LEN <= Z.of_nat (length dg)) by (vm_compute; discriminate).
  assert (H5 : hdr_type dg = PKT_ACK) by (vm_compute; reflexivity).
  assert (H6 : hdr_len dg = ACK_LEN) by (vm_compute; reflexivity).
  assert (H7 : cum_acks cfg st (rd dg HDR 4) 1) by (vm_compute; split; discriminate).
  assert (H8 : sack_acks cfg (rd dg HDR 4) (rd dg (HDR + 4) 8) 3).
  { exists 1. vm_compute. split_and!; try reflexivity; discriminate. }
  assert (H9 : 1 <= 2 <= total_segs cfg) by (vm_compute; split; discriminate).
  assert (H10 : ~ cum_acks cfg st (rd dg HDR 4) 2).
  { rewrite Hc. unfold cum_acks. vm_compute. intros [_ Hle]. apply Hle. reflexivity. }
  assert (H11 : ~ sack_acks cfg (rd dg HDR 4) (rd dg (HDR + 4) 8) 2).
  { rewrite Hc, Hm. intros (i & Hi & Hbit & Hk & _).
    assert (i = 0) by lia. subst i. vm_compute in Hbit. discriminate. }
  assert (H12 : reached (bulk cfg [] st) = Some st) by (vm_compute; reflexivity).
  split; [auto 20|].
  destruct (ack_marks_and_slides cfg e dg st H1 H2 H3 H4 H5 H6)
    as (Ha & Hb & Hothers & Hleast & Hmono & Hrun).
  split; [exact (Ha 1 H7)|]. split; [exact (Hb 3 H8)|].
  split; [exact (Hothers 2 H9 H10 H11)|].
  split; [exact Hleast|]. split; [exact Hmono|].
  exact (proj1 (Hrun [] st H12)).
Defined.

(** *** Transmission counts *)

Lemma resend_exit_code cfg t : forall fuel s st out c out',
  resend fuel cfg t s st out = Exit c out' -> c = 1.
Proof.
  intros fuel. induction fuel as [|fuel IH]; intros s st out c out' H; cbn [resend] in H.
  - discriminate.
  - repeat match type of H with
           | context [if ?b then _ else _] => destruct b
           end;
      try discriminate; try (eapply IH; exact H).
    now injection H as <- _.
Qed.

Lemma iteration_exit_code cfg e st c out : iteration cfg e st = Exit c out -> c = 1.
Proof.
  unfold iteration.
  destruct (send_new (loop_fuel (total_segs cfg) (next_to_send st)) cfg e st []) as [st1 o1].
  apply resend_exit_code.
Qed.

(** The scan stops at the first unacknowledged segment that has used up its
    retries, having resent only segments before it. *)
Lemma resend_exhausted cfg t s :
  total_segs cfg + 1 < 2 ^ 32 ->
  forall fuel s0 st out0,
    inv cfg st -> 0 <= s0 <= s -> s < next_to_send st ->
    1 <= s <= total_segs cfg ->
    flag (acked st) s = false -> retries cfg <= cell 0 (tx_cnt st) s ->
    (Z.to_nat (next_to_send st - s0) <= fuel)%nat ->
    exists rs,
      resend fuel cfg t s0 st out0 = Exit 1 (out0 ++ rs) /\
      forall q off len, In (TxData q off len) rs -> s0 <= q < s.
Proof.
  intros Hsegs fuel. induction fuel as [|fuel IH];
    intros s0 st out0 Hinv Hs0 Hlt Hs Hf Hr Hfuel; [lia|].
  cbn [resend]. replace (s0 <? next_to_send st) with true by (symmetry; apply Z.ltb_lt; lia).
  pose proof Hinv as (_ & _ & Lt & _ & Hnext & Hcnt & _).
  rewrite (u32_small (s0 + 1)) by lia.
  assert (Hskip : s0 < s -> forall out1,
            exists rs, resend fuel cfg t (s0 + 1) st out1 = Exit 1 (out1 ++ rs) /\
                       forall q off len, In (TxData q off len) rs -> s0 <= q < s).
  { intros Hne out1.
    destruct (IH (s0 + 1) st out1 Hinv ltac:(lia) Hlt Hs Hf Hr ltac:(lia)) as (rs & E & Hin).
    exists rs. split; [exact E|]. intros q off len Hq. specialize (Hin q off len Hq). lia. }
  destruct (Z.eq_dec s0 s) as [->|Hne].
  - replace ((s =? 0) || (total_segs cfg <? s)) with false
      by (symmetry; apply orb_false_iff; split; [apply Z.eqb_neq | apply Z.ltb_ge]; lia).
    rewrite Hf. replace (retries cfg <=? cell 0 (tx_cnt st) s) with true
      by (symmetry; apply Z.leb_le; lia).
    exists []. rewrite app_nil_r. split; [reflexivity | intros q off len []].
  - destruct ((s0 =? 0) || (total_segs cfg <? s0)) eqn:Hrange; [apply Hskip; lia|].
    apply orb_false_iff in Hrange as [H0 H1].
    apply Z.eqb_neq in H0. apply Z.ltb_ge in H1.
    destruct (flag (acked st) s0); [apply Hskip; lia|].
    destruct (retries cfg <=? cell 0 (tx_cnt st) s0) eqn:Hr0.
    { exists []. rewrite app_nil_r. split; [reflexivity | intros q off len []]. }
    apply Z.leb_gt in Hr0.
    destruct (timed_out cfg t st s0); [|apply Hskip; lia].
    pose proof (count_resent_inv cfg t s0 st Hinv ltac:(lia) ltac:(lia) Hr0) as Hinv1.
    destruct (IH (s0 + 1) (count_resent t s0 st) (out0 ++ [data_pkt cfg s0]) Hinv1
                 ltac:(lia) Hlt Hs Hf
                 ltac:(cbn [count_resent tx_cnt]; rewrite cell_insert_ne by lia; exact Hr)
                 ltac:(cbn [count_resent next_to_send]; lia))
      as (rs & E & Hin).
    exists (data_pkt cfg s0 :: rs). split.
    + rewrite E. now rewrite <- app_assoc.
    + intros q off len [Hq|Hq].
      * unfold data_pkt in Hq. injection Hq as <- _ _. lia.
      * specialize (Hin q off len Hq). lia.
Qed.

(** The loop ends only with every segment acknowledged. *)
Lemma bulk_completed_base cfg : forall envs st st' out,
  bulk cfg envs st = Completed st' out -> total_segs cfg < base st'.
Proof.
  intros envs. induction envs as [|e envs IH]; intros s0 st' out H; cbn [bulk] in H.
  - destruct (base s0 <=? total_segs cfg) eqn:Hle; [discriminate|].
    injection H as <- _. now apply Z.leb_gt in Hle.
  - destruct (base s0 <=? total_segs cfg) eqn:Hle.
    + destruct (iteration cfg e s0) as [s1 o1|c o1]; [|discriminate].
      destruct (bulk cfg envs s1) as [s2 o2|c o2|s2 o2] eqn:Hb; try discriminate.
      cbn [emit] in H. injection H as <- _. apply (IH s1 s2 o2). exact Hb.
    + injection H as <- _. now apply Z.leb_gt in Hle.
Qed.

(** A new segment that [sendmsg] took has been counted. *)
Lemma send_new_launched cfg e :
  total_segs cfg + 1 < 2 ^ 32 ->
  forall fuel st out,
    inv cfg st ->
    (forall k, k ∈ data_seqs out -> send_ok e k = true -> 1 <= cell 0 (tx_cnt st) k) ->
    forall k, k ∈ data_seqs (snd (send_new fuel cfg e st out)) -> send_ok e k = true ->
              1 <= cell 0 (tx_cnt (fst (send_new fuel cfg e st out))) k.
Proof.
  intros Hsegs fuel. induction fuel as [|fuel IH]; intros st out Hinv Hout; cbn [send_new].
  - exact Hout.
  - destruct ((next_to_send st <=? total_segs cfg)
              && (s32 (next_to_send st - base st) <? win cfg)) eqn:Hc; [|exact Hout].
    apply andb_true_iff in Hc as [Hle _]. apply Z.leb_le in Hle.
    pose proof Hinv as (_ & _ & Lt & _ & Hnext & Hcnt & _).
    rewrite (u32_small (next_to_send st + 1)) by lia.
    apply IH; [now apply count_sent_inv|].
    intros k Hk Hok. unfold data_seqs in Hk. rewrite omap_app, elem_of_app in Hk.
    cbn [set_next tx_cnt]. destruct Hk as [Hk|Hk].
    + specialize (Hout k Hk Hok).
      destruct (send_ok e (next_to_send st)); [|exact Hout].
      pose proof (tx_cnt_count_sent e (next_to_send st) st k ltac:(apply Hcnt)). lia.
    + cbn in Hk. apply list_elem_of_singleton in Hk. subst k. rewrite Hok.
      cbn [count_sent tx_cnt]. unfold cell at 1.
      rewrite list_lookup_insert_eq by lia. cbn.
      specialize (Hcnt (next_to_send st)). lia.
Qed.

(** The scan adds its packets after those of step 1, and every segment it
    sends again has been counted. *)
Lemma resend_relaunched cfg t :
  total_segs cfg + 1 < 2 ^ 32 ->
  forall fuel s st out st' out',
    inv cfg st -> 0 <= s ->
    resend fuel cfg t s st out = Next st' out' ->
    exists rs, out' = out ++ rs /\
               forall k, k ∈ data_seqs rs -> 1 <= cell 0 (tx_cnt st') k.
Proof.
  intros Hsegs fuel. induction fuel as [|fuel IH]; intros s st out st' out' Hinv Hs H;
    cbn [resend] in H.
  - injection H as <- <-. exists []. rewrite app_nil_r. split; [reflexivity|].
    intros k Hk. cbn in Hk. now apply elem_of_nil in Hk.
  - destruct (s <? next_to_send st) eqn:Hlt.
    2:{ injection H as <- <-. exists []. rewrite app_nil_r. split; [reflexivity|].
        intros k Hk. cbn in Hk. now apply elem_of_nil in Hk. }
    apply Z.ltb_lt in Hlt.
    pose proof Hinv as (_ & _ & Lt & _ & Hnext & Hcnt & _).
    rewrite (u32_small (s + 1)) in H by lia.
    destruct ((s =? 0) || (total_segs cfg <? s)) eqn:Hrange;
      [apply (IH (s + 1) st out st' out' Hinv ltac:(lia) H)|].
    apply orb_false_iff in Hrange as [H0 H1].
    apply Z.eqb_neq in H0. apply Z.ltb_ge in H1.
    destruct (flag (acked st) s); [apply (IH (s + 1) st out st' out' Hinv ltac:(lia) H)|].
    destruct (retries cfg <=? cell 0 (tx_cnt st) s) eqn:Hr; [discriminate|].
    apply Z.leb_gt in Hr.
    destruct (timed_out cfg t st s);
      [|apply (IH (s + 1) st out st' out' Hinv ltac:(lia) H)].
    pose proof (count_resent_inv cfg t s st Hinv ltac:(lia) Hlt Hr) as Hinv1.
    destruct (IH (s + 1) (count_resent t s st) _ st' out' Hinv1 ltac:(lia) H)
      as (rs & -> & Hrs).
    destruct (resend_spec cfg t Hsegs fuel (s + 1) (count_resent t s st) _ st' _
                          Hinv1 ltac:(lia) H) as (_ & _ & _ & _ & Hup).
    exists (data_pkt cfg s :: rs). split; [now rewrite <- app_assoc|].
    intros k Hk. cbn in Hk. apply elem_of_cons in Hk as [->|Hk]; [|now apply Hrs].
    specialize (Hup s). cbn [count_resent tx_cnt] in Hup. unfold cell at 1 in Hup.
    rewrite list_lookup_insert_eq in Hup by lia. cbn in Hup.
    specialize (Hcnt s). lia.
Qed.

(** Whatever an iteration puts on the wire has been counted when it ends. *)
Lemma iteration_wire cfg e st st' out :
  total_segs cfg + 1 < 2 ^ 32 -> inv cfg st ->
  iteration cfg e st = Next st' out ->
  forall k, k ∈ launched cfg e st ++ relaunched cfg e st -> 1 <= cell 0 (tx_cnt st') k.
Proof.
  intros Hsegs Hinv Hit k Hk. unfold launched, relaunched in Hk. rewrite Hit in Hk.
  unfold iteration in Hit.
  pose proof (send_new_spec cfg e Hsegs (loop_fuel (total_segs cfg) (next_to_send st))
                            st [] Hinv) as Hs1.
  pose proof (send_new_launched cfg e Hsegs (loop_fuel (total_segs cfg) (next_to_send st))
                                st [] Hinv) as Hl.
  destruct (send_new (loop_fuel (total_segs cfg) (next_to_send st)) cfg e st [])
    as [st1 out1].
  cbn [fst snd] in Hs1, Hl, Hk. destruct Hs1 as (I1 & _).
  pose proof (recv_ack_inv cfg e st1 Hsegs I1) as I2.
  destruct (recv_ack_frame cfg e st1 Hsegs I1) as (_ & T2 & _).
  set (st2 := recv_ack cfg e st1) in *.
  pose proof I2 as (_ & _ & _ & (Hb & _) & _).
  destruct (resend_spec cfg (now_s (now e)) Hsegs _ (base st2) st2 out1 st' out
                        I2 ltac:(lia) Hit) as (_ & _ & _ & _ & T3).
  destruct (resend_relaunched cfg (now_s (now e)) Hsegs _ (base st2) st2 out1 st' out
                              I2 ltac:(lia) Hit) as (rs & -> & Hrs).
  rewrite drop_app_length in Hk. apply elem_of_app in Hk as [Hk|Hk].
  - apply list_elem_of_filter in Hk as [Hok Hk].
    assert (1 <= cell 0 (tx_cnt st1) k).
    { apply Hl; [|exact Hk|exact Hok]. intros j Hj. cbn in Hj. now apply elem_of_nil in Hj. }
    specialize (T3 k). rewrite T2 in T3. lia.
  - now apply Hrs.
Qed.

(** When every datagram acknowledges only what has been transmitted, every
    segment acknowledged has been counted. *)
Lemma honest_counts cfg :
  total_segs cfg + 1 < 2 ^ 32 ->
  forall envs st wire st',
    inv cfg st -> honest cfg envs st wire ->
    (forall k, k ∈ wire -> 1 <= cell 0 (tx_cnt st) k) ->
    (forall k, 1 <= k <= total_segs cfg -> flag (acked st) k = true -> k ∈ wire) ->
    reached (bulk cfg envs st) = Some st' ->
    forall k, 1 <= k <= total_segs cfg -> flag (acked st') k = true ->
              1 <= cell 0 (tx_cnt st') k.
Proof.
  intros Hsegs envs. induction envs as [|e envs IH];
    intros st wire st' Hinv Hh Hw Ha H; cbn [bulk] in H.
  - destruct (base st <=? total_segs cfg); injection H as <-; intros k Hk Hf; auto.
  - destruct (base st <=? total_segs cfg) eqn:Hb;
      [|injection H as <-; intros k Hk Hf; auto].
    apply Z.leb_le in Hb.
    cbn [honest] in Hh. specialize (Hh Hb). cbv zeta in Hh. destruct Hh as [Hcov Hh].
    destruct (iteration cfg e st) as [st3 o3|c o3] eqn:Hit; [|discriminate].
    assert (H' : reached (bulk cfg envs st3) = Some st')
      by (destruct (bulk cfg envs st3); exact H).
    destruct (iteration_spec cfg e st st3 o3 Hsegs Hinv Hit) as (I3 & _ & _ & T).
    pose proof (iteration_wire cfg e st st3 o3 Hsegs Hinv Hit) as Hnew.
    apply (IH st3 ((wire ++ launched cfg e st) ++ relaunched cfg e st) st' I3 Hh); [| |exact H'].
    + intros k Hk. rewrite <- app_assoc in Hk. apply elem_of_app in Hk as [Hk|Hk].
      * specialize (Hw k Hk). specialize (T k). lia.
      * now apply Hnew.
    + clear IH H H' Hh Hnew. unfold iteration in Hit.
      pose proof (send_new_spec cfg e Hsegs (loop_fuel (total_segs cfg) (next_to_send st))
                                st [] Hinv) as Hs1.
      destruct (send_new (loop_fuel (total_segs cfg) (next_to_send st)) cfg e st [])
        as [st1 out1].
      cbn [fst] in Hs1, Hcov. destruct Hs1 as (I1 & A1 & _).
      pose proof (recv_ack_inv cfg e st1 Hsegs I1) as I2.
      set (st2 := recv_ack cfg e st1) in *.
      pose proof I2 as (_ & _ & _ & (Hb2 & _) & _).
      destruct (resend_spec cfg (now_s (now e)) Hsegs _ (base st2) st2 out1 st3 o3
                            I2 ltac:(lia) Hit) as (_ & A3 & _).
      intros k Hk Hf. rewrite A3 in Hf. apply elem_of_app. left.
      destruct (Hcov k Hk Hf) as [Hk1|Hk1]; [|exact Hk1].
      rewrite A1 in Hk1. apply elem_of_app. left. now apply Ha.
Qed.

(** C7 (as amended).  For an input of [N] segments with [N + 1] below
    [2^32]: in every run of the main loop [tx_count[k]] never exceeds
    [max (R, 1)]; when the loop ends and END is due, every [k] in [1, N] is
    acknowledged, and [tx_count[k] >= 1] for every such [k] if every datagram
    received acknowledged only segments transmitted before it arrived (new
    segments that [sendmsg] took, and segments sent again by the scan); and
    when the scan meets an unacknowledged segment [s] in [base, next_to_send)
    with [tx_count[s] >= R], the sender exits with status 1, having sent again
    in that scan only segments before [s]. *)
Theorem tx_count_bounded (cfg : config) :
  total_segs cfg + 1 < 2 ^ 32 ->
  (forall envs st k,
     reached (bulk cfg envs (init cfg)) = Some st ->
     cell 0 (tx_cnt st) k <= Z.max (retries cfg) 1) /\
  (forall envs st out k,
     bulk cfg envs (init cfg) = Completed st out ->
     1 <= k <= total_segs cfg ->
     flag (acked st) k = true /\
     (honest cfg envs (init cfg) [] -> 1 <= cell 0 (tx_cnt st) k)) /\
  (forall st t s out0,
     inv cfg st -> base st <= s < next_to_send st -> 1 <= s <= total_segs cfg ->
     flag (acked st) s = false -> retries cfg <= cell 0 (tx_cnt st) s ->
     exists rs,
       resend (Z.to_nat (next_to_send st - base st)) cfg t (base st) st out0
       = Exit 1 (out0 ++ rs) /\
       forall q off len, In (TxData q off len) rs -> q < s) /\
  (forall e st c out, iteration cfg e st = Exit c out -> c = 1).
Proof.
  intros Hsegs. pose proof (sender_init_inv cfg Hsegs) as Hinit. split_and!.
  - intros envs st k H.
    destruct (bulk_spec cfg Hsegs envs (init cfg) st Hinit H) as ((_ & _ & _ & _ & _ & Hcnt & _) & _).
    apply Hcnt.
  - intros envs st out k H Hk.
    assert (Hr : reached (bulk cfg envs (init cfg)) = Some st) by (now rewrite H).
    destruct (bulk_spec cfg Hsegs envs (init cfg) st Hinit Hr) as (Hinv & _).
    pose proof (bulk_completed_base cfg envs (init cfg) st out H) as Hdone.
    destruct Hinv as (_ & _ & _ & (_ & Hlow & _) & _).
    assert (Hack : flag (acked st) k = true) by (apply Hlow; lia).
    split; [exact Hack|]. intros Hh.
    apply (honest_counts cfg Hsegs envs (init cfg) [] st Hinit Hh); auto.
    + intros j Hj. now apply elem_of_nil in Hj.
    + intros j _ Hj. unfold init in Hj. cbn [acked] in Hj.
      rewrite flag_replicate_false in Hj. discriminate.
  - intros st t s out0 Hinv Hs Hrange Hf Hr.
    pose proof Hinv as (_ & _ & _ & (Hb & _) & _).
    destruct (resend_exhausted cfg t s Hsegs (Z.to_nat (next_to_send st - base st))
                (base st) st out0 Hinv ltac:(lia) ltac:(lia) Hrange Hf Hr ltac:(lia))
      as (rs & E & Hin).
    exists rs. split; [exact E|]. intros q off len Hq. specialize (Hin q off len Hq). lia.
  - intros e st c out. apply iteration_exit_code.
Qed.

(** In a transfer of three segments answered by one ACK for all three, the
    ACK acknowledges what the first iteration has just sent. *)
Lemma honest_clean_transfer :
  honest Scenario.cfg0 [Scenario.env_ack 3 0] (init Scenario.cfg0) [].
Proof.
  cbn [honest]. intros _. cbv zeta. split.
  - intros k Hk _. right.
    assert (Hl : launched Scenario.cfg0 (Scenario.env_ack 3 0) (init Scenario.cfg0) = [1; 2; 3])
      by (vm_compute; reflexivity).
    rewrite Hl. cbn [app].
    assert (Hn : total_segs Scenario.cfg0 = 3) by (vm_compute; reflexivity).
    rewrite Hn in Hk.
    assert (Hcases : k = 1 \/ k = 2 \/ k = 3) by lia.
    destruct Hcases as [-> | [-> | ->]]; repeat constructor.
  - vm_compute. exact I.
Qed.

Lemma tx_count_bounded_witness :
  let cfg := Scenario.cfg0 in
  let cfg' := Scenario.cfg_two_tries in
  let envs := [Scenario.env_ack 3 0] in
  let st := mkState [false; true; true; true] (map now_s [0; 5; 5; 5]) [0; 1; 1; 1] 4 4 0 in
  let out := [TxData 1 0 541; TxData 2 541 541; TxData 3 1082 100] in
  let st1 := mkState [false; false; false; false] (map now_s [0; 500000005; 500000005; 500000005])
                     [0; 2; 2; 2] 1 4 3 in
  (total_segs cfg + 1 < 2 ^ 32 /\ total_segs cfg' + 1 < 2 ^ 32 /\
   reached (bulk cfg envs (init cfg)) = Some st /\
   honest cfg envs (init cfg) [] /\ bulk cfg envs (init cfg) = Completed st out /\
   1 <= 2 <= total_segs cfg /\
   reached (bulk cfg' [Scenario.env_silent; Scenario.env_late] (init cfg')) = Some st1 /\
   inv cfg' st1 /\ base st1 <= 1 < next_to_send st1 /\ 1 <= 1 <= total_segs cfg' /\
   flag (acked st1) 1 = false /\ 1 <= retries cfg' <= cell 0 (tx_cnt st1) 1 /\
   iteration cfg' Scenario.env_silent st1 = Exit 1 []) /\
  cell 0 (tx_cnt st) 2 <= Z.max (retries cfg) 1 /\
  flag (acked st) 2 = true /\
  1 <= cell 0 (tx_cnt st) 2 /\
  (exists rs,
     resend (Z.to_nat (next_to_send st1 - base st1)) cfg' (now_s 7) (base st1) st1 []
     = Exit 1 ([] ++ rs) /\
     forall q off len, In (TxData q off len) rs -> q < 1) /\
  1 = 1.
Proof.
  intros cfg cfg' envs st out st1.
  assert (H1 : total_segs cfg + 1 < 2 ^ 32) by (vm_compute; reflexivity).
  assert (H1' : total_segs cfg' + 1 < 2 ^ 32) by (vm_compute; reflexivity).
  assert (H2 : reached (bulk cfg envs (init cfg)) = Some st) by (vm_compute; reflexivity).
  assert (H3 : honest cfg envs (init cfg) []) by exact honest_clean_transfer.
  assert (H4 : bulk cfg envs (init cfg) = Completed st out) by (vm_compute; reflexivity).
  assert (H5 : 1 <= 2 <= total_segs cfg) by (vm_compute; split; discriminate).
  assert (H6 : reached (bulk cfg' [Scenario.env_silent; Scenario.env_late] (init cfg')) = Some st1)
    by (vm_compute; reflexivity).
  assert (H7 : inv cfg' st1).
  { exact (proj1 (bulk_spec cfg' H1' [Scenario.env_silent; Scenario.env_late] (init cfg') st1
                            (sender_init_inv cfg' H1') H6)). }
  assert (H8 : base st1 <= 1 < next_to_send st1) by (vm_compute; split; [discriminate | reflexivity]).
  assert (H9 : 1 <= 1 <= total_segs cfg') by (vm_compute; split; discriminate).
  assert (H10 : flag (acked st1) 1 = false) by (vm_compute; reflexivity).
  assert (H11 : 1 <= retries cfg' <= cell 0 (tx_cnt st1) 1) by (vm_compute; split; discriminate).
  assert (H12 : iteration cfg' Scenario.env_silent st1 = Exit 1 [])
    by (vm_compute; reflexivity).
  split; [repeat (split; [assumption|]); assumption|].
  destruct (tx_count_bounded cfg H1) as (Ha & Hb & _ & _).
  destruct (tx_count_bounded cfg' H1') as (_ & _ & Hc & Hd).
  split; [exact (Ha envs st 2 H2)|].
  split; [exact (proj1 (Hb envs st out 2 H4 H5))|].
  split; [exact (proj2 (Hb envs st out 2 H4 H5) H3)|].
  split; [exact (Hc st1 (now_s 7) 1 [] H7 H8 H9 H10 (proj2 H11))|].
  exact (Hd Scenario.env_silent st1 1 [] H12).
Defined.

(** C7, as stated, fails in two ways.  With [--retries 0] the first
    transmission of a segment already puts [tx_count] above [R].  And an ACK
    may acknowledge segments that have not been sent: with six segments and a
    window of four, an ACK with [cum_ack = 6] in the first iteration ends the
    loop with segments 5 and 6 never transmitted. *)
Lemma tx_count_above_retries_or_zero_at_end :
  (let cfg := Scenario.cfg_no_retry in
   let st := mkState [false; true; true; true] (map now_s [0; 5; 5; 5]) [0; 1; 1; 1] 4 4 0 in
   reached (bulk cfg [Scenario.env_ack 3 0] (init cfg)) = Some st /\
   retries cfg = 0 /\ cell 0 (tx_cnt st) 1 = 1 /\ retries cfg < cell 0 (tx_cnt st) 1) /\
  (let cfg := Scenario.cfg6 in
   let st := mkState [false; true; true; true; true; true; true]
                     (map now_s [0; 5; 5; 5; 5; 0; 0]) [0; 1; 1; 1; 1; 0; 0] 7 5 0 in
   bulk cfg [Scenario.env_ack 6 0] (init cfg)
   = Completed st [TxData 1 0 541; TxData 2 541 541; TxData 3 1082 541; TxData 4 1623 541] /\
   total_segs cfg = 6 /\ 1 <= retries cfg /\
   cell 0 (tx_cnt st) 5 = 0 /\ cell 0 (tx_cnt st) 6 = 0).
Proof.
  vm_compute. split_and!; try reflexivity; discriminate.
Qed.

(** *** Handling the same ACK again *)

Lemma ack_upto_id fuel segs cum s st :
  cum < s \/ segs < s -> ack_upto fuel segs cum s st = st.
Proof.
  intros H. destruct fuel as [|fuel]; [reflexivity|]. cbn [ack_upto].
  replace ((s <=? cum) && (s <=? segs)) with false; [reflexivity|].
  symmetry. apply andb_false_iff. destruct H; [left | right]; apply Z.leb_gt; lia.
Qed.

Lemma slide_id fuel segs st :
  (base st <= segs -> flag (acked st) (base st) = false) -> slide fuel segs st = st.
Proof.
  intros H. destruct fuel as [|fuel]; [reflexivity|]. cbn [slide].
  destruct (base st <=? segs) eqn:Hle; [|reflexivity].
  apply Z.leb_le in Hle. rewrite (H Hle). reflexivity.
Qed.

Lemma fold_left_id {A B} (f : A -> B -> A) (l : list B) (a : A) :
  (forall b, b ∈ l -> f a b = a) -> fold_left f l a = a.
Proof.
  induction l as [|b l IH]; intros H; [reflexivity|]. cbn [fold_left].
  rewrite (H b) by apply list_elem_of_here. apply IH.
  intros b' Hb'. apply H. now apply list_elem_of_further.
Qed.

(** A state in which the ACK [(cum, mask)] has nothing left to do. *)
Lemma process_ack_absorbed cfg cum mask st :
  Z.min cum (total_segs cfg) < base st ->
  (base st <= total_segs cfg -> flag (acked st) (base st) = false) ->
  (forall i, 0 <= i < 64 -> Z.testbit mask i = true ->
             u32 (cum + 1 + i) <= total_segs cfg ->
             flag (acked st) (u32 (cum + 1 + i)) = true) ->
  process_ack cfg cum mask st = st.
Proof.
  intros Hcum Hstop Hmask. unfold process_ack.
  rewrite ack_upto_id by lia.
  rewrite (slide_id _ _ st Hstop).
  rewrite fold_left_id.
  - apply slide_id. exact Hstop.
  - intros i Hi. apply elem_of_seqZ in Hi. unfold ack_bit.
    rewrite land_bit_test by lia.
    destruct (Z.testbit mask i) eqn:Hbit; [|reflexivity].
    destruct (u32 (cum + 1 + i) <=? total_segs cfg) eqn:Hle; [|reflexivity].
    apply Z.leb_le in Hle. rewrite (Hmask i ltac:(lia) Hbit Hle). reflexivity.
Qed.

(** Handling an ACK a second time changes nothing, whatever the sender did
    in between. *)
Lemma process_ack_again cfg cum mask st st2 :
  total_segs cfg + 1 < 2 ^ 32 -> inv cfg st ->
  inv cfg st2 ->
  base (process_ack cfg cum mask st) <= base st2 ->
  (forall k, flag (acked (process_ack cfg cum mask st)) k = true ->
             flag (acked st2) k = true) ->
  process_ack cfg cum mask st2 = st2.
Proof.
  intros Hsegs Hinv Hinv2 Hbase Hacked.
  destruct (process_ack_spec cfg cum mask st Hsegs Hinv)
    as (_ & _ & _ & _ & Hbits & (Hb1 & Hlow1 & Hstop1) & Hmono).
  destruct Hinv2 as (_ & _ & _ & (Hb2 & Hlow2 & Hstop2) & _).
  apply process_ack_absorbed.
  - destruct (Z_lt_le_dec (Z.min cum (total_segs cfg)) (base (process_ack cfg cum mask st)))
      as [Hlt|Hge]; [lia|].
    assert (Hf : flag (acked (process_ack cfg cum mask st))
                      (base (process_ack cfg cum mask st)) = true).
    { apply Hbits; [lia|]. right; left. lia. }
    rewrite Hstop1 in Hf by lia. discriminate.
  - exact Hstop2.
  - intros i Hi Hbit Hle. apply Hacked. pose proof (u32_range (cum + 1 + i)).
    apply Hbits; [lia|]. right; right. exists i. auto.
Qed.

End SenderFacts.

(** ** Both ends: malformed and repeated datagrams *)

Module ProtocolFacts.
Import Wire WireFacts.

(** C4.  A DATA packet for a segment whose [have] bit is set leaves the
    bitmap, [cum_ack] and the output file (indeed the whole session) as they
    are and is answered by exactly one ACK; and an ACK [(cum, mask)] handled a
    second time, at once or in any later state of the loop, leaves [acked],
    [tx_cnt], [sent_ts] and [base] (indeed the whole state) as they are. *)
Theorem duplicates_change_nothing :
  (forall P st from dg,
     0 <= P -> Receiver.reachable P st ->
     HDR <= Z.of_nat (length dg) -> hdr_type dg = PKT_DATA ->
     flag (Receiver.have st) (hdr_seq dg) = true ->
     exists st',
       Receiver.iter P (Receiver.Datagram from dg) st
       = Receiver.Cont st' [Receiver.mkAck from (Receiver.cum_ack st) (Receiver.sack_of st)] /\
       Receiver.have st' = Receiver.have st /\
       Receiver.cum_ack st' = Receiver.cum_ack st /\
       Receiver.fm st' = Receiver.fm st /\
       Receiver.session st' = Receiver.session st) /\
  (forall cfg cum mask st,
     Sender.total_segs cfg + 1 < 2 ^ 32 -> Sender.inv cfg st ->
     let st1 := Sender.process_ack cfg cum mask st in
     Sender.process_ack cfg cum mask st1 = st1 /\
     (forall st2,
        Sender.inv cfg st2 -> Sender.base st1 <= Sender.base st2 ->
        (forall k, flag (Sender.acked st1) k = true -> flag (Sender.acked st2) k = true) ->
        Sender.process_ack cfg cum mask st2 = st2) /\
     (forall envs st2,
        Sender.reached (Sender.bulk cfg envs st1) = Some st2 ->
        Sender.process_ack cfg cum mask st2 = st2)).
Proof.
  split.
  - intros P st from dg HP Hreach Hlen Hty Hdup.
    pose proof (ReceiverFacts.reachable_inv P st Hreach) as Hinv.
    assert (Hs : Receiver.started st = true).
    { destruct (Receiver.started st) eqn:E; [reflexivity|].
      destruct Hinv as (_ & _ & _ & _ & Hns & _). destruct (Hns E) as [Hnil _].
      rewrite Hnil in Hdup. discriminate. }
    destruct (ReceiverFacts.duplicate_data_acked P st from dg HP Hinv Hs Hlen Hty Hdup)
      as (st' & Hit & Hsess).
    exists st'. split; [exact Hit|].
    pose proof Hsess as Hfields. unfold Receiver.session in Hfields.
    inversion Hfields. split_and!; auto.
  - intros cfg cum mask st Hsegs Hinv st1.
    pose proof (SenderFacts.process_ack_inv cfg cum mask st Hsegs Hinv) as Hinv1.
    assert (Hlater : forall st2,
               Sender.inv cfg st2 -> Sender.base st1 <= Sender.base st2 ->
               (forall k, flag (Sender.acked st1) k = true -> flag (Sender.acked st2) k = true) ->
               Sender.process_ack cfg cum mask st2 = st2).
    { intros st2 Hinv2 Hb Ha.
      exact (SenderFacts.process_ack_again cfg cum mask st st2 Hsegs Hinv Hinv2 Hb Ha). }
    split_and!.
    + apply Hlater; [exact Hinv1 | lia | auto].
    + exact Hlater.
    + intros envs st2 Hreach.
      destruct (SenderFacts.bulk_spec cfg Hsegs envs st1 st2 Hinv1 Hreach) as (I2 & B2 & A2 & _).
      apply Hlater; assumption.
Qed.

Lemma duplicates_change_nothing_witness :
  let st := Scenario.after [Receiver.Datagram 1 Scenario.start0;
                            Receiver.Datagram 1 (Scenario.data0 3)] in
  let dg := Scenario.data0 3 in
  let cfg := Scenario.cfg0 in
  (0 <= Scenario.P0 /\ Receiver.reachable Scenario.P0 st /\
   HDR <= Z.of_nat (length dg) /\ hdr_type dg = PKT_DATA /\
   flag (Receiver.have st) (hdr_seq dg) = true /\
   Sender.total_segs cfg + 1 < 2 ^ 32 /\ Sender.inv cfg (Sender.init cfg) /\
   Sender.reached (Sender.bulk cfg [Scenario.env_silent]
                               (Sender.process_ack cfg 1 2 (Sender.init cfg)))
   = Some (Sender.mkState [false; true; false; true] (map now_s [0; 5; 5; 5]) [0; 1; 1; 1] 2 4 3)) /\
  (exists st',
     Receiver.iter Scenario.P0 (Receiver.Datagram 1 dg) st
     = Receiver.Cont st' [Receiver.mkAck 1 (Receiver.cum_ack st) (Receiver.sack_of st)] /\
     Receiver.session st' = Receiver.session st) /\
  Sender.process_ack cfg 1 2 (Sender.process_ack cfg 1 2 (Sender.init cfg))
  = Sender.process_ack cfg 1 2 (Sender.init cfg) /\
  Sender.process_ack cfg 1 2
    (Sender.mkState [false; true; false; true] (map now_s [0; 5; 5; 5]) [0; 1; 1; 1] 2 4 3)
  = Sender.mkState [false; true; false; true] (map now_s [0; 5; 5; 5]) [0; 1; 1; 1] 2 4 3.
Proof.
  intros st dg cfg.
  assert (H0 : 0 <= Scenario.P0) by (vm_compute; discriminate).
  assert (H1 : Receiver.reachable Scenario.P0 st).
  { exists [], [Receiver.Datagram 1 Scenario.start0; Receiver.Datagram 1 (Scenario.data0 3)],
           [Receiver.mkAck 1 0 0; Receiver.mkAck 1 0 4].
    vm_compute. reflexivity. }
  assert (H2 : HDR <= Z.of_nat (length dg)) by (vm_compute; discriminate).
  assert (H3 : hdr_type dg = PKT_DATA) by (vm_compute; reflexivity).
  assert (H4 : flag (Receiver.have st) (hdr_seq dg) = true) by (vm_compute; reflexivity).
  assert (H5 : Sender.total_segs cfg + 1 < 2 ^ 32) by (vm_compute; reflexivity).
  assert (H6 : Sender.inv cfg (Sender.init cfg)) by (apply SenderFacts.sender_init_inv; exact H5).
  assert (H7 : Sender.reached (Sender.bulk cfg [Scenario.env_silent]
                                           (Sender.process_ack cfg 1 2 (Sender.init cfg)))
               = Some (Sender.mkState [false; true; false; true] (map now_s [0; 5; 5; 5]) [0; 1; 1; 1]
                                      2 4 3))
    by (vm_compute; reflexivity).
  split; [auto 10|].
  destruct duplicates_change_nothing as [Hrx Htx].
  split.
  - destruct (Hrx Scenario.P0 st 1 dg H0 H1 H2 H3 H4) as (st' & Hit & _ & _ & _ & Hs).
    exists st'. split; assumption.
  - destruct (Htx cfg 1 2 (Sender.init cfg) H5 H6) as (Hnow & _ & Hlater).
    split; [exact Hnow | exact (Hlater [Scenario.env_silent] _ H7)].
Defined.

(** C1 (as amended).  A datagram shorter than the 7-byte header is rejected
    by both programs: the receiver's session and the sender's state are
    unchanged and nothing is sent in answer, and in the START and END
    exchanges it does not count as an ACK.  A datagram that holds its header
    and the [len] bytes announced is read from its own bytes: the receiver
    stores bytes [7 .. 7 + len) of the datagram (a DATA packet that passes its
    checks and whose range lies in the file), and the sender takes [cum_ack]
    and [sack_mask] from bytes [7 .. 19) of the datagram. *)
Theorem short_datagrams_rejected :
  (forall P st from dg,
     Z.of_nat (length dg) < HDR ->
     exists st',
       Receiver.iter P (Receiver.Datagram from dg) st = Receiver.Cont st' [] /\
       Receiver.session st' = Receiver.session st) /\
  (forall cfg e st dg,
     Sender.rx e = Some dg -> Z.of_nat (length dg) < HDR ->
     Sender.recv_ack cfg e st = st) /\
  (forall dg junk,
     Z.of_nat (length dg) < HDR -> Sender.is_ack (Some dg, junk) = false) /\
  (forall P st from dg,
     0 <= P < 2 ^ 31 -> Receiver.reachable P st -> Receiver.started st = true ->
     hdr_type dg = PKT_DATA ->
     1 <= hdr_seq dg <= Receiver.total_segs st ->
     flag (Receiver.have st) (hdr_seq dg) = false ->
     hdr_len dg <= P ->
     HDR + hdr_len dg <= Z.of_nat (length dg) ->
     (hdr_seq dg - 1) * P + hdr_len dg <= Z.of_nat (length (Receiver.fm st)) ->
     exists st' out,
       Receiver.iter P (Receiver.Datagram from dg) st = Receiver.Cont st' out /\
       Receiver.fm st'
       = Receiver.memcpy_at (Receiver.fm st) ((hdr_seq dg - 1) * P)
                            (slice dg HDR (hdr_len dg))) /\
  (forall cfg e st dg,
     Sender.rx e = Some dg -> HDR + ACK_LEN <= Z.of_nat (length dg) ->
     hdr_type dg = PKT_ACK -> hdr_len dg = ACK_LEN ->
     Sender.recv_ack cfg e st
     = Sender.process_ack cfg (rd dg HDR 4) (rd dg (HDR + 4) 8) st).
Proof.
  split_and!.
  - intros P st from dg Hlen. now apply ReceiverFacts.short_datagram_dropped.
  - intros cfg e st dg Hrx Hlen. now apply (SenderFacts.recv_ack_short cfg e st dg).
  - intros dg junk Hlen. unfold Sender.is_ack. cbn [fst snd].
    pose proof (recv_into_count (raw_buffer 64 junk) 64 dg) as Hn.
    destruct (recv_into (raw_buffer 64 junk) 64 dg) as [abuf n]. cbn [snd] in Hn.
    replace (HDR <=? n) with false by (symmetry; apply Z.leb_gt; lia).
    reflexivity.
  - intros P st from dg HP Hreach Hs Hty Hseq Hfresh Hlen Hfit Hin.
    pose proof (ReceiverFacts.reachable_inv P st Hreach) as Hinv.
    pose proof (ReceiverFacts.fresh_data_stored P st from dg Hinv HP Hs Hty Hseq Hfresh Hlen
                                                Hfit) as Hst.
    cbv zeta in Hst. destruct Hst as (Hit & Hfm & _).
    eexists. eexists. split; [exact Hit | exact Hfm].
  - intros cfg e st dg Hrx Hlen Hty Hl. now apply SenderFacts.recv_ack_whole.
Qed.

Lemma short_datagrams_rejected_witness :
  let st := Scenario.after [Receiver.Datagram 1 Scenario.start0] in
  let short := [Byte.x01; Byte.x00; Byte.x00] in
  let e := Sender.mkEnv (fun _ => true) (fun _ => 5) (Some short) [] 7 in
  let dg := Scenario.data0 2 in
  (Z.of_nat (length short) < HDR /\ Sender.rx e = Some short /\
   0 <= Scenario.P0 < 2 ^ 31 /\ Receiver.reachable Scenario.P0 st /\
   Receiver.started st = true /\ hdr_type dg = PKT_DATA /\
   1 <= hdr_seq dg <= Receiver.total_segs st /\
   flag (Receiver.have st) (hdr_seq dg) = false /\ hdr_len dg <= Scenario.P0 /\
   HDR + hdr_len dg <= Z.of_nat (length dg) /\
   (hdr_seq dg - 1) * Scenario.P0 + hdr_len dg <= Z.of_nat (length (Receiver.fm st)) /\
   Sender.rx (Scenario.env_ack 3 0) = Some (Scenario.ack0 3 0) /\
   HDR + ACK_LEN <= Z.of_nat (length (Scenario.ack0 3 0)) /\
   hdr_type (Scenario.ack0 3 0) = PKT_ACK /\ hdr_len (Scenario.ack0 3 0) = ACK_LEN) /\
  (exists st',
     Receiver.iter Scenario.P0 (Receiver.Datagram 1 short) st = Receiver.Cont st' [] /\
     Receiver.session st' = Receiver.session st) /\
  Sender.recv_ack Scenario.cfg0 e (Sender.init Scenario.cfg0) = Sender.init Scenario.cfg0 /\
  Sender.is_ack (Some short, []) = false /\
  (exists st' out,
     Receiver.iter Scenario.P0 (Receiver.Datagram 1 dg) st = Receiver.Cont st' out /\
     Receiver.fm st'
     = Receiver.memcpy_at (Receiver.fm st) ((hdr_seq dg - 1) * Scenario.P0)
                          (slice dg HDR (hdr_len dg))) /\
  Sender.recv_ack Scenario.cfg0 (Scenario.env_ack 3 0) (Sender.init Scenario.cfg0)
  = Sender.process_ack Scenario.cfg0 (rd (Scenario.ack0 3 0) HDR 4)
                       (rd (Scenario.ack0 3 0) (HDR + 4) 8) (Sender.init Scenario.cfg0).
Proof.
  intros st short e dg.
  assert (H1 : Z.of_nat (length short) < HDR) by (vm_compute; reflexivity).
  assert (H2 : Sender.rx e = Some short) by reflexivity.
  assert (H3 : 0 <= Scenario.P0 < 2 ^ 31) by (vm_compute; split; [discriminate | reflexivity]).
  assert (H4 : Receiver.reachable Scenario.P0 st).
  { exists [], [Receiver.Datagram 1 Scenario.start0], [Receiver.mkAck 1 0 0].
    vm_compute. reflexivity. }
  assert (H5 : Receiver.started st = true) by (vm_compute; reflexivity).
  assert (H6 : hdr_type dg = PKT_DATA) by (vm_compute; reflexivity).
  assert (H7 : 1 <= hdr_seq dg <= Receiver.total_segs st) by (vm_compute; split; discriminate).
  assert (H8 : flag (Receiver.have st) (hdr_seq dg) = false) by (vm_compute; reflexivity).
  assert (H9 : hdr_len dg <= Scenario.P0) by (vm_compute; discriminate).
  assert (H10 : HDR + hdr_len dg <= Z.of_nat (length dg)) by (vm_compute; discriminate).
  assert (H10' : (hdr_seq dg - 1) * Scenario.P0 + hdr_len dg
                 <= Z.of_nat (length (Receiver.fm st))) by (vm_compute; discriminate).
  assert (H11 : Sender.rx (Scenario.env_ack 3 0) = Some (Scenario.ack0 3 0)) by reflexivity.
  assert (H12 : HDR + ACK_LEN <= Z.of_nat (length (Scenario.ack0 3 0)))
    by (vm_compute; discriminate).
  assert (H13 : hdr_type (Scenario.ack0 3 0) = PKT_ACK) by (vm_compute; reflexivity).
  assert (H14 : hdr_len (Scenario.ack0 3 0) = ACK_LEN) by (vm_compute; reflexivity).
  split; [auto 20|].
  destruct short_datagrams_rejected as (Ha & Hb & Hc & Hd & He).
  split; [exact (Ha Scenario.P0 st 1 short H1)|].
  split; [exact (Hb Scenario.cfg0 e (Sender.init Scenario.cfg0) short H2 H1)|].
  split; [exact (Hc short [] H1)|].
  split; [exact (Hd Scenario.P0 st 1 dg H3 H4 H5 H6 H7 H8 H9 H10 H10')|].
  exact (He Scenario.cfg0 (Scenario.env_ack 3 0) (Sender.init Scenario.cfg0)
            (Scenario.ack0 3 0) H11 H12 H13 H14).
Defined.

(** C1, as stated, fails for a datagram that holds its header but not the
    payload the header announces.  The receiver, holding segment 1, gets 7
    bytes: a DATA header for segment 2 with [len = 541]; it copies the 541
    bytes left in its buffer by segment 1 into the file at offset 541, sets
    [have[2]] and acknowledges up to 2.  The sender gets 7 bytes: an ACK
    header with [len = 12]; it reads [cum_ack = 3] from what its buffer held
    and takes all three segments as acknowledged. *)
Lemma truncated_datagram_is_processed :
  (let st := Scenario.after [Receiver.Datagram 1 Scenario.start0;
                             Receiver.Datagram 1 (Scenario.data0 1)] in
   let dg := mk_hdr PKT_DATA 2 541 in
   let st' := Scenario.after [Receiver.Datagram 1 Scenario.start0;
                              Receiver.Datagram 1 (Scenario.data0 1);
                              Receiver.Datagram 1 dg] in
   Z.of_nat (length dg) = 7 /\ Z.of_nat (length dg) < HDR + hdr_len dg /\
   Receiver.sent (Receiver.iter Scenario.P0 (Receiver.Datagram 1 dg) st)
   = [Receiver.mkAck 1 2 0] /\
   Receiver.fm st !! 541%nat = Some Byte.x00 /\
   Receiver.fm st' !! 541%nat = Some Byte.x41 /\
   flag (Receiver.have st) 2 = false /\ flag (Receiver.have st') 2 = true /\
   Receiver.cum_ack st = 1 /\ Receiver.cum_ack st' = 2) /\
  (let cfg := Scenario.cfg0 in
   let dg := mk_hdr PKT_ACK 0 ACK_LEN in
   Sender.rx Scenario.env_stale = Some dg /\
   Z.of_nat (length dg) = 7 /\ Z.of_nat (length dg) < HDR + hdr_len dg /\
   Sender.base (Sender.init cfg) = 1 /\
   Sender.base (Sender.recv_ack cfg Scenario.env_stale (Sender.init cfg)) = 4 /\
   Sender.recv_ack cfg Scenario.env_stale (Sender.init cfg) <> Sender.init cfg).
Proof.
  vm_compute. split_and!; try reflexivity; discriminate.
Qed.

(** An ACK the receiver sends is handled by the sender with the receiver's
    [cum_ack] and mask. *)
Lemma ack_delivered P rst from dg rst' out a cfg e st :
  Receiver.reachable P rst ->
  Receiver.iter P (Receiver.Datagram from dg) rst = Receiver.Cont rst' out ->
  In a out ->
  Sender.rx e = Some (Receiver.ack_bytes a) ->
  Sender.recv_ack cfg e st
  = Sender.process_ack cfg (Receiver.ack_cum a) (Receiver.ack_mask a) st.
Proof.
  intros Hreach Hit Hin Hrx.
  pose proof (ReceiverFacts.iter_inv P _ _ _ _ (ReceiverFacts.reachable_inv P rst Hreach) Hit)
    as (_ & Hc & Hn & _).
  destruct (ReceiverFacts.iter_acks P from dg rst rst' out a Hit Hin) as (_ & Hcum & _ & Hmask).
  assert (Hm : 0 <= Receiver.ack_mask a < 2 ^ 64).
  { destruct Hmask as [[_ ->]|[_ ->]]; [lia | apply ReceiverFacts.sack_of_range]. }
  destruct (ReceiverFacts.ack_bytes_decoded a ltac:(lia) Hm) as (Hlen & Hty & Hl & Hrc & Hrm).
  rewrite (SenderFacts.recv_ack_whole cfg e st (Receiver.ack_bytes a) Hrx ltac:(lia) Hty Hl).
  now rewrite Hrc, Hrm.
Qed.

End ProtocolFacts.

(** ** The end-to-end scenarios of the specification, run on the model *)

Module SpecScenarios.
Import Wire Scenario.

(** Clean transfer: two DATA packets, one END, and the output file equals
    the input; the sender's inputs are the receiver's ACKs. *)
Example clean_transfer :
  let replies := [Receiver.mkAck 9 0 0; Receiver.mkAck 9 1 0;
                  Receiver.mkAck 9 2 0; Receiver.mkAck 9 2 0] in
  let sent := [Sender.TxStart 1500; Sender.TxData 1 0 1465;
               Sender.TxData 2 1465 35; Sender.TxEnd 3] in
  Sender.main cfg1
              [(Some (Receiver.ack_bytes (Receiver.mkAck 9 0 0)), [])]
              [env_rx (Receiver.ack_bytes (Receiver.mkAck 9 1 0));
               env_rx (Receiver.ack_bytes (Receiver.mkAck 9 2 0))]
              [(Some (Receiver.ack_bytes (Receiver.mkAck 9 2 0)), [])]
  = (Some 0, sent) /\
  exists st,
    Receiver.run P1 (arrivals file1 9 sent) (Receiver.init P1 []) = Some (st, replies) /\
    Receiver.fm st = file1 /\ Receiver.finished st = true /\ Receiver.exit_code st = 0.
Proof.
  cbv zeta. split; [vm_compute; reflexivity|].
  eexists. split_and!; [vm_compute; reflexivity | vm_compute; reflexivity ..].
Qed.

(** Single-segment loss: segment 2 of four arrives last. *)
Example single_segment_loss :
  acks_of 4 [1; 3; 4; 2]
  = [Receiver.mkAck 9 0 0; Receiver.mkAck 9 1 0; Receiver.mkAck 9 1 2;
     Receiver.mkAck 9 1 6; Receiver.mkAck 9 4 0].
Proof. vm_compute. reflexivity. Qed.

(** Reordering: three segments delivered in the order 3, 1, 2. *)
Example reordering :
  acks_of 3 [3; 1; 2]
  = [Receiver.mkAck 9 0 0; Receiver.mkAck 9 0 4; Receiver.mkAck 9 1 2;
     Receiver.mkAck 9 3 0].
Proof. vm_compute. reflexivity. Qed.

(** The sender resends a segment once the timeout has passed, and not before. *)
Example retransmit_after_rto :
  let cfg := cfg_of 4 in
  let e0 := Sender.mkEnv (fun _ => true) (fun _ => 0) (Some (ack0 1 0)) [] 1000 in
  let e1 := Sender.mkEnv (fun _ => true) (fun _ => 0) (Some (ack0 1 6)) [] 400000000 in
  exists st,
    Sender.bulk cfg [e0; e1] (Sender.init cfg)
    = Sender.Pending st [Sender.TxData 1 0 541; Sender.TxData 2 541 541;
                         Sender.TxData 3 1082 541; Sender.TxData 4 1623 541;
                         Sender.TxData 2 541 541] /\
    Sender.base st = 2 /\ Sender.tx_cnt st = [0; 1; 2; 1; 1].
Proof. eexists. split_and!; vm_compute; reflexivity. Qed.

(** Retry exhaustion: a silent destination gets START [R] times, then exit 1. *)
Example retry_exhaustion :
  Sender.main (cfg_of 1) (replicate 50 (None, [])) [] []
  = (Some 1, replicate 50 (Sender.TxStart 541)).
Proof. vm_compute. reflexivity. Qed.

(** END-ACK race: the first answer to END is lost, the second arrives. *)
Example end_ack_race :
  Sender.main (cfg_of 1) [(Some (ack0 0 0), [])] [env_rx (ack0 1 0)]
              [(None, []); (Some (ack0 1 0), [])]
  = (Some 0, [Sender.TxStart 541; Sender.TxData 1 0 541; Sender.TxEnd 2; Sender.TxEnd 2]).
Proof. vm_compute. reflexivity. Qed.

(** An overlong last segment: the file has room for 100 bytes of segment 3
    and the packet carries 541.  The receiver stores what lies in the file,
    acknowledges the segment, finishes on END and reports the size mismatch. *)
Example overlong_last_segment :
  let evs := [Receiver.Datagram 9 start0; Receiver.Datagram 9 overlong0;
              Receiver.Datagram 9 (data0 1); Receiver.Datagram 9 (data0 2);
              Receiver.Datagram 9 end0] in
  acks evs = [Receiver.mkAck 9 0 0; Receiver.mkAck 9 0 4; Receiver.mkAck 9 1 2;
              Receiver.mkAck 9 3 0; Receiver.mkAck 9 3 0] /\
  Receiver.fm (after evs)
  = replicate 541 Byte.x41 ++ replicate 541 Byte.x42 ++ replicate 100 Byte.x44 /\
  Receiver.finished (after evs) = true /\
  Receiver.received (after evs) = 1623 /\ Receiver.exit_code (after evs) = 1.
Proof. vm_compute. split_and!; reflexivity. Qed.

(** The timeout is compared in [double]s: with [rto_ms = 400], a segment
    stamped at 5 ns is not yet due at 400000005 ns, where the difference of
    the two readings rounds below 0.4, and is due one nanosecond later. *)
Example timeout_in_doubles :
  let st := Sender.mkState [false; false] (map now_s [0; 5]) [0; 1] 1 2 1 in
  Sender.timed_out cfg0 (now_s 400000005) st 1 = false /\
  Sender.timed_out cfg0 (now_s 400000006) st 1 = true.
Proof. vm_compute. split; reflexivity. Qed.

End SpecScenarios.

(** Closes a goal that is a conjunction of hypotheses. *)
Ltac by_hyps := first [assumption | split; by_hyps].

(* ===================================================================== *)
(** * Part III: further properties of the two programs *)
(* ===================================================================== *)

(** ** Byte order of the 64-bit fields *)

Module ByteOrderFacts.
Import Wire WireFacts ByteOrder.

Lemma le_value_range bs : 0 <= le_value bs < 256 ^ Z.of_nat (length bs).
Proof.
  induction bs as [|b bs IH]; cbn [le_value length].
  - simpl. lia.
  - pose proof (byte_val_range b) as Hb.
    rewrite Nat2Z.inj_succ, Z.pow_succ_r by lia. lia.
Qed.

(** Bytes written and read back give the value in its width. *)
Lemma le_value_bytes n : forall v, le_value (le_bytes n v) = v mod 256 ^ Z.of_nat n.
Proof.
  induction n as [|n IH]; intros v; cbn [le_bytes le_value].
  - simpl. now rewrite Z.mod_1_r.
  - rewrite IH, byte_val_of, Nat2Z.inj_succ, Z.pow_succ_r by lia.
    assert (Hp : 0 < 256 ^ Z.of_nat n) by (apply Z.pow_pos_nonneg; lia).
    rewrite Z.rem_mul_r by lia. lia.
Qed.

Lemma byte_of_eq x y : x mod 256 = y mod 256 -> byte_of x = byte_of y.
Proof. intros H. unfold byte_of. now rewrite H. Qed.

Lemma le_bytes_value bs : le_bytes (length bs) (le_value bs) = bs.
Proof.
  induction bs as [|b bs IH]; cbn [le_bytes le_value length]; [reflexivity|].
  pose proof (byte_val_range b) as Hb.
  f_equal.
  - rewrite <- (byte_of_val b) at 2. apply byte_of_eq.
    rewrite (Z.mul_comm 256), Z.mod_add by lia. reflexivity.
  - replace ((byte_val b + 256 * le_value bs) / 256) with (le_value bs); [exact IH|].
    rewrite (Z.mul_comm 256), Z.div_add by lia.
    rewrite (Z.div_small (byte_val b)) by lia. lia.
Qed.

Lemma be_split_mod m : forall v, be_split m (v mod 256 ^ Z.of_nat m) = be_split m v.
Proof.
  intros v. revert v.
  assert (G : forall k v, (m <= k)%nat -> be_split m (v mod 256 ^ Z.of_nat k) = be_split m v).
  { induction m as [|m IH]; intros k v Hk; cbn [be_split]; [reflexivity|].
    f_equal.
    - apply byte_of_eq.
      assert (Hp : 0 < 256 ^ Z.of_nat m) by (apply Z.pow_pos_nonneg; lia).
      assert (Hq : 0 < 256 ^ Z.of_nat (k - S m)) by (apply Z.pow_pos_nonneg; lia).
      assert (Hk' : 256 ^ Z.of_nat k = 256 ^ Z.of_nat m * (256 * 256 ^ Z.of_nat (k - S m))).
      { rewrite <- Z.pow_succ_r, <- Z.pow_add_r by lia. f_equal. lia. }
      rewrite Hk'. set (A := 256 ^ Z.of_nat m) in *. set (B := 256 ^ Z.of_nat (k - S m)) in *.
      rewrite (Z.mod_eq v (A * (256 * B))) by lia.
      replace (v - A * (256 * B) * (v / (A * (256 * B))))
        with (v + (- (256 * B * (v / (A * (256 * B))))) * A) by ring.
      rewrite Z.div_add by lia.
      replace (v / A + - (256 * B * (v / (A * (256 * B)))))
        with (v / A + (- (B * (v / (A * (256 * B))))) * 256) by ring.
      apply Z.mod_add. lia.
    - apply IH. lia. }
  intros v. apply G. lia.
Qed.

Lemma be_split_app n m v :
  be_split (n + m) v = be_split n (v / 256 ^ Z.of_nat m) ++ be_split m v.
Proof.
  induction n as [|n IH]; cbn [be_split Nat.add app]; [reflexivity|].
  rewrite IH. f_equal. f_equal.
  rewrite Z.div_div by (try apply Z.pow_pos_nonneg; lia).
  rewrite <- Z.pow_add_r by lia. f_equal. f_equal. lia.
Qed.

Lemma le_bytes_app n : forall m lo hi,
  0 <= lo < 256 ^ Z.of_nat n ->
  le_bytes (n + m) (lo + 256 ^ Z.of_nat n * hi) = le_bytes n lo ++ le_bytes m hi.
Proof.
  induction n as [|n IH]; intros m lo hi Hlo; cbn [le_bytes Nat.add app].
  - simpl in Hlo. assert (lo = 0) by lia. subst. f_equal. simpl. lia.
  - rewrite Nat2Z.inj_succ, Z.pow_succ_r in * by lia.
    assert (Hp : 0 < 256 ^ Z.of_nat n) by (apply Z.pow_pos_nonneg; lia).
    f_equal.
    + apply byte_of_eq.
      replace (lo + 256 * 256 ^ Z.of_nat n * hi) with (lo + (256 ^ Z.of_nat n * hi) * 256) by ring.
      apply Z.mod_add. lia.
    + replace ((lo + 256 * 256 ^ Z.of_nat n * hi) / 256)
        with (lo / 256 + 256 ^ Z.of_nat n * hi).
      * apply IH. split; [apply Z.div_pos; lia|].
        apply Z.div_lt_upper_bound; lia.
      * replace (lo + 256 * 256 ^ Z.of_nat n * hi) with (lo + (256 ^ Z.of_nat n * hi) * 256) by ring.
        rewrite Z.div_add by lia. reflexivity.
Qed.

Lemma le_value_app l1 l2 :
  le_value (l1 ++ l2) = le_value l1 + 256 ^ Z.of_nat (length l1) * le_value l2.
Proof.
  induction l1 as [|c l1 IH]; cbn [app le_value length].
  - simpl. lia.
  - rewrite IH, Nat2Z.inj_succ, Z.pow_succ_r by lia. ring.
Qed.

(** Read on a little-endian host, a byte string reversed has the value of
    the string in network order. *)
Lemma le_value_rev bs : le_value (rev bs) = be_combine bs.
Proof.
  induction bs as [|b bs IH]; [reflexivity|].
  cbn [rev]. rewrite le_value_app, IH, be_combine_cons, length_rev.
  cbn [le_value]. ring.
Qed.

Lemma be_split_combine bs : be_split (length bs) (be_combine bs) = bs.
Proof.
  induction bs as [|b bs IH]; [reflexivity|].
  cbn [length be_split]. rewrite be_combine_cons.
  pose proof (be_combine_range bs) as Hr. pose proof (byte_val_range b) as Hb.
  assert (Hp : 0 < 256 ^ Z.of_nat (length bs)) by (apply Z.pow_pos_nonneg; lia).
  f_equal.
  - rewrite <- (byte_of_val b) at 2. f_equal.
    rewrite Z.div_add_l by lia. rewrite Z.div_small by lia. lia.
  - rewrite <- be_split_mod.
    rewrite Z.add_comm, Z.mod_add by lia. rewrite Z.mod_small by lia. exact IH.
Qed.

Lemma be_split_le_value bs : be_split (length bs) (le_value bs) = rev bs.
Proof.
  rewrite <- (rev_involutive bs) at 2. rewrite le_value_rev.
  rewrite <- (length_rev bs) at 1. apply be_split_combine.
Qed.

Lemma load_range h bs : 0 <= load h bs < 256 ^ Z.of_nat (length bs).
Proof. destruct h; [apply le_value_range | apply be_combine_range]. Qed.

(** An object written to memory and read back, and bytes read and written
    back. *)
Lemma load_store h n v : load h (store h n v) = v mod 256 ^ Z.of_nat n.
Proof. destruct h; [apply le_value_bytes | apply be_combine_split]. Qed.

Lemma store_load h bs : store h (length bs) (load h bs) = bs.
Proof. destruct h; [apply le_bytes_value | apply be_split_combine]. Qed.

Lemma lor_disjoint a b :
  0 <= a -> 0 <= b < 2 ^ 32 -> Z.lor (a * 2 ^ 32) b = a * 2 ^ 32 + b.
Proof.
  intros Ha Hb. rewrite <- Z.shiftl_mul_pow2 by lia.
  rewrite <- Z.lxor_lor, <- Z.add_nocarry_lxor; [reflexivity | |].
  all: apply Z.bits_inj_0; intros i; rewrite Z.land_spec.
  all: destruct (Z_lt_le_dec i 32).
  all: try (rewrite Z.shiftl_spec_low by lia; reflexivity).
  all: rewrite (Z.bits_above_log2 b i), andb_false_r; try reflexivity; try lia.
  all: destruct (Z.eq_dec b 0) as [->|]; [simpl; lia|].
  all: assert (Z.log2 b < 32) by (apply Z.log2_lt_pow2; lia); lia.
Qed.

(** What [htonll] returns is the object whose bytes in memory are the eight
    bytes of [v] in network order. *)
Lemma htonll_value h v :
  0 <= v < 2 ^ 64 -> htonll h v = load h (be_split 8 v).
Proof.
  intros Hv. destruct h; cbn [htonll load htonl].
  - change 4294967295 with (Z.ones 32). rewrite Z.land_ones by lia.
    rewrite Z.shiftr_div_pow2 by lia.
    unfold u32 at 1. rewrite Z.mod_mod by lia.
    change (2 ^ 32) with (256 ^ Z.of_nat 4) at 1. rewrite be_split_mod.
    rewrite (u32_small (v / 2 ^ 32)) by (split; [apply Z.div_pos; lia | apply Z.div_lt_upper_bound; lia]).
    pose proof (le_value_range (be_split 4 v)) as Ha.
    pose proof (le_value_range (be_split 4 (v / 2 ^ 32))) as Hb.
    rewrite !be_split_length in Ha, Hb. change (256 ^ Z.of_nat 4) with (2 ^ 32) in Ha, Hb.
    rewrite Z.shiftl_mul_pow2 by lia.
    rewrite u64_small by lia.
    rewrite lor_disjoint by lia.
    change 8%nat with (4 + 4)%nat. rewrite be_split_app, le_value_app, be_split_length.
    change (256 ^ Z.of_nat 4) with (2 ^ 32). ring.
  - rewrite be_combine_split. symmetry. apply Z.mod_small. exact Hv.
Qed.

Lemma htonll_range h v : 0 <= v < 2 ^ 64 -> 0 <= htonll h v < 2 ^ 64.
Proof.
  intros Hv. rewrite htonll_value by exact Hv.
  pose proof (load_range h (be_split 8 v)) as Hr. rewrite be_split_length in Hr.
  exact Hr.
Qed.

Lemma ntohll_load h bs : length bs = 8%nat -> ntohll h (load h bs) = be_combine bs.
Proof.
  intros Hlen. unfold ntohll.
  pose proof (load_range h bs) as Hr. rewrite Hlen in Hr.
  rewrite htonll_value by exact Hr. rewrite <- Hlen.
  destruct h; cbn [load].
  - rewrite be_split_le_value. apply le_value_rev.
  - rewrite be_split_combine. reflexivity.
Qed.

(** X1.  On a host of either byte order, the eight bytes [htonll (v)]
    occupies in memory are the bytes of [v] in network order, most
    significant first; [ntohll] of an object read from eight bytes of a
    buffer is the big-endian value of those bytes; and [ntohll] undoes
    [htonll]. *)
Theorem htonll_is_network_order (h : endian) :
  (forall v, 0 <= v < 2 ^ 64 ->
             store h 8 (htonll h v) = be_split 8 v /\
             0 <= htonll h v < 2 ^ 64 /\
             ntohll h (htonll h v) = v) /\
  (forall bs, length bs = 8%nat -> ntohll h (load h bs) = be_combine bs).
Proof.
  split.
  - intros v Hv. split; [|split].
    + rewrite htonll_value by exact Hv.
      rewrite <- (be_split_length 8 v) at 1. apply store_load.
    + now apply htonll_range.
    + rewrite (htonll_value h v Hv).
      rewrite ntohll_load by apply be_split_length.
      rewrite be_combine_split. apply Z.mod_small. exact Hv.
  - intros bs Hlen. now apply ntohll_load.
Qed.

Lemma htonll_is_network_order_witness :
  (0 <= 1182 < 2 ^ 64 /\ length (be_split 8 1182) = 8%nat) /\
  store Little 8 (htonll Little 1182) = be_split 8 1182 /\
  ntohll Little (htonll Little 1182) = 1182 /\
  ntohll Little (load Little (be_split 8 1182)) = be_combine (be_split 8 1182).
Proof.
  assert (H1 : 0 <= 1182 < 2 ^ 64) by (split; [discriminate | reflexivity]).
  assert (H2 : length (be_split 8 1182) = 8%nat) by reflexivity.
  split; [split; assumption|].
  destruct (htonll_is_network_order Little) as [Hv Hb].
  destruct (Hv 1182 H1) as (Hs & _ & Hn).
  split; [exact Hs|]. split; [exact Hn|]. exact (Hb _ H2).
Defined.

End ByteOrderFacts.

(** ** The receiver's session *)

Module SessionFacts.
Import Wire WireFacts Receiver ReceiverFacts Session.

(** *** The end of the session *)

Lemma iter_settled P ev st st' out :
  inv P st -> settled st -> iter P ev st = Cont st' out -> settled st'.
Proof.
  intros Hinv Hset H. destruct ev as [from dg|].
  2:{ cbn in H. now injection H as <- _. }
  pose proof (iter_monotone P _ _ _ _ Hinv H) as [_ Hmono].
  pose proof (iter_inv P _ _ _ _ Hinv H) as (_ & Hc' & _).
  rewrite iter_datagram in H. cbv zeta in H.
  set (st1 := with_rx st (fst (recv_into (buf st) (HDR + P) dg)) from) in *.
  assert (Hset1 : settled st1) by exact Hset.
  assert (Hcum1 : cum_ack st1 = cum_ack st) by reflexivity.
  clearbody st1.
  repeat match type of H with
         | context [if ?c then _ else _] => destruct c eqn:?
         end;
    try discriminate;
    try (injection H as <- _; exact Hset1).
  - unfold open_session in H.
    destruct (fmap_open_wo (rd (buf st1) HDR 8)); [|discriminate].
    injection H as <- _. intros Hf. cbn in Hf.
    destruct (Hset1 Hf) as [Hs _]. rewrite Hs in *. cbn in *. discriminate.
  - injection H as <- _. intros Hf.
    cbn [store_segment finished started total_segs] in *.
    destruct (Hset1 Hf) as [Hs Hc]. split; [exact Hs|]. lia.
  - injection H as <- _. intros Hf. cbn [set_finished finished started cum_ack total_segs] in *.
    apply Z.eqb_eq in Hf. split; [|exact Hf].
    now destruct (started st1).
Qed.

Lemma run_settled P evs : forall st st' out,
  inv P st -> settled st -> run P evs st = Some (st', out) -> settled st'.
Proof.
  induction evs as [|ev evs IH]; intros st st' out Hinv Hset H; cbn [run] in H.
  - destruct (finished st); injection H as <- _; exact Hset.
  - destruct (finished st) eqn:Hf; [injection H as <- _; exact Hset|].
    destruct (iter P ev st) as [st1 o1|] eqn:Hit; [|discriminate].
    destruct (run P evs st1) as [[st2 o2]|] eqn:Hrun; [|discriminate].
    injection H as <- _.
    eapply IH; [| |exact Hrun]; [eapply iter_inv | eapply iter_settled]; eauto.
Qed.

Lemma reachable_settled P st : reachable P st -> settled st.
Proof.
  intros (junk & evs & out & H).
  eapply run_settled; [apply receiver_init_inv | | exact H].
  intros Hf. discriminate.
Qed.

(** X2.  The receiver leaves its loop only when complete: in every state it
    reaches with [finished] set, a session has been opened, [cum_ack] equals
    [total_segs] and every segment from 1 to [total_segs] is held. *)
Theorem receiver_finishes_only_when_complete (P : Z) (st : state) :
  reachable P st -> finished st = true ->
  started st = true /\ cum_ack st = total_segs st /\
  forall k, 1 <= k <= total_segs st -> flag (have st) k = true.
Proof.
  intros Hreach Hf.
  destruct (reachable_settled P st Hreach Hf) as [Hs Hc].
  pose proof (reachable_inv P st Hreach) as (_ & _ & _ & _ & _ & _ & Hcont & _).
  split; [exact Hs|]. split; [exact Hc|].
  intros k Hk. apply Hcont. lia.
Qed.

Lemma receiver_finishes_only_when_complete_witness :
  let st := Scenario.after [Datagram 1 Scenario.start0; Datagram 1 (Scenario.data0 2);
                            Datagram 1 (Scenario.data0 1); Datagram 1 Scenario.end0;
                            Datagram 1 (Scenario.data0 3); Datagram 1 Scenario.end0] in
  (reachable Scenario.P0 st /\ finished st = true) /\
  started st = true /\ cum_ack st = total_segs st /\ flag (have st) 3 = true.
Proof.
  intros st.
  assert (H1 : reachable Scenario.P0 st).
  { exists [], [Datagram 1 Scenario.start0; Datagram 1 (Scenario.data0 2);
                Datagram 1 (Scenario.data0 1); Datagram 1 Scenario.end0;
                Datagram 1 (Scenario.data0 3); Datagram 1 Scenario.end0],
           [mkAck 1 0 0; mkAck 1 0 2; mkAck 1 2 0; mkAck 1 2 0; mkAck 1 3 0; mkAck 1 3 0].
    vm_compute. reflexivity. }
  assert (H2 : finished st = true) by (vm_compute; reflexivity).
  split; [split; assumption|].
  destruct (receiver_finishes_only_when_complete Scenario.P0 st H1 H2) as (Hs & Hc & Hall).
  split; [exact Hs|]. split; [exact Hc|].
  apply Hall. vm_compute. split; discriminate.
Defined.


(** *** The ACKs of a run *)

Lemma iter_out_short P ev st st' out :
  iter P ev st = Cont st' out -> (length out <= 1)%nat.
Proof.
  intros H. destruct ev as [from dg|].
  2:{ cbn in H. injection H as _ <-. cbn. lia. }
  rewrite iter_datagram in H. cbv zeta in H.
  repeat match type of H with
         | context [if ?c then _ else _] => destruct c
         end;
    try discriminate;
    try (injection H as _ <-; cbn; lia).
  unfold open_session in H.
  destruct (fmap_open_wo _); [|discriminate].
  injection H as _ <-. cbn. lia.
Qed.

Lemma iter_out_cum P ev st st' out a :
  iter P ev st = Cont st' out -> In a out -> ack_cum a = cum_ack st'.
Proof.
  intros H Hin. destruct ev as [from dg|].
  - now destruct (iter_acks P from dg st st' out a H Hin) as (_ & Hc & _).
  - cbn in H. injection H as _ <-. destruct Hin.
Qed.

Lemma run_acks P evs : forall st st' out,
  inv P st -> run P evs st = Some (st', out) ->
  cum_ack st <= cum_ack st' /\
  (forall a, In a out -> cum_ack st <= ack_cum a <= cum_ack st') /\
  (forall i j a b, (i <= j)%nat -> out !! i = Some a -> out !! j = Some b ->
                   ack_cum a <= ack_cum b).
Proof.
  induction evs as [|ev evs IH]; intros st st' out Hinv H; cbn [run] in H.
  - assert (E : st' = st /\ out = []) by (destruct (finished st); now injection H as <- <-).
    destruct E as [-> ->]. split; [lia|]. split; [intros a []|].
    intros i j a b _ Hi. rewrite lookup_nil in Hi. discriminate.
  - destruct (finished st).
    { injection H as <- <-. split; [lia|]. split; [intros a []|].
      intros i j a b _ Hi. rewrite lookup_nil in Hi. discriminate. }
    destruct (iter P ev st) as [st1 o1|] eqn:Hit; [|discriminate].
    destruct (run P evs st1) as [[st2 o2]|] eqn:Hrun; [|discriminate].
    injection H as <- <-.
    pose proof (iter_inv P _ _ _ _ Hinv Hit) as Hinv1.
    destruct (iter_monotone P _ _ _ _ Hinv Hit) as [_ Hm1].
    destruct (IH st1 st2 o2 Hinv1 Hrun) as (Hm2 & Hin2 & Hsort2).
    assert (Hin1 : forall a, In a o1 -> ack_cum a = cum_ack st1)
      by (intros a Ha; exact (iter_out_cum P ev st st1 o1 a Hit Ha)).
    split; [lia|]. split.
    + intros a Ha. apply in_app_or in Ha as [Ha|Ha].
      * rewrite (Hin1 a Ha). lia.
      * specialize (Hin2 a Ha). lia.
    + intros i j a b Hij Hi Hj.
      apply lookup_app_Some in Hi as [Hi|[Hil Hi]];
        apply lookup_app_Some in Hj as [Hj|[Hjl Hj]].
      * apply list_elem_of_lookup_2, list_elem_of_In in Hi, Hj.
        rewrite (Hin1 a Hi), (Hin1 b Hj). lia.
      * apply list_elem_of_lookup_2, list_elem_of_In in Hi, Hj.
        rewrite (Hin1 a Hi). specialize (Hin2 b Hj). lia.
      * apply lookup_lt_Some in Hj. lia.
      * apply (Hsort2 (i - length o1)%nat (j - length o1)%nat); [lia | exact Hi | exact Hj].
Qed.

(** X3.  A datagram is answered by at most one ACK, sent to the address the
    datagram came from and carrying the [cum_ack] the iteration leaves, a
    value between 0 and [total_segs]; an error of [recvfrom] is answered by
    nothing. *)
Theorem ack_goes_to_the_source (P : Z) (ev : event) (st st' : state) (out : list ack) :
  reachable P st -> iter P ev st = Cont st' out ->
  (length out <= 1)%nat /\
  (ev = RecvError -> out = []) /\
  (forall from dg a,
     ev = Datagram from dg -> In a out ->
     ack_to a = from /\ ack_cum a = cum_ack st' /\ 0 <= ack_cum a <= total_segs st').
Proof.
  intros Hreach Hit.
  pose proof (iter_inv P _ _ _ _ (reachable_inv P st Hreach) Hit) as (_ & Hc & _).
  split; [exact (iter_out_short P ev st st' out Hit)|]. split.
  - intros ->. cbn in Hit. now injection Hit as _ <-.
  - intros from dg a -> Hin.
    destruct (iter_acks P from dg st st' out a Hit Hin) as (Hto & Hcum & _).
    split; [exact Hto|]. split; [exact Hcum|]. rewrite Hcum. exact Hc.
Qed.

Lemma ack_goes_to_the_source_witness :
  let st := Scenario.after [Datagram 1 Scenario.start0] in
  let st' := Scenario.after [Datagram 1 Scenario.start0; Datagram 2 (Scenario.data0 1)] in
  (reachable Scenario.P0 st /\
   iter Scenario.P0 (Datagram 2 (Scenario.data0 1)) st = Cont st' [mkAck 2 1 0] /\
   In (mkAck 2 1 0) [mkAck 2 1 0]) /\
  ack_to (mkAck 2 1 0) = 2 /\ ack_cum (mkAck 2 1 0) = cum_ack st' /\
  0 <= ack_cum (mkAck 2 1 0) <= total_segs st'.
Proof.
  intros st st'.
  assert (H1 : reachable Scenario.P0 st).
  { exists [], [Datagram 1 Scenario.start0], [mkAck 1 0 0]. vm_compute. reflexivity. }
  assert (H2 : iter Scenario.P0 (Datagram 2 (Scenario.data0 1)) st = Cont st' [mkAck 2 1 0])
    by (vm_compute; reflexivity).
  assert (H3 : In (mkAck 2 1 0) [mkAck 2 1 0]) by (left; reflexivity).
  split; [by_hyps|].
  destruct (ack_goes_to_the_source Scenario.P0 _ st st' _ H1 H2) as (_ & _ & Hsrc).
  exact (Hsrc 2 (Scenario.data0 1) (mkAck 2 1 0) eq_refl H3).
Defined.

(** X4.  Along any run of the receive loop the [cum_ack] values of the ACKs
    sent never decrease: an ACK sent later carries a [cum_ack] at least as
    large, and all of them lie between the [cum_ack] at the start of the run
    and the one at its end. *)
Theorem ack_stream_never_goes_back (P : Z) (evs : list event) (st st' : state)
        (out : list ack) :
  reachable P st -> run P evs st = Some (st', out) ->
  (forall a, In a out -> cum_ack st <= ack_cum a <= cum_ack st') /\
  (forall i j a b, (i <= j)%nat -> out !! i = Some a -> out !! j = Some b ->
                   ack_cum a <= ack_cum b).
Proof.
  intros Hreach Hrun.
  destruct (run_acks P evs st st' out (reachable_inv P st Hreach) Hrun) as (_ & Hin & Hsort).
  split; assumption.
Qed.

Lemma ack_stream_never_goes_back_witness :
  let evs := [Datagram 1 Scenario.start0; Datagram 1 (Scenario.data0 3);
              Datagram 1 (Scenario.data0 1); Datagram 1 (Scenario.data0 2)] in
  let out := [mkAck 1 0 0; mkAck 1 0 4; mkAck 1 1 2; mkAck 1 3 0] in
  (reachable Scenario.P0 (init Scenario.P0 []) /\
   run Scenario.P0 evs (init Scenario.P0 []) = Some (Scenario.after evs, out) /\
   (1 <= 3)%nat /\ out !! 1%nat = Some (mkAck 1 0 4) /\ out !! 3%nat = Some (mkAck 1 3 0)) /\
  ack_cum (mkAck 1 0 4) <= ack_cum (mkAck 1 3 0).
Proof.
  intros evs out.
  assert (H1 : reachable Scenario.P0 (init Scenario.P0 [])).
  { exists [], [], []. reflexivity. }
  assert (H2 : run Scenario.P0 evs (init Scenario.P0 []) = Some (Scenario.after evs, out))
    by (vm_compute; reflexivity).
  assert (H3 : (1 <= 3)%nat) by lia.
  assert (H4 : out !! 1%nat = Some (mkAck 1 0 4)) by reflexivity.
  assert (H5 : out !! 3%nat = Some (mkAck 1 3 0)) by reflexivity.
  split; [by_hyps|].
  destruct (ack_stream_never_goes_back Scenario.P0 evs _ _ out H1 H2) as [_ Hsort].
  exact (Hsort 1%nat 3%nat _ _ H3 H4 H5).
Defined.


(** *** The session a START opens *)

Lemma open_session_sized P st st' out :
  open_session P st = Cont st' out -> sized P st'.
Proof.
  unfold open_session, fmap_open_wo. intros H.
  pose proof (SenderFacts.rd_range (buf st) HDR 8 ltac:(unfold HDR; lia)) as Hr.
  destruct ((rd (buf st) HDR 8 =? 0) || (2 ^ 63 <=? rd (buf st) HDR 8)) eqn:E; [discriminate|].
  apply orb_false_iff in E as [E0 E1]. apply Z.eqb_neq in E0. apply Z.leb_gt in E1.
  injection H as <- _. intros _. cbn.
  split; [lia|]. split; [|reflexivity]. rewrite length_replicate. lia.
Qed.

Lemma iter_sized P ev st st' out :
  sized P st -> iter P ev st = Cont st' out -> sized P st'.
Proof.
  intros Hsz H. destruct ev as [from dg|].
  2:{ cbn in H. now injection H as <- _. }
  rewrite iter_datagram in H. cbv zeta in H.
  set (st1 := with_rx st (fst (recv_into (buf st) (HDR + P) dg)) from) in *.
  assert (Hsz1 : sized P st1) by exact Hsz. clearbody st1.
  repeat match type of H with
         | context [if ?c then _ else _] => destruct c eqn:?
         end;
    try discriminate;
    try (injection H as <- _; exact Hsz1).
  - eapply open_session_sized; eauto.
  - injection H as <- _. intros Hs.
    cbn [store_segment started expected_total fm total_segs] in *.
    unfold memcpy_at. rewrite length_inserts. now apply Hsz1.
Qed.

Lemma run_sized P evs : forall st st' out,
  sized P st -> run P evs st = Some (st', out) -> sized P st'.
Proof.
  induction evs as [|ev evs IH]; intros st st' out Hsz H; cbn [run] in H.
  - destruct (finished st); injection H as <- _; exact Hsz.
  - destruct (finished st); [injection H as <- _; exact Hsz|].
    destruct (iter P ev st) as [st1 o1|] eqn:Hit; [|discriminate].
    destruct (run P evs st1) as [[st2 o2]|] eqn:Hrun; [|discriminate].
    injection H as <- _. eapply IH; [|exact Hrun]. eapply iter_sized; eauto.
Qed.

(** X5.  Throughout a session the output file has exactly the size the
    accepted START announced, a size between 1 and [2 ^ 63 - 1]; the segment
    count is the one computed from that size, and the bitmap has one cell
    per segment and the unused cell 0. *)
Theorem output_file_keeps_announced_size (P : Z) (st : state) :
  reachable P st -> started st = true ->
  Z.of_nat (length (fm st)) = expected_total st /\
  0 < expected_total st < 2 ^ 63 /\
  total_segs st = segs_of (expected_total st) P /\
  length (have st) = Z.to_nat (total_segs st + 1).
Proof.
  intros Hreach Hs.
  pose proof (reachable_inv P st Hreach) as (_ & _ & _ & Hl & _).
  destruct Hreach as (junk & evs & out & Hrun).
  assert (Hsz : sized P st).
  { eapply run_sized; [|exact Hrun]. intros Habs. discriminate. }
  destruct (Hsz Hs) as (Hpos & Hlen & Hseg).
  split; [exact Hlen|]. split; [exact Hpos|]. split; [exact Hseg | exact (Hl Hs)].
Qed.

Lemma output_file_keeps_announced_size_witness :
  let st := Scenario.after [Datagram 1 Scenario.start0; Datagram 1 (Scenario.data0 3)] in
  (reachable Scenario.P0 st /\ started st = true) /\
  Z.of_nat (length (fm st)) = expected_total st /\
  0 < expected_total st < 2 ^ 63 /\
  total_segs st = segs_of (expected_total st) Scenario.P0 /\
  length (have st) = Z.to_nat (total_segs st + 1).
Proof.
  intros st.
  assert (H1 : reachable Scenario.P0 st).
  { exists [], [Datagram 1 Scenario.start0; Datagram 1 (Scenario.data0 3)],
           [mkAck 1 0 0; mkAck 1 0 4].
    vm_compute. reflexivity. }
  assert (H2 : started st = true) by (vm_compute; reflexivity).
  split; [split; assumption|].
  exact (output_file_keeps_announced_size Scenario.P0 st H1 H2).
Defined.

(** The iteration on a datagram that holds its header, by the header. *)
Lemma iter_by_header P from dg st0 :
  0 <= P -> HDR <= Z.of_nat (length dg) ->
  let st := with_rx st0 (fst (recv_into (buf st0) (HDR + P) dg)) from in
  iter P (Datagram from dg) st0 =
  if (hdr_type dg =? PKT_START) && (hdr_seq dg =? 0) then
    if negb (started st0) then
      if negb (hdr_len dg =? 8) then Cont st []
      else open_session P st
    else Cont st [mkAck from (cum_ack st0) 0]
  else if negb (started st0) then Cont st []
  else if hdr_type dg =? PKT_DATA then
    if (hdr_seq dg =? 0) || (total_segs st0 <? hdr_seq dg) then Cont st []
    else if negb (flag (have st0) (hdr_seq dg)) then
      if P <? hdr_len dg then Cont st []
      else Cont (store_segment P (hdr_seq dg) (hdr_len dg) st)
                (reply (store_segment P (hdr_seq dg) (hdr_len dg) st))
    else Cont st (reply st)
  else if hdr_type dg =? PKT_END then
    Cont (set_finished st (cum_ack st0 =? total_segs st0)) (reply st)
  else Cont st [].
Proof.
  intros HP Hlen. cbv zeta.
  pose proof (recv_count_header (buf st0) P dg HP Hlen) as Hn.
  destruct (header_of_datagram (buf st0) (HDR + P) dg Hn) as (Ht & Hq & Hl).
  rewrite iter_datagram. cbv zeta. rewrite Ht, Hq, Hl.
  replace (snd (recv_into (buf st0) (HDR + P) dg) <? HDR) with false
    by (symmetry; apply Z.ltb_ge; lia).
  reflexivity.
Qed.



(** X7.  A START that is not well formed is dropped without an answer: one
    whose sequence number is not 0, in any state, and, while no session is
    open, one whose [len] is not 8.  The session stays as it is. *)
Theorem malformed_start_is_dropped (P : Z) (st : state) (from : Z) (dg : list Byte.byte) :
  0 <= P -> HDR <= Z.of_nat (length dg) -> hdr_type dg = PKT_START ->
  hdr_seq dg <> 0 \/ (started st = false /\ hdr_len dg <> 8) ->
  exists st', iter P (Datagram from dg) st = Cont st' [] /\ session st' = session st.
Proof.
  intros HP Hlen Hty Hbad.
  rewrite iter_by_header by assumption. cbv zeta. rewrite Hty.
  change (PKT_START =? PKT_START) with true.
  change (PKT_START =? PKT_DATA) with false. change (PKT_START =? PKT_END) with false.
  cbn [andb]. cbn match.
  destruct Hbad as [Hseq | [Hs Hl]].
  - replace (hdr_seq dg =? 0) with false by (symmetry; now apply Z.eqb_neq).
    destruct (started st); cbn [negb]; eexists; split; reflexivity.
  - rewrite Hs. cbn [negb].
    replace (hdr_len dg =? 8) with false by (symmetry; now apply Z.eqb_neq).
    cbn [negb]. destruct (hdr_seq dg =? 0); eexists; split; reflexivity.
Qed.

Lemma malformed_start_is_dropped_witness :
  let st := init Scenario.P0 [] in
  let dg := mk_hdr PKT_START 0 4 ++ be_split 4 1182 in
  (0 <= Scenario.P0 /\ HDR <= Z.of_nat (length dg) /\ hdr_type dg = PKT_START /\
   (hdr_seq dg <> 0 \/ (started st = false /\ hdr_len dg <> 8))) /\
  exists st', iter Scenario.P0 (Datagram 1 dg) st = Cont st' [] /\ session st' = session st.
Proof.
  intros st dg.
  assert (H0 : 0 <= Scenario.P0) by (vm_compute; discriminate).
  assert (H1 : HDR <= Z.of_nat (length dg)) by (vm_compute; discriminate).
  assert (H2 : hdr_type dg = PKT_START) by (vm_compute; reflexivity).
  assert (H3 : hdr_seq dg <> 0 \/ (started st = false /\ hdr_len dg <> 8))
    by (right; split; [reflexivity | vm_compute; discriminate]).
  split; [by_hyps|].
  exact (malformed_start_is_dropped Scenario.P0 st 1 dg H0 H1 H2 H3).
Defined.

(** X8.  A first START that announces a size of 0, or of [2 ^ 63] or more,
    ends the receiver through [die] ([mmap] refuses a length of 0 and
    [ftruncate] a negative [off_t]): nothing is sent and the loop does not
    go on. *)
Theorem unusable_size_ends_the_receiver (P : Z) (st : state) (from : Z)
        (dg : list Byte.byte) :
  512 <= P -> started st = false -> finished st = false ->
  HDR + 8 <= Z.of_nat (length dg) ->
  hdr_type dg = PKT_START -> hdr_seq dg = 0 -> hdr_len dg = 8 ->
  rd dg HDR 8 = 0 \/ 2 ^ 63 <= rd dg HDR 8 ->
  iter P (Datagram from dg) st = Die /\
  sent (iter P (Datagram from dg) st) = [] /\
  forall evs, run P (Datagram from dg :: evs) st = None.
Proof.
  intros HP Hs Hf Hlen Hty Hseq Hl Hsize.
  assert (Hit : iter P (Datagram from dg) st = Die).
  { rewrite iter_by_header by (unfold HDR in *; lia). cbv zeta.
    rewrite Hty, Hseq, Hl, Hs.
    change ((PKT_START =? PKT_START) && (0 =? 0)) with true.
    change (negb (8 =? 8)) with false. cbn match. cbn [negb].
    unfold open_session. cbn [with_rx buf].
    rewrite rd_recv_into by (rewrite ?recv_into_count; unfold HDR in *; lia).
    unfold fmap_open_wo.
    replace ((rd dg HDR 8 =? 0) || (2 ^ 63 <=? rd dg HDR 8)) with true; [reflexivity|].
    symmetry. apply orb_true_iff.
    destruct Hsize as [E|E]; [left; now apply Z.eqb_eq | right; now apply Z.leb_le]. }
  split; [exact Hit|]. split; [now rewrite Hit|].
  intros evs. cbn [run]. now rewrite Hf, Hit.
Qed.

Lemma unusable_size_ends_the_receiver_witness :
  let st := init Scenario.P0 [] in
  let dg := mk_hdr PKT_START 0 8 ++ be_split 8 0 in
  (512 <= Scenario.P0 /\ started st = false /\ finished st = false /\
   HDR + 8 <= Z.of_nat (length dg) /\
   hdr_type dg = PKT_START /\ hdr_seq dg = 0 /\ hdr_len dg = 8 /\
   (rd dg HDR 8 = 0 \/ 2 ^ 63 <= rd dg HDR 8)) /\
  iter Scenario.P0 (Datagram 1 dg) st = Die /\
  run Scenario.P0 [Datagram 1 dg; Datagram 1 Scenario.start0] st = None.
Proof.
  intros st dg.
  assert (H0 : 512 <= Scenario.P0) by (vm_compute; discriminate).
  assert (H1 : started st = false) by reflexivity.
  assert (H2 : HDR + 8 <= Z.of_nat (length dg)) by (vm_compute; discriminate).
  assert (H3 : hdr_type dg = PKT_START) by (vm_compute; reflexivity).
  assert (H4 : hdr_seq dg = 0) by (vm_compute; reflexivity).
  assert (H5 : hdr_len dg = 8) by (vm_compute; reflexivity).
  assert (H6 : rd dg HDR 8 = 0 \/ 2 ^ 63 <= rd dg HDR 8) by (left; vm_compute; reflexivity).
  assert (H7 : finished st = false) by reflexivity.
  split; [by_hyps|].
  destruct (unusable_size_ends_the_receiver Scenario.P0 st 1 dg H0 H1 H7 H2 H3 H4 H5 H6)
    as (Hdie & _ & Hrun).
  split; [exact Hdie | exact (Hrun _)].
Defined.


(** X9.  During a session an END packet, whatever its sequence number and
    [len], is answered by one ACK to its source with the current [cum_ack]
    and SACK mask, and sets [finished] exactly when [cum_ack = total_segs];
    the rest of the session stays as it is. *)
Theorem end_is_acknowledged (P : Z) (st : state) (from : Z) (dg : list Byte.byte) :
  0 <= P -> started st = true ->
  HDR <= Z.of_nat (length dg) -> hdr_type dg = PKT_END ->
  exists st',
    iter P (Datagram from dg) st = Cont st' [mkAck from (cum_ack st) (sack_of st)] /\
    finished st' = (cum_ack st =? total_segs st) /\
    have st' = have st /\ cum_ack st' = cum_ack st /\ fm st' = fm st /\
    received st' = received st /\ expected_total st' = expected_total st /\
    total_segs st' = total_segs st /\ started st' = true.
Proof.
  intros HP Hs Hlen Hty.
  rewrite iter_by_header by assumption. cbv zeta. rewrite Hty, Hs.
  change (PKT_END =? PKT_START) with false. change (PKT_END =? PKT_DATA) with false.
  change (PKT_END =? PKT_END) with true. cbn [andb negb]. cbn match.
  rewrite reply_with_rx.
  eexists. split; [reflexivity|]. cbn. rewrite Hs. auto 10.
Qed.

Lemma end_is_acknowledged_witness :
  let st := Scenario.after [Datagram 1 Scenario.start0; Datagram 1 (Scenario.data0 3)] in
  let dg := Scenario.end0 in
  (0 <= Scenario.P0 /\ started st = true /\ HDR <= Z.of_nat (length dg) /\
   hdr_type dg = PKT_END) /\
  exists st',
    iter Scenario.P0 (Datagram 2 dg) st = Cont st' [mkAck 2 0 4] /\ finished st' = false.
Proof.
  intros st dg.
  assert (H0 : 0 <= Scenario.P0) by (vm_compute; discriminate).
  assert (H1 : started st = true) by (vm_compute; reflexivity).
  assert (H2 : HDR <= Z.of_nat (length dg)) by (vm_compute; discriminate).
  assert (H3 : hdr_type dg = PKT_END) by (vm_compute; reflexivity).
  split; [by_hyps|].
  destruct (end_is_acknowledged Scenario.P0 st 2 dg H0 H1 H2 H3) as (st' & Hit & Hf & _).
  exists st'. split; [exact Hit | exact Hf].
Defined.

(** X10.  A datagram whose type is none of START, DATA and END (an ACK, for
    one) is dropped: nothing is sent and the session stays as it is. *)
Theorem other_types_are_dropped (P : Z) (st : state) (from : Z) (dg : list Byte.byte) :
  hdr_type dg <> PKT_START -> hdr_type dg <> PKT_DATA -> hdr_type dg <> PKT_END ->
  exists st', iter P (Datagram from dg) st = Cont st' [] /\ session st' = session st.
Proof.
  intros H2 H1 H3. eexists. rewrite iter_datagram. cbv zeta.
  destruct (snd (recv_into (buf st) (HDR + P) dg) <? HDR) eqn:Hn; [split; reflexivity|].
  apply Z.ltb_ge in Hn.
  destruct (header_of_datagram (buf st) (HDR + P) dg Hn) as (Ht & _ & _).
  rewrite Ht.
  replace (hdr_type dg =? PKT_START) with false by (symmetry; now apply Z.eqb_neq).
  replace (hdr_type dg =? PKT_DATA) with false by (symmetry; now apply Z.eqb_neq).
  replace (hdr_type dg =? PKT_END) with false by (symmetry; now apply Z.eqb_neq).
  cbn [andb]. destruct (negb (started (with_rx st _ from))); split; reflexivity.
Qed.

Lemma other_types_are_dropped_witness :
  let st := Scenario.after [Datagram 1 Scenario.start0] in
  let dg := Scenario.ack0 2 0 in
  (hdr_type dg <> PKT_START /\ hdr_type dg <> PKT_DATA /\ hdr_type dg <> PKT_END) /\
  exists st', iter Scenario.P0 (Datagram 1 dg) st = Cont st' [] /\ session st' = session st.
Proof.
  intros st dg.
  assert (H1 : hdr_type dg <> PKT_START) by (vm_compute; discriminate).
  assert (H2 : hdr_type dg <> PKT_DATA) by (vm_compute; discriminate).
  assert (H3 : hdr_type dg <> PKT_END) by (vm_compute; discriminate).
  split; [by_hyps|].
  exact (other_types_are_dropped Scenario.P0 st 1 dg H1 H2 H3).
Defined.

(** *** What ends the receiver *)



End SessionFacts.

(** ** The START and END exchanges *)

Module HandshakeFacts.
Import Wire WireFacts Sender SenderFacts Pacing.

Lemma knock_attempts (pkt : tx) (R : Z) : forall (rs : list answer) t out,
  exists n : nat,
    snd (knock pkt R t rs out) = out ++ replicate n pkt /\
    (n <= length rs)%nat /\ Z.of_nat n <= Z.max (R - t) 0 /\
    (forall i r, (S i < n)%nat -> rs !! i = Some r -> is_ack r = false) /\
    match fst (knock pkt R t rs out) with
    | Some true =>
        (R <= t /\ n = 0%nat) \/
        (exists r, (1 <= n)%nat /\ rs !! pred n = Some r /\ is_ack r = true)
    | Some false =>
        t < R /\ Z.of_nat n = R - t /\
        (forall i r, (i < n)%nat -> rs !! i = Some r -> is_ack r = false)
    | None =>
        n = length rs /\ Z.of_nat n < R - t /\
        (forall r, r ∈ rs -> is_ack r = false)
    end.
Proof.
  induction rs as [|r rs IH]; intros t out; cbn [knock].
  - destruct (t <? R) eqn:Ht.
    + apply Z.ltb_lt in Ht. exists 0%nat. cbn [fst snd replicate length].
      rewrite app_nil_r. split_and!; try reflexivity; try lia.
      intros r Hr. apply elem_of_nil in Hr. destruct Hr.
    + apply Z.ltb_ge in Ht. exists 0%nat. cbn [fst snd replicate length].
      rewrite app_nil_r. split_and!; try reflexivity; try lia.
      all: try (left; split; [lia | reflexivity]).
  - destruct (t <? R) eqn:Ht.
    2:{ apply Z.ltb_ge in Ht. exists 0%nat. cbn [fst snd replicate length].
        rewrite app_nil_r. split_and!; try reflexivity; try lia.
        all: try (left; split; [lia | reflexivity]). }
    apply Z.ltb_lt in Ht.
    destruct (is_ack r) eqn:Hack.
    { exists 1%nat. cbn [fst snd replicate length]. split_and!; try reflexivity; try lia.
      right. exists r. split_and!; [lia | reflexivity | exact Hack]. }
    destruct (t =? R - 1) eqn:Hlast.
    { apply Z.eqb_eq in Hlast. exists 1%nat. cbn [fst snd replicate length].
      split_and!; try reflexivity; try lia.
      intros i r0 Hi Hr. assert (i = 0%nat) by lia. subst i.
      cbn in Hr. injection Hr as <-. exact Hack. }
    apply Z.eqb_neq in Hlast.
    destruct (IH (t + 1) (out ++ [pkt])) as (n & Hout & Hlen & Hbound & Hbefore & Hres).
    exists (S n). split_and!.
    + rewrite Hout, <- app_assoc. reflexivity.
    + cbn [length]. lia.
    + lia.
    + intros i r0 Hi Hr. destruct i as [|i]; [cbn in Hr; injection Hr as <-; exact Hack|].
      cbn in Hr. apply (Hbefore i r0); [lia | exact Hr].
    + destruct (fst (knock pkt R (t + 1) rs (out ++ [pkt]))) as [[|]|].
      * right. destruct Hres as [[Hle _]|(r0 & Hn & Hr0 & Ha0)]; [lia|].
        exists r0. split_and!; [lia | | exact Ha0].
        destruct n as [|n]; [lia|]. exact Hr0.
      * destruct Hres as (_ & Hn & Hall). split_and!; [lia | lia |].
        intros i r0 Hi Hr. destruct i as [|i]; [cbn in Hr; injection Hr as <-; exact Hack|].
        cbn in Hr. apply (Hall i r0); [lia | exact Hr].
      * destruct Hres as (Hn & Hlt & Hall). split_and!; [cbn [length]; lia | lia |].
        intros r0 Hr0. apply elem_of_cons in Hr0 as [->|Hr0]; [exact Hack | now apply Hall].
Qed.

(** X12.  The START and END exchanges send the same packet once per attempt
    and nothing else, at most [retries] times; they go on only after an
    answer that is not an ACK header, or none; they end with the first
    answer of at least 7 bytes whose type is ACK; after [retries] attempts
    without one the process exits with status 1; and with [retries <= 0]
    nothing is sent and the exchange counts as done. *)
Theorem handshake_is_bounded (pkt : tx) (R : Z) (rs : list answer) :
  exists n : nat,
    snd (knock pkt R 0 rs []) = replicate n pkt /\
    (n <= length rs)%nat /\ Z.of_nat n <= Z.max R 0 /\
    (forall i r, (S i < n)%nat -> rs !! i = Some r -> is_ack r = false) /\
    match fst (knock pkt R 0 rs []) with
    | Some true =>
        (R <= 0 /\ n = 0%nat) \/
        (exists r, (1 <= n)%nat /\ rs !! pred n = Some r /\ is_ack r = true)
    | Some false =>
        0 < R /\ Z.of_nat n = R /\
        (forall i r, (i < n)%nat -> rs !! i = Some r -> is_ack r = false)
    | None =>
        n = length rs /\ Z.of_nat n < R /\ (forall r, r ∈ rs -> is_ack r = false)
    end.
Proof.
  destruct (knock_attempts pkt R rs 0 []) as (n & Hout & Hlen & Hbound & Hbefore & Hres).
  exists n. rewrite Z.sub_0_r in *. cbn [app] in Hout.
  split; [exact Hout|]. split; [exact Hlen|]. split; [exact Hbound|].
  split; [exact Hbefore|].
  destruct (fst (knock pkt R 0 rs [])) as [[|]|]; exact Hres.
Qed.

End HandshakeFacts.

(** ** The window and the retransmission scan *)

Module WindowFacts.
Import Wire WireFacts Sender SenderFacts Pacing.

Lemma s32_small x : - 2 ^ 31 <= x < 2 ^ 31 -> s32 x = x.
Proof.
  intros Hx. unfold s32, u32.
  destruct (Z_lt_le_dec x 0) as [Hneg|Hpos].
  - replace (x mod 2 ^ 32) with (x + 2 ^ 32)
      by (apply (Z.mod_unique _ _ (-1)); lia).
    replace (x + 2 ^ 32 <? 2 ^ 31) with false by (symmetry; apply Z.ltb_ge; lia). lia.
  - rewrite Z.mod_small by lia.
    replace (x <? 2 ^ 31) with true by (symmetry; apply Z.ltb_lt; lia). reflexivity.
Qed.

(** The test of step 1 under the invariant. *)
Lemma send_test cfg st :
  total_segs cfg + 1 < 2 ^ 31 -> inv cfg st ->
  (next_to_send st <=? total_segs cfg) && (s32 (next_to_send st - base st) <? win cfg)
  = (next_to_send st <? send_limit cfg st).
Proof.
  intros Hsegs (_ & _ & _ & (Hb & _) & Hn & _).
  rewrite s32_small by lia. unfold send_limit.
  destruct (next_to_send st <=? total_segs cfg) eqn:E1;
    destruct (next_to_send st - base st <? win cfg) eqn:E2;
    cbn [andb]; symmetry;
    rewrite ?Z.leb_le, ?Z.leb_gt, ?Z.ltb_lt, ?Z.ltb_ge in *; lia.
Qed.

Lemma win_range cfg : 1 <= win cfg <= 256.
Proof.
  unfold win, DEFAULT_WIN.
  destruct ((arg_win cfg <? 1) || (256 <? arg_win cfg)) eqn:E; [lia|].
  apply orb_false_iff in E as [E1 E2]. apply Z.ltb_ge in E1, E2. lia.
Qed.

Lemma cell_insert_other {A} (d : A) (l : list A) s k v :
  1 <= s -> k <> s -> cell d (<[Z.to_nat s := v]> l) k = cell d l k.
Proof.
  intros Hs Hne. unfold cell. rewrite list_lookup_insert_ne by lia. reflexivity.
Qed.

(** Step 1, in full: the segments from [next_to_send] up to the limit are
    handed to [sendmsg] in order, and those it took are counted and stamped. *)
Lemma send_new_exact cfg e :
  total_segs cfg + 1 < 2 ^ 31 ->
  forall fuel st out,
    inv cfg st ->
    (loop_fuel (total_segs cfg) (next_to_send st) <= fuel)%nat ->
    let lim := send_limit cfg st in
    let st' := fst (send_new fuel cfg e st out) in
    snd (send_new fuel cfg e st out)
    = out ++ map (data_pkt cfg) (seqZ (next_to_send st) (lim - next_to_send st)) /\
    next_to_send st' = Z.max (next_to_send st) lim /\
    (forall k, cell 0 (tx_cnt st') k
               = if (next_to_send st <=? k) && (k <? lim) && send_ok e k
                 then cell 0 (tx_cnt st) k + 1 else cell 0 (tx_cnt st) k) /\
    (forall k, cell PrimFloat.zero (sent_ts st') k
               = if (next_to_send st <=? k) && (k <? lim) && send_ok e k
                 then now_s (clock e k) else cell PrimFloat.zero (sent_ts st) k).
Proof.
  intros Hsegs fuel. induction fuel as [|fuel IH]; intros st out Hinv Hfuel.
  - pose proof Hinv as (_ & _ & _ & (Hb & _) & Hn & _).
    pose proof (win_range cfg) as Hw.
    assert (Hlim : send_limit cfg st <= next_to_send st)
      by (unfold send_limit, loop_fuel in *; lia).
    cbn [send_new fst snd]. cbv zeta.
    rewrite seqZ_nil by lia. cbn [map]. rewrite app_nil_r.
    split_and!; [reflexivity | lia | |]; intros k;
      (replace ((next_to_send st <=? k) && (k <? send_limit cfg st)) with false;
       [reflexivity | symmetry; apply andb_false_iff;
                      destruct (Z_le_gt_dec (next_to_send st) k);
                      [right; apply Z.ltb_ge; lia | left; apply Z.leb_gt; lia]]).
  - rewrite send_new_S, (send_test cfg st Hsegs Hinv).
    pose proof Hinv as (_ & _ & Lt & (Hb & _) & Hn & Hcnt & Hzero).
    pose proof Hinv as (_ & Ls & _).
    destruct (next_to_send st <? send_limit cfg st) eqn:Hlt.
    2:{ apply Z.ltb_ge in Hlt. cbn [fst snd]. cbv zeta.
        rewrite seqZ_nil by lia. cbn [map]. rewrite app_nil_r.
        split_and!; [reflexivity | lia | |]; intros k;
          (replace ((next_to_send st <=? k) && (k <? send_limit cfg st)) with false;
           [reflexivity | symmetry; apply andb_false_iff;
                          destruct (Z_le_gt_dec (next_to_send st) k);
                          [right; apply Z.ltb_ge; lia | left; apply Z.leb_gt; lia]]). }
    apply Z.ltb_lt in Hlt.
    assert (Hle : next_to_send st <= total_segs cfg) by (unfold send_limit in Hlt; lia).
    rewrite (u32_small (next_to_send st + 1)) by lia.
    pose proof (count_sent_inv cfg e st ltac:(lia) Hinv Hle) as Hinv1.
    set (s := next_to_send st) in *.
    set (st1 := set_next (if send_ok e s then count_sent e s st else st) (s + 1)) in *.
    assert (Hst1 : base st1 = base st /\ next_to_send st1 = s + 1 /\
                   (forall k, cell 0 (tx_cnt st1) k
                              = if (k =? s) && send_ok e s
                                then cell 0 (tx_cnt st) k + 1 else cell 0 (tx_cnt st) k) /\
                   (forall k, cell PrimFloat.zero (sent_ts st1) k
                              = if (k =? s) && send_ok e s
                                then now_s (clock e s) else cell PrimFloat.zero (sent_ts st) k)).
    { subst st1. destruct (send_ok e s); cbn [set_next count_sent base next_to_send tx_cnt sent_ts].
      - split_and!; try reflexivity; intros k; rewrite andb_true_r;
          (destruct (Z.eqb_spec k s) as [->|Hne];
           [rewrite cell_insert_eq by lia; reflexivity
           | rewrite cell_insert_other by lia; reflexivity]).
      - split_and!; try reflexivity; intros k; now rewrite andb_false_r. }
    destruct Hst1 as (B1 & N1 & T1 & S1).
    assert (Hlim1 : send_limit cfg st1 = send_limit cfg st)
      by (unfold send_limit; now rewrite B1).
    destruct (IH st1 (out ++ [data_pkt cfg s]) Hinv1
                 ltac:(rewrite N1; unfold loop_fuel in *; lia))
      as (G1 & G2 & G3 & G4).
    cbv zeta in G1, G2, G3, G4. rewrite Hlim1, N1 in *.
    cbv zeta. split_and!.
    + rewrite G1, <- app_assoc. f_equal.
      rewrite (seqZ_cons s) by lia. cbn [map app].
      do 3 f_equal; lia.
    + rewrite G2. lia.
    + intros k. rewrite G3, T1.
      destruct (Z.eqb_spec k s) as [->|Hne].
      * replace (s + 1 <=? s) with false by (symmetry; apply Z.leb_gt; lia).
        replace (s <=? s) with true by (symmetry; apply Z.leb_le; lia).
        replace (s <? send_limit cfg st) with true by (symmetry; apply Z.ltb_lt; lia).
        reflexivity.
      * cbn [andb].
        replace (s + 1 <=? k) with (s <=? k); [reflexivity|].
        destruct (Z.leb_spec s k), (Z.leb_spec (s + 1) k); try reflexivity; lia.
    + intros k. rewrite G4, S1.
      destruct (Z.eqb_spec k s) as [->|Hne].
      * replace (s + 1 <=? s) with false by (symmetry; apply Z.leb_gt; lia).
        replace (s <=? s) with true by (symmetry; apply Z.leb_le; lia).
        replace (s <? send_limit cfg st) with true by (symmetry; apply Z.ltb_lt; lia).
        reflexivity.
      * cbn [andb].
        replace (s + 1 <=? k) with (s <=? k); [reflexivity|].
        destruct (Z.leb_spec s k), (Z.leb_spec (s + 1) k); try reflexivity; lia.
Qed.



(** What the retransmission scan sends, whether it ends or exits: DATA
    packets of unacknowledged segments of its range. *)
Lemma resend_emits cfg t :
  total_segs cfg + 1 < 2 ^ 32 ->
  forall fuel s st out,
    inv cfg st -> 1 <= s ->
    exists rs,
      emitted (resend fuel cfg t s st out) = out ++ rs /\
      Forall (fun p => exists k, s <= k < next_to_send st /\ 1 <= k <= total_segs cfg /\
                                 flag (acked st) k = false /\ p = data_pkt cfg k) rs.
Proof.
  intros Hsegs fuel. induction fuel as [|fuel IH]; intros s st out Hinv Hs.
  - exists []. cbn. rewrite app_nil_r. split; [reflexivity | constructor].
  - rewrite resend_S.
    destruct (s <? next_to_send st) eqn:Hlt.
    2:{ exists []. cbn. rewrite app_nil_r. split; [reflexivity | constructor]. }
    apply Z.ltb_lt in Hlt.
    pose proof Hinv as (_ & _ & _ & _ & Hnext & Hcnt & _).
    rewrite (u32_small (s + 1)) by lia.
    assert (Hwiden : forall st1 out1,
               inv cfg st1 -> acked st1 = acked st -> next_to_send st1 = next_to_send st ->
               exists rs,
                 emitted (resend fuel cfg t (s + 1) st1 out1) = out1 ++ rs /\
                 Forall (fun p => exists k, s <= k < next_to_send st /\
                                            1 <= k <= total_segs cfg /\
                                            flag (acked st) k = false /\ p = data_pkt cfg k) rs).
    { intros st1 out1 Hinv1 Ha Hn.
      destruct (IH (s + 1) st1 out1 Hinv1 ltac:(lia)) as (rs & Hrs & Hall).
      exists rs. split; [exact Hrs|].
      rewrite Forall_forall in *. intros p Hp.
      destruct (Hall p Hp) as (k & Hk & Hr & Hf & ->). exists k. rewrite Ha, Hn in *.
      split_and!; auto; lia. }
    destruct ((s =? 0) || (total_segs cfg <? s)) eqn:Hrange; [now apply Hwiden|].
    apply orb_false_iff in Hrange as [_ H1]. apply Z.ltb_ge in H1.
    destruct (flag (acked st) s) eqn:Hacked; [now apply Hwiden|].
    destruct (retries cfg <=? cell 0 (tx_cnt st) s) eqn:Hr.
    { exists []. cbn. rewrite app_nil_r. split; [reflexivity | constructor]. }
    apply Z.leb_gt in Hr.
    destruct (timed_out cfg t st s); [|now apply Hwiden].
    pose proof (count_resent_inv cfg t s st Hinv ltac:(lia) Hlt Hr) as Hinv1.
    destruct (Hwiden (count_resent t s st) (out ++ [data_pkt cfg s]) Hinv1 eq_refl eq_refl)
      as (rs & Hrs & Hall).
    exists (data_pkt cfg s :: rs). split.
    + rewrite Hrs, <- app_assoc. reflexivity.
    + constructor; [|exact Hall]. exists s. split_and!; auto; lia.
Qed.

(** The packets of one iteration: DATA packets of segments of the input,
    all below [base + win]. *)
Lemma iteration_emits cfg e st :
  total_segs cfg + 1 < 2 ^ 31 -> inv cfg st -> paced cfg st ->
  Forall (fun p => exists k, 1 <= k <= total_segs cfg /\ k < base st + win cfg /\
                             p = data_pkt cfg k)
         (emitted (iteration cfg e st)).
Proof.
  intros Hsegs Hinv Hp. unfold iteration.
  assert (Hsegs' : total_segs cfg + 1 < 2 ^ 32) by lia.
  pose proof (send_new_spec cfg e Hsegs' (loop_fuel (total_segs cfg) (next_to_send st))
                            st [] Hinv) as Hs1.
  pose proof (send_new_exact cfg e Hsegs (loop_fuel (total_segs cfg) (next_to_send st))
                             st [] Hinv ltac:(lia)) as Hx1.
  destruct (send_new (loop_fuel (total_segs cfg) (next_to_send st)) cfg e st [])
    as [st1 out1].
  cbn [fst snd] in Hs1, Hx1. cbv zeta in Hx1.
  destruct Hs1 as (I1 & A1 & B1 & N1 & T1). destruct Hx1 as (O1 & N1' & _).
  pose proof (recv_ack_inv cfg e st1 Hsegs' I1) as I2.
  destruct (recv_ack_frame cfg e st1 Hsegs' I1) as (_ & _ & N2 & B2 & _).
  set (st2 := recv_ack cfg e st1) in *.
  pose proof I2 as (_ & _ & _ & (Hb2 & _) & _).
  pose proof Hinv as (_ & _ & _ & (Hb & _) & Hn & _).
  destruct (resend_emits cfg (now_s (now e)) Hsegs' (Z.to_nat (next_to_send st2 - base st2))
                         (base st2) st2 out1 I2 ltac:(lia)) as (rs & Hrs & Hall).
  rewrite Hrs. apply Forall_app. split.
  - rewrite O1. cbn [app]. apply Forall_forall. intros p Hin.
    apply in_map_iff in Hin as (k & <- & Hk).
    apply list_elem_of_In, elem_of_seqZ in Hk. unfold send_limit in Hk. exists k. split_and!; auto; lia.
  - rewrite Forall_forall in *. intros p Hin.
    destruct (Hall p Hin) as (k & Hk & Hr & _ & ->). exists k.
    unfold paced, send_limit in *. split_and!; auto; lia.
Qed.

Lemma iteration_paced cfg e st st' out :
  total_segs cfg + 1 < 2 ^ 31 -> inv cfg st -> paced cfg st ->
  iteration cfg e st = Next st' out -> paced cfg st'.
Proof.
  intros Hsegs Hinv Hp H. unfold iteration in H.
  assert (Hsegs' : total_segs cfg + 1 < 2 ^ 32) by lia.
  pose proof (send_new_spec cfg e Hsegs' (loop_fuel (total_segs cfg) (next_to_send st))
                            st [] Hinv) as Hs1.
  pose proof (send_new_exact cfg e Hsegs (loop_fuel (total_segs cfg) (next_to_send st))
                             st [] Hinv ltac:(lia)) as Hx1.
  destruct (send_new (loop_fuel (total_segs cfg) (next_to_send st)) cfg e st [])
    as [st1 out1].
  cbn [fst snd] in Hs1, Hx1. cbv zeta in Hx1.
  destruct Hs1 as (I1 & A1 & B1 & N1 & T1). destruct Hx1 as (_ & N1' & _).
  pose proof (recv_ack_inv cfg e st1 Hsegs' I1) as I2.
  destruct (recv_ack_frame cfg e st1 Hsegs' I1) as (_ & _ & N2 & B2 & _).
  set (st2 := recv_ack cfg e st1) in *.
  pose proof I2 as (_ & _ & _ & (Hb2 & _) & _).
  destruct (resend_spec cfg (now_s (now e)) Hsegs' _ (base st2) st2 out1 st' out I2 ltac:(lia) H)
    as (_ & _ & B3 & N3 & _).
  unfold paced, send_limit in *. lia.
Qed.

Lemma bulk_paced cfg :
  total_segs cfg + 1 < 2 ^ 31 ->
  forall envs st st',
    inv cfg st -> paced cfg st -> reached (bulk cfg envs st) = Some st' -> paced cfg st'.
Proof.
  intros Hsegs envs. induction envs as [|e envs IH]; intros st st' Hinv Hp H; cbn [bulk] in H.
  - destruct (base st <=? total_segs cfg); injection H as <-; exact Hp.
  - destruct (base st <=? total_segs cfg); [|injection H as <-; exact Hp].
    destruct (iteration cfg e st) as [st1 o1|c o1] eqn:Hit; [|discriminate].
    destruct (iteration_spec cfg e st st1 o1 ltac:(lia) Hinv Hit) as (I1 & _).
    assert (H' : reached (bulk cfg envs st1) = Some st')
      by (destruct (bulk cfg envs st1); exact H).
    apply (IH st1 st' I1 (iteration_paced cfg e st st1 o1 Hsegs Hinv Hp Hit) H').
Qed.

Lemma init_paced cfg : paced cfg (init cfg).
Proof. unfold paced, init. cbn. pose proof (win_range cfg). lia. Qed.

(** X13.  The window: with [win] the window the sender uses (between 1 and
    256), in every state of the main loop [next_to_send <= base + win], every
    segment counted as sent and not acknowledged lies in
    [base, base + win), and every packet an iteration sends from that state
    is the DATA packet of a segment of the input below [base + win]. *)
Theorem window_is_respected (cfg : config) (envs : list env) (st : state) :
  total_segs cfg + 1 < 2 ^ 31 ->
  reached (bulk cfg envs (init cfg)) = Some st ->
  1 <= win cfg <= 256 /\
  next_to_send st <= base st + win cfg /\
  (forall k, 1 <= k <= total_segs cfg -> outstanding st k ->
             base st <= k < base st + win cfg) /\
  (forall e p, In p (emitted (iteration cfg e st)) ->
               exists k, 1 <= k <= total_segs cfg /\ k < base st + win cfg /\
                         p = data_pkt cfg k).
Proof.
  intros Hsegs Hreach.
  assert (Hsegs' : total_segs cfg + 1 < 2 ^ 32) by lia.
  pose proof (sender_init_inv cfg Hsegs') as Hinv0.
  destruct (bulk_spec cfg Hsegs' envs (init cfg) st Hinv0 Hreach) as (Hinv & _).
  pose proof (bulk_paced cfg Hsegs envs (init cfg) st Hinv0 (init_paced cfg) Hreach) as Hp.
  split; [apply win_range|]. split; [exact Hp|]. split.
  - intros k Hk [Hsent Hun].
    destruct Hinv as (_ & _ & _ & (Hb & Hbelow & _) & Hn & _ & Hzero).
    assert (Hlt : k < next_to_send st).
    { destruct (Z_lt_le_dec k (next_to_send st)) as [?|Hge]; [assumption|].
      rewrite (Hzero k Hge) in Hsent. lia. }
    assert (Hge : base st <= k).
    { destruct (Z_le_gt_dec (base st) k) as [?|Hgt]; [assumption|].
      rewrite (Hbelow k) in Hun by lia. discriminate. }
    unfold paced in Hp. lia.
  - intros e p Hin.
    pose proof (iteration_emits cfg e st Hsegs Hinv Hp) as Hall.
    rewrite Forall_forall in Hall. exact (Hall p Hin).
Qed.

Lemma window_is_respected_witness :
  let cfg := Scenario.cfg6 in
  let envs := [Scenario.env_ack 1 0] in
  let st := mkState [false; true; false; false; false; false; false]
                    (map now_s [0; 5; 5; 5; 5; 0; 0]) [0; 1; 1; 1; 1; 0; 0] 2 5 3 in
  (total_segs cfg + 1 < 2 ^ 31 /\ reached (bulk cfg envs (init cfg)) = Some st /\
   1 <= 4 <= total_segs cfg /\ outstanding st 4) /\
  next_to_send st <= base st + win cfg /\ base st <= 4 < base st + win cfg.
Proof.
  intros cfg envs st.
  assert (H1 : total_segs cfg + 1 < 2 ^ 31) by (vm_compute; reflexivity).
  assert (H2 : reached (bulk cfg envs (init cfg)) = Some st) by (vm_compute; reflexivity).
  assert (H3 : 1 <= 4 <= total_segs cfg) by (vm_compute; split; discriminate).
  assert (H4 : outstanding st 4) by (split; vm_compute; reflexivity).
  split; [by_hyps|].
  destruct (window_is_respected cfg envs st H1 H2) as (_ & Hp & Hout & _).
  split; [exact Hp | exact (Hout 4 H3 H4)].
Defined.


(** X14.  Step 1 of an iteration hands to [sendmsg], in increasing order and
    once each, exactly the segments from [next_to_send] up to the first one
    beyond the input or beyond [base + win - 1], and leaves [next_to_send]
    there; a segment [sendmsg] took has its count raised by one and its time
    stamp set, one it refused is passed over with count and stamp as they
    were; [base] and the acknowledgements are not touched. *)
Theorem new_segments_fill_the_window (cfg : config) (e : env) (st : state) :
  total_segs cfg + 1 < 2 ^ 31 -> inv cfg st ->
  let lim := send_limit cfg st in
  let r := send_new (loop_fuel (total_segs cfg) (next_to_send st)) cfg e st [] in
  snd r = map (data_pkt cfg) (seqZ (next_to_send st) (lim - next_to_send st)) /\
  next_to_send (fst r) = Z.max (next_to_send st) lim /\
  base (fst r) = base st /\ acked (fst r) = acked st /\
  (forall k, cell 0 (tx_cnt (fst r)) k
             = if (next_to_send st <=? k) && (k <? lim) && send_ok e k
               then cell 0 (tx_cnt st) k + 1 else cell 0 (tx_cnt st) k) /\
  (forall k, cell PrimFloat.zero (sent_ts (fst r)) k
             = if (next_to_send st <=? k) && (k <? lim) && send_ok e k
               then now_s (clock e k) else cell PrimFloat.zero (sent_ts st) k).
Proof.
  intros Hsegs Hinv lim r.
  destruct (send_new_exact cfg e Hsegs (loop_fuel (total_segs cfg) (next_to_send st))
                           st [] Hinv ltac:(lia)) as (H1 & H2 & H3 & H4).
  destruct (send_new_spec cfg e ltac:(lia) (loop_fuel (total_segs cfg) (next_to_send st))
                          st [] Hinv) as (_ & A1 & B1 & _).
  split_and!; assumption.
Qed.

Lemma new_segments_fill_the_window_witness :
  let cfg := Scenario.cfg6 in
  let e := Sender.mkEnv (fun k => negb (k =? 2)) (fun _ => 5) None [] 7 in
  let r := send_new (loop_fuel (total_segs cfg) 1) cfg e (init cfg) [] in
  (total_segs cfg + 1 < 2 ^ 31 /\ inv cfg (init cfg)) /\
  snd r = [data_pkt cfg 1; data_pkt cfg 2; data_pkt cfg 3; data_pkt cfg 4] /\
  next_to_send (fst r) = 5 /\ cell 0 (tx_cnt (fst r)) 2 = 0 /\ cell 0 (tx_cnt (fst r)) 3 = 1.
Proof.
  intros cfg e r.
  assert (H1 : total_segs cfg + 1 < 2 ^ 31) by (vm_compute; reflexivity).
  assert (H2 : inv cfg (init cfg)) by (apply sender_init_inv; vm_compute; reflexivity).
  split; [split; assumption|].
  destruct (new_segments_fill_the_window cfg e (init cfg) H1 H2) as (Ho & Hn & _ & _ & Ht & _).
  split; [exact Ho|]. split; [exact Hn|].
  split; [exact (Ht 2) | exact (Ht 3)].
Defined.

(** *** The retransmission scan *)

Lemma filter_agree {A} (P Q : A -> Prop) `{!forall x, Decision (P x)}
      `{!forall x, Decision (Q x)} (l : list A) :
  (forall x, x ∈ l -> P x <-> Q x) -> filter P l = filter Q l.
Proof.
  induction l as [|x l IH]; intros Hpq; [reflexivity|].
  rewrite !filter_cons.
  rewrite IH by (intros y Hy; apply Hpq; now apply list_elem_of_further).
  pose proof (Hpq x ltac:(apply list_elem_of_here)) as Hx.
  destruct (decide (P x)), (decide (Q x)); tauto.
Qed.

Lemma due_count_resent cfg t s st k :
  1 <= s -> k <> s -> due cfg t (count_resent t s st) k = due cfg t st k.
Proof.
  intros Hs Hne. unfold due, timed_out. cbn [count_resent acked sent_ts].
  now rewrite cell_insert_other.
Qed.

Lemma range_cons s n k :
  s < n -> k <> s -> (s + 1 <=? k) && (k <? n) = (s <=? k) && (k <? n).
Proof.
  intros Hs Hne.
  destruct (Z.leb_spec (s + 1) k), (Z.leb_spec s k); try reflexivity; lia.
Qed.

Lemma resend_exact cfg t :
  total_segs cfg + 1 < 2 ^ 32 ->
  forall fuel s st out st' out',
    inv cfg st -> 1 <= s -> (Z.to_nat (next_to_send st - s) <= fuel)%nat ->
    resend fuel cfg t s st out = Next st' out' ->
    out' = out ++ map (data_pkt cfg)
                      (filter (fun k => due cfg t st k = true)
                              (seqZ s (next_to_send st - s))) /\
    (forall k, s <= k < next_to_send st -> flag (acked st) k = false ->
               cell 0 (tx_cnt st) k < retries cfg) /\
    (forall k, cell 0 (tx_cnt st') k
               = if (s <=? k) && (k <? next_to_send st) && due cfg t st k
                 then cell 0 (tx_cnt st) k + 1 else cell 0 (tx_cnt st) k) /\
    (forall k, cell PrimFloat.zero (sent_ts st') k
               = if (s <=? k) && (k <? next_to_send st) && due cfg t st k
                 then t else cell PrimFloat.zero (sent_ts st) k).
Proof.
  intros Hsegs fuel. induction fuel as [|fuel IH]; intros s st out st' out' Hinv Hs Hfuel H.
  - cbn [resend] in H. injection H as <- <-.
    rewrite seqZ_nil by lia. cbn. rewrite app_nil_r.
    split_and!; [reflexivity | intros; lia | |]; intros k;
      (replace ((s <=? k) && (k <? next_to_send st)) with false;
       [reflexivity | symmetry; apply andb_false_iff;
                      destruct (Z_le_gt_dec s k);
                      [right; apply Z.ltb_ge; lia | left; apply Z.leb_gt; lia]]).
  - rewrite resend_S in H.
    destruct (s <? next_to_send st) eqn:Hlt.
    2:{ apply Z.ltb_ge in Hlt. injection H as <- <-.
        rewrite seqZ_nil by lia. cbn. rewrite app_nil_r.
        split_and!; [reflexivity | intros; lia | |]; intros k;
          (replace ((s <=? k) && (k <? next_to_send st)) with false;
           [reflexivity | symmetry; apply andb_false_iff;
                          destruct (Z_le_gt_dec s k);
                          [right; apply Z.ltb_ge; lia | left; apply Z.leb_gt; lia]]). }
    apply Z.ltb_lt in Hlt.
    pose proof Hinv as (_ & Ls & Lt & _ & Hnext & Hcnt & _).
    rewrite (u32_small (s + 1)) in H by lia.
    replace ((s =? 0) || (total_segs cfg <? s)) with false in H
      by (symmetry; apply orb_false_iff; split; [apply Z.eqb_neq | apply Z.ltb_ge]; lia).
    assert (Hseq : seqZ s (next_to_send st - s)
                   = s :: seqZ (s + 1) (next_to_send st - (s + 1))).
    { rewrite seqZ_cons by lia. do 2 f_equal; lia. }
    (* the turn leaves the state as it is: [s] is not due *)
    assert (Hskip : due cfg t st s = false ->
                    (flag (acked st) s = false -> cell 0 (tx_cnt st) s < retries cfg) ->
                    resend fuel cfg t (s + 1) st out = Next st' out' ->
                    out' = out ++ map (data_pkt cfg)
                                      (filter (fun k => due cfg t st k = true)
                                              (seqZ s (next_to_send st - s))) /\
                    (forall k, s <= k < next_to_send st -> flag (acked st) k = false ->
                               cell 0 (tx_cnt st) k < retries cfg) /\
                    (forall k, cell 0 (tx_cnt st') k
                               = if (s <=? k) && (k <? next_to_send st) && due cfg t st k
                                 then cell 0 (tx_cnt st) k + 1 else cell 0 (tx_cnt st) k) /\
                    (forall k, cell PrimFloat.zero (sent_ts st') k
                               = if (s <=? k) && (k <? next_to_send st) && due cfg t st k
                                 then t else cell PrimFloat.zero (sent_ts st) k)).
    { intros Hnd Hex H'.
      destruct (IH (s + 1) st out st' out' Hinv ltac:(lia) ltac:(lia) H')
        as (G1 & G2 & G3 & G4).
      split_and!.
      - rewrite G1, Hseq, filter_cons_False by (rewrite Hnd; discriminate). reflexivity.
      - intros k Hk Hun. destruct (Z.eq_dec k s) as [->|Hne]; [now apply Hex|].
        apply G2; [lia | exact Hun].
      - intros k. rewrite G3. destruct (Z.eq_dec k s) as [->|Hne].
        + rewrite Hnd, !andb_false_r. reflexivity.
        + now rewrite range_cons.
      - intros k. rewrite G4. destruct (Z.eq_dec k s) as [->|Hne].
        + rewrite Hnd, !andb_false_r. reflexivity.
        + now rewrite range_cons. }
    destruct (flag (acked st) s) eqn:Hacked.
    { apply Hskip; [unfold due; now rewrite Hacked | discriminate | exact H]. }
    destruct (retries cfg <=? cell 0 (tx_cnt st) s) eqn:Hr; [discriminate|].
    apply Z.leb_gt in Hr.
    destruct (timed_out cfg t st s) eqn:Hrto.
    2:{ apply Hskip; [unfold due; now rewrite Hrto, andb_false_r | intros _; exact Hr | exact H]. }
    assert (Hdue : due cfg t st s = true) by (unfold due; now rewrite Hacked, Hrto).
    pose proof (count_resent_inv cfg t s st Hinv ltac:(lia) Hlt Hr) as Hinv1.
    destruct (IH (s + 1) (count_resent t s st) _ st' out' Hinv1 ltac:(lia)
                 ltac:(cbn [count_resent next_to_send]; lia) H)
      as (G1 & G2 & G3 & G4).
    change (next_to_send (count_resent t s st)) with (next_to_send st) in G1, G2, G3, G4.
    change (acked (count_resent t s st)) with (acked st) in G2.
    assert (Htx : forall k, cell 0 (tx_cnt (count_resent t s st)) k
                            = if k =? s then cell 0 (tx_cnt st) s + 1 else cell 0 (tx_cnt st) k).
    { intros k. cbn [count_resent tx_cnt]. destruct (Z.eqb_spec k s) as [->|Hne].
      - now rewrite cell_insert_eq by lia.
      - now rewrite cell_insert_other by lia. }
    assert (Hts : forall k, cell PrimFloat.zero (sent_ts (count_resent t s st)) k
                            = if k =? s then t else cell PrimFloat.zero (sent_ts st) k).
    { intros k. cbn [count_resent sent_ts]. destruct (Z.eqb_spec k s) as [->|Hne].
      - now rewrite cell_insert_eq by lia.
      - now rewrite cell_insert_other by lia. }
    split_and!.
    + rewrite G1, Hseq, filter_cons_True by exact Hdue.
      rewrite <- app_assoc. cbn [map app]. do 3 f_equal.
      apply filter_agree. intros k Hk. apply elem_of_seqZ in Hk.
      rewrite due_count_resent by lia. reflexivity.
    + intros k Hk Hun. destruct (Z.eq_dec k s) as [->|Hne]; [exact Hr|].
      specialize (G2 k ltac:(lia) Hun). rewrite Htx in G2.
      now replace (k =? s) with false in G2 by (symmetry; now apply Z.eqb_neq).
    + intros k. rewrite G3, Htx. destruct (Z.eqb_spec k s) as [->|Hne].
      * replace (s + 1 <=? s) with false by (symmetry; apply Z.leb_gt; lia).
        replace (s <=? s) with true by (symmetry; apply Z.leb_le; lia).
        replace (s <? next_to_send st) with true by (symmetry; apply Z.ltb_lt; lia).
        rewrite Hdue. reflexivity.
      * rewrite due_count_resent, range_cons by lia. reflexivity.
    + intros k. rewrite G4, Hts. destruct (Z.eqb_spec k s) as [->|Hne].
      * replace (s + 1 <=? s) with false by (symmetry; apply Z.leb_gt; lia).
        replace (s <=? s) with true by (symmetry; apply Z.leb_le; lia).
        replace (s <? next_to_send st) with true by (symmetry; apply Z.ltb_lt; lia).
        rewrite Hdue. reflexivity.
      * rewrite due_count_resent, range_cons by lia. reflexivity.
Qed.


(** X15.  A retransmission scan that runs to its end has sent, after what the
    iteration sent before and in increasing order, the DATA packets of
    exactly the segments of [base, next_to_send) that are not acknowledged
    and for which [now - sent_ts[s] >= rto_ms / 1000.0] holds in [double]
    arithmetic; those segments have
    their count raised by one and their time stamp set to the time of the
    scan, every other count and stamp is as before, and no unacknowledged
    segment of the range had used up its retries. *)
Theorem scan_resends_what_is_due (cfg : config) (t : PrimFloat.float) (st st' : state)
        (out out' : list tx) :
  total_segs cfg + 1 < 2 ^ 32 -> inv cfg st ->
  resend (Z.to_nat (next_to_send st - base st)) cfg t (base st) st out = Next st' out' ->
  out' = out ++ map (data_pkt cfg)
                    (filter (fun k => due cfg t st k = true)
                            (seqZ (base st) (next_to_send st - base st))) /\
  (forall k, base st <= k < next_to_send st -> flag (acked st) k = false ->
             cell 0 (tx_cnt st) k < retries cfg) /\
  (forall k, cell 0 (tx_cnt st') k
             = if (base st <=? k) && (k <? next_to_send st) && due cfg t st k
               then cell 0 (tx_cnt st) k + 1 else cell 0 (tx_cnt st) k) /\
  (forall k, cell PrimFloat.zero (sent_ts st') k
             = if (base st <=? k) && (k <? next_to_send st) && due cfg t st k
               then t else cell PrimFloat.zero (sent_ts st) k) /\
  acked st' = acked st /\ base st' = base st /\ next_to_send st' = next_to_send st.
Proof.
  intros Hsegs Hinv H.
  pose proof Hinv as (_ & _ & _ & (Hb & _) & _).
  destruct (resend_exact cfg t Hsegs (Z.to_nat (next_to_send st - base st)) (base st) st out
                         st' out' Hinv ltac:(lia) ltac:(lia) H)
    as (G1 & G2 & G3 & G4).
  destruct (resend_spec cfg t Hsegs _ (base st) st out st' out' Hinv ltac:(lia) H)
    as (_ & A & B & N' & _).
  split_and!; assumption.
Qed.

Lemma scan_resends_what_is_due_witness :
  let cfg := Scenario.cfg_of 4 in
  let st := mkState [false; true; false; true; false] (map now_s [0; 0; 0; 0; 399999000])
                    [0; 1; 1; 1; 1] 2 5 2 in
  let st' := mkState [false; true; false; true; false] (map now_s [0; 0; 400000000; 0; 399999000])
                     [0; 1; 2; 1; 1] 2 5 2 in
  (total_segs cfg + 1 < 2 ^ 32 /\ inv cfg st /\
   resend (Z.to_nat (next_to_send st - base st)) cfg (now_s 400000000) (base st) st []
   = Next st' [data_pkt cfg 2]) /\
  [data_pkt cfg 2]
  = map (data_pkt cfg) (filter (fun k => due cfg (now_s 400000000) st k = true) (seqZ 2 3)) /\
  cell 0 (tx_cnt st') 2 = cell 0 (tx_cnt st) 2 + 1 /\
  cell 0 (tx_cnt st') 4 = cell 0 (tx_cnt st) 4.
Proof.
  intros cfg st st'.
  assert (H1 : total_segs cfg + 1 < 2 ^ 32) by (vm_compute; reflexivity).
  assert (H2 : inv cfg st).
  { set (e0 := Sender.mkEnv (fun _ => true) (fun k => if k =? 4 then 399999000 else 0)
                            (Some (Scenario.ack0 1 2)) [] 1000).
    assert (Hr : reached (bulk cfg [e0] (init cfg)) = Some st) by (vm_compute; reflexivity).
    exact (proj1 (bulk_spec cfg H1 [e0] (init cfg) st (sender_init_inv cfg H1) Hr)). }
  assert (H3 : resend (Z.to_nat (next_to_send st - base st)) cfg (now_s 400000000) (base st) st []
               = Next st' [data_pkt cfg 2]) by (vm_compute; reflexivity).
  split; [by_hyps|].
  destruct (scan_resends_what_is_due cfg (now_s 400000000) st st' [] _ H1 H2 H3)
    as (Ho & _ & Ht & _).
  split; [exact Ho|]. split; [exact (Ht 2) | exact (Ht 4)].
Defined.

End WindowFacts.

(** ** The sender as a whole *)

Module SenderRunFacts.
Import Wire WireFacts Sender SenderFacts Pacing.

(** *** The packets of the main loop *)

Lemma send_new_emits cfg e :
  total_segs cfg + 1 < 2 ^ 32 ->
  forall fuel st out,
    inv cfg st ->
    exists rs, snd (send_new fuel cfg e st out) = out ++ rs /\ Forall (segment_pkt cfg) rs.
Proof.
  intros Hsegs fuel. induction fuel as [|fuel IH]; intros st out Hinv.
  - exists []. cbn. rewrite app_nil_r. split; [reflexivity | constructor].
  - rewrite send_new_S.
    destruct ((next_to_send st <=? total_segs cfg)
              && (s32 (next_to_send st - base st) <? win cfg)) eqn:Hc.
    2:{ exists []. cbn. rewrite app_nil_r. split; [reflexivity | constructor]. }
    apply andb_true_iff in Hc as [Hle _]. apply Z.leb_le in Hle.
    pose proof Hinv as (_ & _ & _ & _ & Hnext & _).
    rewrite (u32_small (next_to_send st + 1)) by lia.
    destruct (IH _ (out ++ [data_pkt cfg (next_to_send st)])
                 (count_sent_inv cfg e st Hsegs Hinv Hle)) as (rs & Hrs & Hall).
    exists (data_pkt cfg (next_to_send st) :: rs). split.
    + rewrite Hrs, <- app_assoc. reflexivity.
    + constructor; [|exact Hall]. exists (next_to_send st). split; [lia | reflexivity].
Qed.

Lemma iteration_segments cfg e st :
  total_segs cfg + 1 < 2 ^ 32 -> inv cfg st ->
  Forall (segment_pkt cfg) (emitted (iteration cfg e st)).
Proof.
  intros Hsegs Hinv. unfold iteration.
  pose proof (send_new_spec cfg e Hsegs (loop_fuel (total_segs cfg) (next_to_send st))
                            st [] Hinv) as Hs1.
  destruct (send_new_emits cfg e Hsegs (loop_fuel (total_segs cfg) (next_to_send st))
                           st [] Hinv) as (rs1 & Hrs1 & Hall1).
  destruct (send_new (loop_fuel (total_segs cfg) (next_to_send st)) cfg e st [])
    as [st1 out1].
  cbn [fst snd] in Hs1, Hrs1. cbn [app] in Hrs1. subst out1.
  destruct Hs1 as (I1 & _).
  pose proof (recv_ack_inv cfg e st1 Hsegs I1) as I2.
  set (st2 := recv_ack cfg e st1) in *.
  pose proof I2 as (_ & _ & _ & (Hb2 & _) & _).
  destruct (WindowFacts.resend_emits cfg (now_s (now e)) Hsegs (Z.to_nat (next_to_send st2 - base st2))
                                     (base st2) st2 rs1 I2 ltac:(lia)) as (rs & Hrs & Hall).
  rewrite Hrs. apply Forall_app. split; [exact Hall1|].
  rewrite Forall_forall in *. intros p Hp.
  destruct (Hall p Hp) as (k & _ & Hk & _ & ->). exists k. split; [exact Hk | reflexivity].
Qed.

Lemma transmitted_emit out p : transmitted (emit out p) = out ++ transmitted p.
Proof. destruct p; reflexivity. Qed.

Lemma bulk_segments cfg :
  total_segs cfg + 1 < 2 ^ 32 ->
  forall envs st, inv cfg st -> Forall (segment_pkt cfg) (transmitted (bulk cfg envs st)).
Proof.
  intros Hsegs envs. induction envs as [|e envs IH]; intros st Hinv; cbn [bulk].
  - destruct (base st <=? total_segs cfg); constructor.
  - destruct (base st <=? total_segs cfg); [|constructor].
    pose proof (iteration_segments cfg e st Hsegs Hinv) as Hit.
    destruct (iteration cfg e st) as [st1 o1|c o1] eqn:E; cbn [emitted] in Hit.
    + rewrite transmitted_emit. apply Forall_app. split; [exact Hit|].
      apply IH. now destruct (iteration_spec cfg e st st1 o1 Hsegs Hinv E).
    + exact Hit.
Qed.

Lemma segment_pkt_sends cfg p : segment_pkt cfg p -> Transfer.sends cfg p = true.
Proof.
  intros (k & Hk & ->). unfold data_pkt. cbn [Transfer.sends].
  rewrite !andb_true_iff, !Z.leb_le, !Z.eqb_eq. split_and!; try reflexivity; lia.
Qed.

(** *** The whole program *)

Lemma knock_shape pkt R rs :
  exists n : nat,
    snd (knock pkt R 0 rs []) = replicate n pkt /\ Z.of_nat n <= Z.max R 0 /\
    (fst (knock pkt R 0 rs []) = Some true -> 0 < R ->
     exists r, r ∈ rs /\ is_ack r = true).
Proof.
  destruct (HandshakeFacts.knock_attempts pkt R rs 0 []) as (n & Hout & _ & Hb & _ & Hres).
  exists n. rewrite Z.sub_0_r in Hb. cbn [app] in Hout.
  split; [exact Hout|]. split; [exact Hb|].
  intros Hok HR. rewrite Hok in Hres.
  destruct Hres as [[? _]|(r & _ & Hr & Ha)]; [lia|].
  exists r. split; [|exact Ha]. eapply list_elem_of_lookup_2. exact Hr.
Qed.

(** X16.  Whatever the network does, the sender's packets come in three
    phases: START (with the size of the input) at most [retries] times, then
    DATA packets of segments of the input, then END (with sequence number
    [total_segs + 1]) at most [retries] times; every one of them is a packet
    the receiver-side theorems call genuine; and an END is sent only after
    the main loop has ended with every segment acknowledged. *)
Theorem sender_sends_start_data_end (cfg : config) (hs : list answer) (envs : list env)
        (fin : list answer) :
  total_segs cfg + 1 < 2 ^ 32 ->
  exists (a b : nat) (ds : list tx),
    snd (main cfg hs envs fin)
    = replicate a (TxStart (total_bytes cfg)) ++ ds
      ++ replicate b (TxEnd (u32 (total_segs cfg + 1))) /\
    Z.of_nat a <= Z.max (retries cfg) 0 /\ Z.of_nat b <= Z.max (retries cfg) 0 /\
    Forall (segment_pkt cfg) ds /\
    (forall p, In p (snd (main cfg hs envs fin)) -> Transfer.sends cfg p = true) /\
    (b <> 0%nat ->
     exists st, bulk cfg envs (init cfg) = Completed st ds /\
                forall k, 1 <= k <= total_segs cfg -> flag (acked st) k = true).
Proof.
  intros Hsegs.
  set (S := TxStart (total_bytes cfg)). set (E := TxEnd (u32 (total_segs cfg + 1))).
  assert (Hshape : forall (a b : nat) ds,
             Z.of_nat a <= Z.max (retries cfg) 0 -> Z.of_nat b <= Z.max (retries cfg) 0 ->
             Forall (segment_pkt cfg) ds ->
             (b <> 0%nat ->
              exists st, bulk cfg envs (init cfg) = Completed st ds /\
                         forall k, 1 <= k <= total_segs cfg -> flag (acked st) k = true) ->
             exists (a' b' : nat) (ds' : list tx),
               replicate a S ++ ds ++ replicate b E
               = replicate a' S ++ ds' ++ replicate b' E /\
               Z.of_nat a' <= Z.max (retries cfg) 0 /\ Z.of_nat b' <= Z.max (retries cfg) 0 /\
               Forall (segment_pkt cfg) ds' /\
               (forall p, In p (replicate a S ++ ds ++ replicate b E) ->
                          Transfer.sends cfg p = true) /\
               (b' <> 0%nat ->
                exists st, bulk cfg envs (init cfg) = Completed st ds' /\
                           forall k, 1 <= k <= total_segs cfg -> flag (acked st) k = true)).
  { intros a b ds Ha Hb Hds Hend. exists a, b, ds. split_and!; auto.
    intros p Hin.
    apply in_app_or in Hin as [Hin|Hin]; [|apply in_app_or in Hin as [Hin|Hin]].
    - apply list_elem_of_In, elem_of_replicate in Hin as [-> _]. cbn. apply Z.eqb_refl.
    - rewrite Forall_forall in Hds. apply segment_pkt_sends, Hds. exact Hin.
    - apply list_elem_of_In, elem_of_replicate in Hin as [-> _]. cbn. apply Z.eqb_refl. }
  assert (Hno : forall b : nat, b = 0%nat -> b <> 0%nat ->
             exists st, bulk cfg envs (init cfg) = Completed st [] /\
                        forall k, 1 <= k <= total_segs cfg -> flag (acked st) k = true)
    by (intros b -> Hb; now destruct Hb).
  unfold main. fold S. fold E.
  destruct (mtu cfg <? 576).
  { cbn [snd]. change (@nil tx) with (replicate 0 S ++ [] ++ replicate 0 E).
    apply Hshape; [lia | lia | constructor | now apply Hno]. }
  destruct (total_bytes cfg =? 0).
  { cbn [snd]. change (@nil tx) with (replicate 0 S ++ [] ++ replicate 0 E).
    apply Hshape; [lia | lia | constructor | now apply Hno]. }
  destruct (knock_shape S (retries cfg) hs) as (a & Ha & Hab & _).
  destruct (knock S (retries cfg) 0 hs []) as [r1 o1].
  cbn [fst snd] in Ha. subst o1.
  assert (Hstop : exists (a' b' : nat) (ds' : list tx),
             replicate a S = replicate a' S ++ ds' ++ replicate b' E /\
             Z.of_nat a' <= Z.max (retries cfg) 0 /\ Z.of_nat b' <= Z.max (retries cfg) 0 /\
             Forall (segment_pkt cfg) ds' /\
             (forall p, In p (replicate a S) -> Transfer.sends cfg p = true) /\
             (b' <> 0%nat ->
              exists st, bulk cfg envs (init cfg) = Completed st ds' /\
                         forall k, 1 <= k <= total_segs cfg -> flag (acked st) k = true)).
  { replace (replicate a S) with (replicate a S ++ [] ++ replicate 0 E)
      by (cbn [replicate app]; apply app_nil_r).
    apply Hshape; [exact Hab | lia | constructor | now apply Hno]. }
  destruct r1 as [[|]|]; [|exact Hstop|exact Hstop]. clear Hstop.
  pose proof (bulk_segments cfg Hsegs envs (init cfg) (sender_init_inv cfg Hsegs)) as Hds.
  destruct (bulk cfg envs (init cfg)) as [st o2|c o2|st o2] eqn:Hbulk;
    cbn [transmitted] in Hds.
  2,3: cbn [snd];
       replace (replicate a S ++ o2) with (replicate a S ++ o2 ++ replicate 0 E)
         by (cbn [replicate]; now rewrite app_nil_r);
       apply Hshape; [exact Hab | lia | exact Hds | intros Hb; now destruct Hb].
  destruct (knock_shape E (retries cfg) fin) as (b & Hb & Hbb & _).
  destruct (knock E (retries cfg) 0 fin []) as [r3 o3].
  cbn [fst snd] in Hb. subst o3.
  assert (Hall : forall k, 1 <= k <= total_segs cfg -> flag (acked st) k = true).
  { intros k Hk.
    pose proof (bulk_completed_base cfg envs (init cfg) st o2 Hbulk) as Hbase.
    assert (Hr : reached (bulk cfg envs (init cfg)) = Some st) by now rewrite Hbulk.
    destruct (bulk_spec cfg Hsegs envs (init cfg) st (sender_init_inv cfg Hsegs) Hr)
      as ((_ & _ & _ & (_ & Hbelow & _) & _) & _).
    apply Hbelow. lia. }
  assert (Hend : exists (a' b' : nat) (ds' : list tx),
             replicate a S ++ o2 ++ replicate b E
             = replicate a' S ++ ds' ++ replicate b' E /\
             Z.of_nat a' <= Z.max (retries cfg) 0 /\ Z.of_nat b' <= Z.max (retries cfg) 0 /\
             Forall (segment_pkt cfg) ds' /\
             (forall p, In p (replicate a S ++ o2 ++ replicate b E) ->
                        Transfer.sends cfg p = true) /\
             (b' <> 0%nat ->
              exists st0, Completed st o2 = Completed st0 ds' /\
                         forall k, 1 <= k <= total_segs cfg -> flag (acked st0) k = true)).
  { apply Hshape; [exact Hab | exact Hbb | exact Hds|].
    intros _. exists st. split; [reflexivity | exact Hall]. }
  destruct r3 as [[|]|]; exact Hend.
Qed.


Lemma sender_sends_start_data_end_witness :
  let cfg := Scenario.cfg1 in
  let hs := [(Some (Scenario.ack0 0 0), [])] in
  let envs := [Scenario.env_rx (Scenario.ack0 1 0); Scenario.env_rx (Scenario.ack0 2 0)] in
  let fin := [(None, []); (Some (Scenario.ack0 2 0), [])] in
  (total_segs cfg + 1 < 2 ^ 32 /\
   snd (main cfg hs envs fin)
   = [TxStart 1500; TxData 1 0 1465; TxData 2 1465 35; TxEnd 3; TxEnd 3] /\
   In (TxData 2 1465 35) (snd (main cfg hs envs fin))) /\
  Transfer.sends cfg (TxData 2 1465 35) = true /\
  exists (a b : nat) (ds : list tx),
    snd (main cfg hs envs fin)
    = replicate a (TxStart (total_bytes cfg)) ++ ds
      ++ replicate b (TxEnd (u32 (total_segs cfg + 1))) /\
    Forall (segment_pkt cfg) ds.
Proof.
  intros cfg hs envs fin.
  assert (H1 : total_segs cfg + 1 < 2 ^ 32) by (vm_compute; reflexivity).
  assert (H2 : snd (main cfg hs envs fin)
               = [TxStart 1500; TxData 1 0 1465; TxData 2 1465 35; TxEnd 3; TxEnd 3])
    by (vm_compute; reflexivity).
  assert (H3 : In (TxData 2 1465 35) (snd (main cfg hs envs fin)))
    by (rewrite H2; cbn; auto).
  split; [by_hyps|].
  destruct (sender_sends_start_data_end cfg hs envs fin H1)
    as (a & b & ds & Hout & _ & _ & Hds & Hgen & _).
  split; [exact (Hgen _ H3)|].
  exists a, b, ds. split; assumption.
Defined.




(** *** What only grows *)

Lemma iteration_next cfg e st st' out :
  total_segs cfg + 1 < 2 ^ 32 -> inv cfg st ->
  iteration cfg e st = Next st' out -> next_to_send st <= next_to_send st'.
Proof.
  intros Hsegs Hinv H. unfold iteration in H.
  pose proof (send_new_spec cfg e Hsegs (loop_fuel (total_segs cfg) (next_to_send st))
                            st [] Hinv) as Hs1.
  destruct (send_new (loop_fuel (total_segs cfg) (next_to_send st)) cfg e st [])
    as [st1 out1].
  cbn [fst] in Hs1. destruct Hs1 as (I1 & _ & _ & N1 & _).
  pose proof (recv_ack_inv cfg e st1 Hsegs I1) as I2.
  destruct (recv_ack_frame cfg e st1 Hsegs I1) as (_ & _ & N2 & _).
  set (st2 := recv_ack cfg e st1) in *.
  pose proof I2 as (_ & _ & _ & (Hb & _) & _).
  destruct (resend_spec cfg (now_s (now e)) Hsegs _ (base st2) st2 out1 st' out I2 ltac:(lia) H)
    as (_ & _ & _ & N3 & _).
  lia.
Qed.

Lemma bulk_next cfg :
  total_segs cfg + 1 < 2 ^ 32 ->
  forall envs st st',
    inv cfg st -> reached (bulk cfg envs st) = Some st' ->
    next_to_send st <= next_to_send st'.
Proof.
  intros Hsegs envs. induction envs as [|e envs IH]; intros st st' Hinv H; cbn [bulk] in H.
  - destruct (base st <=? total_segs cfg); injection H as <-; lia.
  - destruct (base st <=? total_segs cfg); [|injection H as <-; lia].
    destruct (iteration cfg e st) as [st1 o1|c o1] eqn:Hit; [|discriminate].
    destruct (iteration_spec cfg e st st1 o1 Hsegs Hinv Hit) as (I1 & _).
    pose proof (iteration_next cfg e st st1 o1 Hsegs Hinv Hit) as N1.
    assert (H' : reached (bulk cfg envs st1) = Some st')
      by (destruct (bulk cfg envs st1); exact H).
    specialize (IH st1 st' I1 H'). lia.
Qed.

(** X18.  Over any number of iterations of the main loop nothing the sender
    keeps goes back: an acknowledged segment stays acknowledged, no
    transmission count decreases, and [base] and [next_to_send] do not
    decrease; [next_to_send] stays at most [total_segs + 1]. *)
Theorem sender_state_only_grows (cfg : config) (envs : list env) (st st' : state) :
  total_segs cfg + 1 < 2 ^ 32 -> inv cfg st ->
  reached (bulk cfg envs st) = Some st' ->
  (forall k, flag (acked st) k = true -> flag (acked st') k = true) /\
  (forall k, cell 0 (tx_cnt st) k <= cell 0 (tx_cnt st') k) /\
  base st <= base st' /\
  next_to_send st <= next_to_send st' <= total_segs cfg + 1.
Proof.
  intros Hsegs Hinv Hr.
  destruct (bulk_spec cfg Hsegs envs st st' Hinv Hr) as (I & B & A & T).
  pose proof (bulk_next cfg Hsegs envs st st' Hinv Hr) as N.
  destruct I as (_ & _ & _ & _ & Hn & _).
  split; [exact A|]. split; [exact T|]. split; [exact B | lia].
Qed.

Lemma sender_state_only_grows_witness :
  let cfg := Scenario.cfg6 in
  let envs := [Scenario.env_ack 1 2; Scenario.env_silent] in
  let st' := mkState [false; true; false; true; false; false; false]
                     (map now_s [0; 5; 5; 5; 5; 5; 0]) [0; 1; 1; 1; 1; 1; 0] 2 6 3 in
  (total_segs cfg + 1 < 2 ^ 32 /\ inv cfg (init cfg) /\
   reached (bulk cfg envs (init cfg)) = Some st') /\
  cell 0 (tx_cnt (init cfg)) 3 <= cell 0 (tx_cnt st') 3 /\
  base (init cfg) <= base st' /\
  next_to_send (init cfg) <= next_to_send st' <= total_segs cfg + 1.
Proof.
  intros cfg envs st'.
  assert (H1 : total_segs cfg + 1 < 2 ^ 32) by (vm_compute; reflexivity).
  assert (H2 : inv cfg (init cfg)) by (apply sender_init_inv; exact H1).
  assert (H3 : reached (bulk cfg envs (init cfg)) = Some st') by (vm_compute; reflexivity).
  split; [by_hyps|].
  destruct (sender_state_only_grows cfg envs (init cfg) st' H1 H2 H3) as (_ & Ht & Hb & Hn).
  split; [exact (Ht 3)|]. split; assumption.
Defined.

(** *** Datagrams that are not ACKs *)

(** X19.  In the main loop a timeout of [recv], and a datagram that holds a
    header whose type is not ACK or whose [len] is not 12, leave the sender's
    state as it is; in the START and END exchanges a datagram counts as the
    awaited ACK exactly when it has at least 7 bytes and type ACK, whatever
    its [len] and payload. *)
Theorem sender_ignores_what_is_not_an_ack (cfg : config) (e : env) (st : state) :
  (rx e = None -> recv_ack cfg e st = st) /\
  (forall dg,
     rx e = Some dg -> HDR <= Z.of_nat (length dg) ->
     hdr_type dg <> PKT_ACK \/ hdr_len dg <> ACK_LEN ->
     recv_ack cfg e st = st) /\
  (forall dg junk,
     is_ack (Some dg, junk) = (HDR <=? Z.of_nat (length dg)) && (hdr_type dg =? PKT_ACK)).
Proof.
  split_and!.
  - intros Hrx. unfold recv_ack. now rewrite Hrx.
  - intros dg Hrx Hlen Hbad. unfold recv_ack. rewrite Hrx.
    assert (Hn : HDR <= snd (recv_into (raw_buffer 128 (stack e)) 128 dg))
      by (rewrite recv_into_count; unfold HDR in *; lia).
    destruct (header_of_datagram (raw_buffer 128 (stack e)) 128 dg Hn) as (Ht & _ & Hl).
    destruct (recv_into (raw_buffer 128 (stack e)) 128 dg) as [abuf r].
    cbn [fst snd] in *.
    replace (HDR <=? r) with true by (symmetry; now apply Z.leb_le).
    rewrite Ht, Hl.
    destruct Hbad as [Hb|Hb].
    + replace (hdr_type dg =? PKT_ACK) with false by (symmetry; now apply Z.eqb_neq).
      reflexivity.
    + replace (hdr_len dg =? ACK_LEN) with false by (symmetry; now apply Z.eqb_neq).
      now rewrite andb_false_r.
  - intros dg junk. unfold is_ack. cbn [fst snd].
    pose proof (recv_into_count (raw_buffer 64 junk) 64 dg) as Hc.
    destruct (Z_lt_le_dec (Z.of_nat (length dg)) HDR) as [Hshort|Hlong].
    + destruct (recv_into (raw_buffer 64 junk) 64 dg) as [abuf n]. cbn [snd] in Hc.
      replace (HDR <=? n) with false by (symmetry; apply Z.leb_gt; lia).
      replace (HDR <=? Z.of_nat (length dg)) with false by (symmetry; apply Z.leb_gt; lia).
      reflexivity.
    + assert (Hn : HDR <= snd (recv_into (raw_buffer 64 junk) 64 dg))
        by (rewrite Hc; unfold HDR in *; lia).
      destruct (header_of_datagram (raw_buffer 64 junk) 64 dg Hn) as (Ht & _ & _).
      destruct (recv_into (raw_buffer 64 junk) 64 dg) as [abuf n]. cbn [fst snd] in *.
      rewrite Ht.
      replace (HDR <=? n) with true by (symmetry; now apply Z.leb_le).
      replace (HDR <=? Z.of_nat (length dg)) with true by (symmetry; now apply Z.leb_le).
      reflexivity.
Qed.

Lemma sender_ignores_what_is_not_an_ack_witness :
  let cfg := Scenario.cfg0 in
  let dg := Scenario.data0 1 in
  let e := Scenario.env_rx dg in
  (rx e = Some dg /\ HDR <= Z.of_nat (length dg) /\
   (hdr_type dg <> PKT_ACK \/ hdr_len dg <> ACK_LEN)) /\
  recv_ack cfg e (init cfg) = init cfg.
Proof.
  intros cfg dg e.
  assert (H1 : rx e = Some dg) by reflexivity.
  assert (H2 : HDR <= Z.of_nat (length dg)) by (vm_compute; discriminate).
  assert (H3 : hdr_type dg <> PKT_ACK \/ hdr_len dg <> ACK_LEN)
    by (left; vm_compute; discriminate).
  split; [by_hyps|].
  exact (proj1 (proj2 (sender_ignores_what_is_not_an_ack cfg e (init cfg))) dg H1 H2 H3).
Defined.


(** *** The last ACK *)

(** X20.  An ACK whose [cum_ack] is [total_segs] or more ends the main loop
    in the iteration that receives it: after the new segments of step 1
    nothing is retransmitted, the process does not exit whatever the
    transmission counts are, [base] becomes [total_segs + 1] and every
    segment is acknowledged. *)
Theorem final_ack_completes_the_loop (cfg : config) (e : env) (dg : list Byte.byte)
        (st : state) (envs : list env) :
  total_segs cfg + 1 < 2 ^ 32 -> inv cfg st -> base st <= total_segs cfg ->
  rx e = Some dg -> HDR + ACK_LEN <= Z.of_nat (length dg) ->
  hdr_type dg = PKT_ACK -> hdr_len dg = ACK_LEN ->
  total_segs cfg <= rd dg HDR 4 ->
  exists st',
    iteration cfg e st
    = Next st' (snd (send_new (loop_fuel (total_segs cfg) (next_to_send st)) cfg e st [])) /\
    base st' = total_segs cfg + 1 /\
    (forall k, 1 <= k <= total_segs cfg -> flag (acked st') k = true) /\
    bulk cfg (e :: envs) st
    = Completed st' (snd (send_new (loop_fuel (total_segs cfg) (next_to_send st)) cfg e st [])).
Proof.
  intros Hsegs Hinv Hopen Hrx Hlen Hty Hl Hcum.
  pose proof (send_new_spec cfg e Hsegs (loop_fuel (total_segs cfg) (next_to_send st))
                            st [] Hinv) as Hs1.
  assert (Hit : exists st',
             iteration cfg e st
             = Next st' (snd (send_new (loop_fuel (total_segs cfg) (next_to_send st))
                                       cfg e st [])) /\
             base st' = total_segs cfg + 1 /\
             (forall k, 1 <= k <= total_segs cfg -> flag (acked st') k = true)).
  { unfold iteration.
    destruct (send_new (loop_fuel (total_segs cfg) (next_to_send st)) cfg e st [])
      as [st1 out1].
    cbn [fst snd] in *. destruct Hs1 as (I1 & _ & B1 & _).
    rewrite (recv_ack_whole cfg e st1 dg Hrx Hlen Hty Hl).
    destruct (process_ack_spec cfg (rd dg HDR 4) (rd dg (HDR + 4) 8) st1 Hsegs I1)
      as (_ & _ & N2 & _ & Hacked & (Hb2 & Hbelow & Hstop) & Hmono).
    pose proof (process_ack_inv cfg (rd dg HDR 4) (rd dg (HDR + 4) 8) st1 Hsegs I1)
      as (_ & _ & _ & _ & Hn2 & _).
    set (st2 := process_ack cfg (rd dg HDR 4) (rd dg (HDR + 4) 8) st1) in *.
    assert (Hbase : base st2 = total_segs cfg + 1).
    { destruct (Z_le_gt_dec (base st2) (total_segs cfg)) as [Hle|Hgt]; [|lia].
      assert (Hset : flag (acked st2) (base st2) = true).
      { apply Hacked; [lia|]. right. left. lia. }
      rewrite (Hstop Hle) in Hset. discriminate. }
    exists st2. split_and!.
    - replace (Z.to_nat (next_to_send st2 - base st2)) with 0%nat by lia. reflexivity.
    - exact Hbase.
    - intros k Hk. apply Hbelow. lia. }
  destruct Hit as (st' & Hit & Hbase & Hall).
  exists st'. split; [exact Hit|]. split; [exact Hbase|]. split; [exact Hall|].
  cbn [bulk].
  replace (base st <=? total_segs cfg) with true by (symmetry; now apply Z.leb_le).
  rewrite Hit.
  assert (Hdone : bulk cfg envs st' = Completed st' []).
  { destruct envs; cbn [bulk];
      (replace (base st' <=? total_segs cfg) with false
         by (symmetry; apply Z.leb_gt; lia)); reflexivity. }
  rewrite Hdone. cbn [emit]. now rewrite app_nil_r.
Qed.

Lemma final_ack_completes_the_loop_witness :
  let cfg := Scenario.cfg_no_retry in
  let dg := Scenario.ack0 3 0 in
  let e := Scenario.env_rx dg in
  (total_segs cfg + 1 < 2 ^ 32 /\ inv cfg (init cfg) /\ base (init cfg) <= total_segs cfg /\
   rx e = Some dg /\ HDR + ACK_LEN <= Z.of_nat (length dg) /\
   hdr_type dg = PKT_ACK /\ hdr_len dg = ACK_LEN /\ total_segs cfg <= rd dg HDR 4 /\
   snd (send_new (loop_fuel (total_segs cfg) 1) cfg e (init cfg) [])
   = [data_pkt cfg 1; data_pkt cfg 2; data_pkt cfg 3]) /\
  exists st',
    bulk cfg [e] (init cfg)
    = Completed st' (snd (send_new (loop_fuel (total_segs cfg) 1) cfg e (init cfg) [])) /\
    base st' = total_segs cfg + 1 /\ flag (acked st') 2 = true.
Proof.
  intros cfg dg e.
  assert (H1 : total_segs cfg + 1 < 2 ^ 32) by (vm_compute; reflexivity).
  assert (H2 : inv cfg (init cfg)) by (apply sender_init_inv; exact H1).
  assert (H3 : base (init cfg) <= total_segs cfg) by (vm_compute; discriminate).
  assert (H4 : rx e = Some dg) by reflexivity.
  assert (H5 : HDR + ACK_LEN <= Z.of_nat (length dg)) by (vm_compute; discriminate).
  assert (H6 : hdr_type dg = PKT_ACK) by (vm_compute; reflexivity).
  assert (H7 : hdr_len dg = ACK_LEN) by (vm_compute; reflexivity).
  assert (H8 : total_segs cfg <= rd dg HDR 4) by (vm_compute; discriminate).
  assert (H9 : snd (send_new (loop_fuel (total_segs cfg) 1) cfg e (init cfg) [])
               = [data_pkt cfg 1; data_pkt cfg 2; data_pkt cfg 3]) by (vm_compute; reflexivity).
  split; [by_hyps|].
  destruct (final_ack_completes_the_loop cfg e dg (init cfg) [] H1 H2 H3 H4 H5 H6 H7 H8)
    as (st2 & _ & Hbase & Hall & Hbulk).
  exists st2. split; [exact Hbulk|]. split; [exact Hbase|].
  apply Hall. vm_compute. split; discriminate.
Defined.

End SenderRunFacts.

(** ** The transmission counters *)

Module CounterFacts.
Import Wire WireFacts Sender SenderFacts Pacing WindowFacts.

(** *** Counting the transmissions *)

Lemma times_nil k : times k [] = 0.
Proof. reflexivity. Qed.

Lemma times_app k l1 l2 : times k (l1 ++ l2) = times k l1 + times k l2.
Proof. unfold times. rewrite list.filter_app, length_app. lia. Qed.

Lemma times_absent k l : k ∉ l -> times k l = 0.
Proof.
  intros Hk. unfold times. induction l as [|x l IH]; [reflexivity|].
  rewrite filter_cons. destruct (decide (x = k)) as [->|Hne].
  - exfalso. apply Hk. apply list_elem_of_here.
  - apply IH. intros Hin. apply Hk. now apply list_elem_of_further.
Qed.

Lemma times_once k l : NoDup l -> k ∈ l -> times k l = 1.
Proof.
  intros Hnd. induction Hnd as [|x l Hx Hnd IH]; intros Hk.
  - now apply elem_of_nil in Hk.
  - unfold times. rewrite filter_cons. destruct (decide (x = k)) as [->|Hne].
    + pose proof (times_absent k l Hx) as Hz. unfold times in Hz. cbn [length]. lia.
    + apply elem_of_cons in Hk as [->|Hk]; [congruence|]. now apply IH.
Qed.

(** In a range filtered by [P], a number occurs once if it is in the range
    and satisfies [P], and not at all otherwise. *)
Lemma times_filter_range (P : Z -> bool) a n k :
  times k (filter (fun j => P j = true) (seqZ a n))
  = if (a <=? k) && (k <? a + n) && P k then 1 else 0.
Proof.
  destruct ((a <=? k) && (k <? a + n) && P k) eqn:E.
  - apply andb_true_iff in E as [E HP]. apply andb_true_iff in E as [Ha Hn].
    apply Z.leb_le in Ha. apply Z.ltb_lt in Hn.
    apply times_once.
    + apply list.NoDup_filter, NoDup_seqZ.
    + apply list_elem_of_filter. split; [exact HP|]. apply elem_of_seqZ. lia.
  - apply times_absent. intros Hin. apply list_elem_of_filter in Hin as [HP Hin].
    apply elem_of_seqZ in Hin. rewrite HP in E.
    replace (a <=? k) with true in E by (symmetry; apply Z.leb_le; lia).
    replace (k <? a + n) with true in E by (symmetry; apply Z.ltb_lt; lia).
    discriminate.
Qed.

Lemma data_seqs_segments cfg l : data_seqs (map (data_pkt cfg) l) = l.
Proof.
  unfold data_seqs. induction l as [|x l IH]; [reflexivity|].
  cbn. now rewrite IH.
Qed.

(** One iteration raises each count by the number of times the iteration
    hands the segment over. *)
Lemma iteration_counts cfg e st st' out :
  total_segs cfg + 1 < 2 ^ 31 -> inv cfg st ->
  iteration cfg e st = Next st' out ->
  forall k, cell 0 (tx_cnt st') k
            = cell 0 (tx_cnt st) k + times k (launched cfg e st ++ relaunched cfg e st).
Proof.
  intros Hsegs Hinv Hit k.
  assert (Hsegs' : total_segs cfg + 1 < 2 ^ 32) by lia.
  unfold launched, relaunched. rewrite Hit. unfold iteration in Hit.
  pose proof (send_new_spec cfg e Hsegs' (loop_fuel (total_segs cfg) (next_to_send st))
                            st [] Hinv) as Hs1.
  pose proof (send_new_exact cfg e Hsegs (loop_fuel (total_segs cfg) (next_to_send st))
                             st [] Hinv ltac:(lia)) as Hx.
  destruct (send_new (loop_fuel (total_segs cfg) (next_to_send st)) cfg e st [])
    as [st1 out1].
  cbn [fst snd] in *. cbv zeta in Hx. destruct Hs1 as (I1 & _).
  destruct Hx as (Hout1 & _ & Hcnt1 & _). cbn [app] in Hout1.
  pose proof (recv_ack_inv cfg e st1 Hsegs' I1) as I2.
  destruct (recv_ack_frame cfg e st1 Hsegs' I1) as (_ & T2 & _).
  set (st2 := recv_ack cfg e st1) in *.
  pose proof I2 as (_ & _ & _ & (Hb & _) & _).
  destruct (resend_exact cfg (now_s (now e)) Hsegs' (Z.to_nat (next_to_send st2 - base st2))
                         (base st2) st2 out1 st' out I2 ltac:(lia) ltac:(lia) Hit)
    as (-> & _ & Hcnt3 & _).
  rewrite drop_app_length, Hout1, !data_seqs_segments, times_app.
  rewrite (times_filter_range (send_ok e)).
  rewrite (times_filter_range (fun j => due cfg (now_s (now e)) st2 j)).
  rewrite Hcnt3, T2, Hcnt1.
  replace (next_to_send st + (send_limit cfg st - next_to_send st))
    with (send_limit cfg st) by lia.
  replace (base st2 + (next_to_send st2 - base st2)) with (next_to_send st2) by lia.
  destruct ((next_to_send st <=? k) && (k <? send_limit cfg st) && send_ok e k);
    destruct ((base st2 <=? k) && (k <? next_to_send st2) && due cfg (now_s (now e)) st2 k);
    lia.
Qed.

Lemma bulk_counts cfg :
  total_segs cfg + 1 < 2 ^ 31 ->
  forall envs st st',
    inv cfg st -> reached (bulk cfg envs st) = Some st' ->
    forall k, cell 0 (tx_cnt st') k = cell 0 (tx_cnt st) k + times k (handed_over cfg envs st).
Proof.
  intros Hsegs envs. induction envs as [|e envs IH]; intros st st' Hinv H k;
    cbn [bulk handed_over] in *.
  - destruct (base st <=? total_segs cfg); injection H as <-; rewrite times_nil; lia.
  - destruct (base st <=? total_segs cfg); [|injection H as <-; rewrite times_nil; lia].
    destruct (iteration cfg e st) as [st1 o1|c o1] eqn:Hit; [|discriminate].
    assert (H' : reached (bulk cfg envs st1) = Some st')
      by (destruct (bulk cfg envs st1); exact H).
    destruct (iteration_spec cfg e st st1 o1 ltac:(lia) Hinv Hit) as (I1 & _).
    rewrite (IH st1 st' I1 H' k), (iteration_counts cfg e st st1 o1 Hsegs Hinv Hit k).
    rewrite app_assoc, (times_app k (launched cfg e st ++ relaunched cfg e st)). lia.
Qed.

(** X21.  [tx_cnt[k]] counts the transmissions of segment [k]: in every state
    of the main loop it is the number of times the iterations so far have
    handed [k] over, as a new segment that [sendmsg] took or in a
    retransmission scan.  So a segment has a positive count exactly when it
    has been handed over, and a segment that [sendmsg] refused and that no
    scan has sent again still has count 0. *)
Theorem tx_count_counts_transmissions (cfg : config) (envs : list env) (st : state) :
  total_segs cfg + 1 < 2 ^ 31 ->
  reached (bulk cfg envs (init cfg)) = Some st ->
  (forall k, cell 0 (tx_cnt st) k = times k (handed_over cfg envs (init cfg))) /\
  (forall k, 0 < cell 0 (tx_cnt st) k <-> k ∈ handed_over cfg envs (init cfg)).
Proof.
  intros Hsegs H.
  assert (Hc : forall k, cell 0 (tx_cnt st) k = times k (handed_over cfg envs (init cfg))).
  { intros k.
    rewrite (bulk_counts cfg Hsegs envs (init cfg) st (sender_init_inv cfg ltac:(lia)) H k).
    unfold init. cbn [tx_cnt]. rewrite cell_replicate. lia. }
  split; [exact Hc|]. intros k. rewrite Hc. split.
  - intros Hpos. destruct (decide (k ∈ handed_over cfg envs (init cfg))) as [Hin|Hout];
      [exact Hin|]. rewrite (times_absent k _ Hout) in Hpos. lia.
  - intros Hin. unfold times.
    assert (k ∈ filter (fun j => j = k) (handed_over cfg envs (init cfg)))
      by (apply list_elem_of_filter; split; [reflexivity | exact Hin]).
    destruct (filter (fun j => j = k) (handed_over cfg envs (init cfg)));
      [now apply elem_of_nil in H0 | cbn; lia].
Qed.

Lemma tx_count_counts_transmissions_witness :
  let cfg := Scenario.cfg_of 4 in
  let e0 := mkEnv (fun k => negb (k =? 3)) (fun _ => 0) (Some (Scenario.ack0 1 0)) [] 1000 in
  let e1 := mkEnv (fun _ => true) (fun _ => 0) None [] 400000000 in
  let st := mkState [false; true; false; false; false] (map now_s [0; 0; 400000000; 400000000; 400000000])
                    [0; 1; 2; 1; 2] 2 5 2 in
  (total_segs cfg + 1 < 2 ^ 31 /\ reached (bulk cfg [e0; e1] (init cfg)) = Some st) /\
  handed_over cfg [e0; e1] (init cfg) = [1; 2; 4; 2; 3; 4] /\
  cell 0 (tx_cnt st) 3 = times 3 [1; 2; 4; 2; 3; 4].
Proof.
  intros cfg e0 e1 st.
  assert (H1 : total_segs cfg + 1 < 2 ^ 31) by (vm_compute; reflexivity).
  assert (H2 : reached (bulk cfg [e0; e1] (init cfg)) = Some st) by (vm_compute; reflexivity).
  assert (H3 : handed_over cfg [e0; e1] (init cfg) = [1; 2; 4; 2; 3; 4])
    by (vm_compute; reflexivity).
  split; [by_hyps|]. split; [exact H3|].
  rewrite <- H3. exact (proj1 (tx_count_counts_transmissions cfg [e0; e1] st H1 H2) 3).
Defined.

End CounterFacts.

(** ** A sender's packets at the receiver *)

Module TransferFacts.
Import Wire WireFacts Transfer.

(** *** Sums over the segments *)

Lemma sumZ_app l1 l2 : sumZ (l1 ++ l2) = sumZ l1 + sumZ l2.
Proof.
  unfold sumZ. induction l1 as [|x l1 IH]; cbn [app foldr]; [lia | rewrite IH; lia].
Qed.

Lemma sumZ_map_ext (f g : Z -> Z) l :
  (forall x, x ∈ l -> f x = g x) -> sumZ (map f l) = sumZ (map g l).
Proof.
  intros H. f_equal. apply map_ext_in. intros x Hx. apply H. now apply list_elem_of_In.
Qed.

Lemma sumZ_map_bound (f : Z -> Z) c l :
  (forall x, x ∈ l -> 0 <= f x <= c) ->
  0 <= sumZ (map f l) <= c * Z.of_nat (length l).
Proof.
  induction l as [|x l IH]; intros H; cbn [map length].
  - unfold sumZ. simpl. lia.
  - unfold sumZ in *. cbn [foldr].
    pose proof (H x ltac:(apply list_elem_of_here)) as Hx.
    assert (Hl : forall y, y ∈ l -> 0 <= f y <= c)
      by (intros y Hy; apply H; now apply list_elem_of_further).
    specialize (IH Hl). lia.
Qed.

Lemma sumZ_map_const (f : Z -> Z) c l :
  (forall x, x ∈ l -> f x = c) -> sumZ (map f l) = c * Z.of_nat (length l).
Proof.
  induction l as [|x l IH]; intros H; cbn [map length].
  - unfold sumZ. simpl. lia.
  - unfold sumZ in *. cbn [foldr].
    rewrite (H x) by apply list_elem_of_here.
    rewrite IH by (intros y Hy; apply H; now apply list_elem_of_further). lia.
Qed.

Section Genuine.
Variable cfg : Sender.config.
Variable file : list Byte.byte.
Hypothesis Hmtu : 576 <= Sender.mtu cfg <= 65570.
Hypothesis Hsize : Sender.total_bytes cfg = Z.of_nat (length file).
Hypothesis Hpos : 0 < Sender.total_bytes cfg.
Hypothesis Hsegs :
  (Sender.total_bytes cfg + Sender.payload_max cfg - 1) / Sender.payload_max cfg < 2 ^ 32.

Local Abbreviation T := (Sender.total_bytes cfg).
Local Abbreviation P := (Sender.payload_max cfg).
Local Abbreviation N := (Sender.total_segs cfg).

Lemma payload_bounds : 512 <= P <= 65535.
Proof.
  unfold Sender.payload_max, payload_max_of, HDR.
  destruct (Sender.mtu cfg - 28 - 7 <? 512) eqn:E; [lia|].
  apply Z.ltb_ge in E. lia.
Qed.

Lemma segs_exact : N = (T + P - 1) / P.
Proof. apply (SegmenterFacts.segs_of_ceil T P Hpos payload_bounds Hsegs). Qed.

Lemma segs_bounds : 1 <= N < 2 ^ 32 /\ P * (N - 1) < T <= P * N.
Proof.
  pose proof payload_bounds as HP.
  pose proof (SegmenterFacts.ceil_bounds T P ltac:(lia)) as Hc. cbv zeta in Hc.
  pose proof (SegmenterFacts.ceil_pos T P Hpos HP) as Hn.
  rewrite segs_exact. lia.
Qed.

(** Offset and length of a segment of the input. *)
Lemma segment_range k :
  1 <= k <= N ->
  seg_offset k P = (k - 1) * P /\
  1 <= Sender.seg_len T P k <= P /\
  (k - 1) * P + Sender.seg_len T P k <= T /\
  (k < N -> Sender.seg_len T P k = P) /\
  (k = N -> Sender.seg_len T P k = T - (N - 1) * P).
Proof.
  intros Hk. pose proof payload_bounds as HP. pose proof segs_bounds as [Hn Hc].
  assert (Hk' : 1 <= k <= (T + P - 1) / P) by (rewrite <- segs_exact; exact Hk).
  rewrite (SegmenterFacts.seg_offset_exact T P HP Hsegs k Hk').
  rewrite (SegmenterFacts.seg_len_exact T P Hpos HP Hsegs k Hk').
  split; [reflexivity|]. split_and!; try nia.
Qed.

(** *** The input accounted for *)

Lemma held_bytes_none n :
  held_bytes T P N (replicate n false) = 0.
Proof.
  unfold held_bytes.
  rewrite (sumZ_map_const _ 0); [lia|].
  intros x _. now rewrite flag_replicate_false.
Qed.

Lemma held_bytes_bound hv : 0 <= held_bytes T P N hv <= P * N.
Proof.
  pose proof segs_bounds as [Hn _].
  unfold held_bytes.
  pose proof (sumZ_map_bound
                (fun k => if flag hv k then Sender.seg_len T P k else 0) P (seqZ 1 N)) as Hb.
  rewrite length_seqZ in Hb. rewrite Z2Nat.id in Hb by lia. apply Hb.
  intros x Hx. apply elem_of_seqZ in Hx.
  destruct (flag hv x); [|pose proof payload_bounds; lia].
  destruct (segment_range x ltac:(lia)) as (_ & ? & _). lia.
Qed.

Lemma held_bytes_all hv :
  (forall k, 1 <= k <= N -> flag hv k = true) -> held_bytes T P N hv = T.
Proof.
  intros Hall. pose proof segs_bounds as [Hn _]. unfold held_bytes.
  replace N with ((N - 1) + 1) at 1 by lia.
  rewrite seqZ_app by lia. rewrite map_app, sumZ_app.
  rewrite (sumZ_map_const _ P).
  - rewrite length_seqZ, Z2Nat.id by lia.
    replace (1 + (N - 1)) with N by lia.
    change (seqZ N 1) with [N]. unfold sumZ. cbn [map foldr].
    rewrite Hall by lia.
    destruct (segment_range N ltac:(lia)) as (_ & _ & _ & _ & Hlast).
    rewrite Hlast by reflexivity. lia.
  - intros x Hx. apply elem_of_seqZ in Hx. rewrite Hall by lia.
    destruct (segment_range x ltac:(lia)) as (_ & _ & _ & Hfull & _). apply Hfull. lia.
Qed.

Lemma held_bytes_insert hv k :
  1 <= k <= N -> (Z.to_nat k < length hv)%nat -> flag hv k = false ->
  held_bytes T P N (<[Z.to_nat k := true]> hv)
  = held_bytes T P N hv + Sender.seg_len T P k.
Proof.
  intros Hk Hlen Hfresh. unfold held_bytes.
  replace N with ((k - 1) + (1 + (N - k))) by lia.
  rewrite !seqZ_app by lia. rewrite !map_app, !sumZ_app.
  replace (1 + (k - 1)) with k by lia.
  change (seqZ k 1) with [k]. unfold sumZ at 2 5. cbn [map foldr].
  rewrite flag_insert_eq by exact Hlen. rewrite Hfresh.
  rewrite (sumZ_map_ext
             (fun j => if flag (<[Z.to_nat k := true]> hv) j then Sender.seg_len T P j else 0)
             (fun j => if flag hv j then Sender.seg_len T P j else 0) (seqZ 1 (k - 1))).
  2:{ intros x Hx. apply elem_of_seqZ in Hx. rewrite flag_insert_ne by lia. reflexivity. }
  rewrite (sumZ_map_ext
             (fun j => if flag (<[Z.to_nat k := true]> hv) j then Sender.seg_len T P j else 0)
             (fun j => if flag hv j then Sender.seg_len T P j else 0) (seqZ (k + 1) (N - k))).
  2:{ intros x Hx. apply elem_of_seqZ in Hx. rewrite flag_insert_ne by lia. reflexivity. }
  lia.
Qed.


(** *** The sender's datagrams *)

Lemma wire_start_shape :
  let dg := Sender.wire file (Sender.TxStart T) in
  Z.of_nat (length dg) = HDR + 8 /\
  hdr_type dg = PKT_START /\ hdr_seq dg = 0 /\ hdr_len dg = 8 /\ rd dg HDR 8 = T.
Proof.
  cbv zeta. cbn [Sender.wire].
  destruct (mk_hdr_fields PKT_START 0 8 (be_split 8 T)) as (Ht & Hq & Hl).
  pose proof segs_bounds as [Hn Hc]. pose proof payload_bounds as HP.
  split_and!.
  - rewrite length_app, mk_hdr_length, be_split_length. reflexivity.
  - rewrite Ht. reflexivity.
  - rewrite Hq. reflexivity.
  - rewrite Hl. reflexivity.
  - replace (mk_hdr PKT_START 0 8 ++ be_split 8 T)
      with (mk_hdr PKT_START 0 8 ++ be_split 8 T ++ []) by now rewrite app_nil_r.
    rewrite rd_at by (rewrite ?mk_hdr_length, ?be_split_length; reflexivity).
    rewrite be_combine_split. apply Z.mod_small.
    change (256 ^ Z.of_nat 8) with (2 ^ 64). nia.
Qed.

Lemma wire_data_shape k :
  1 <= k <= N ->
  let dg := Sender.wire file (Sender.data_pkt cfg k) in
  Z.of_nat (length dg) = HDR + Sender.seg_len T P k /\
  hdr_type dg = PKT_DATA /\ hdr_seq dg = k /\ hdr_len dg = Sender.seg_len T P k /\
  forall i, 0 <= i < Sender.seg_len T P k ->
            dg !! Z.to_nat (HDR + i) = file !! Z.to_nat ((k - 1) * P + i).
Proof.
  intros Hk. cbv zeta. unfold Sender.data_pkt. cbn [Sender.wire].
  destruct (segment_range k Hk) as (Hoff & Hlen & Hfit & _).
  pose proof segs_bounds as [Hn _]. pose proof payload_bounds as HP.
  rewrite Hoff. set (len := Sender.seg_len T P k) in *.
  destruct (mk_hdr_fields PKT_DATA k len (slice file ((k - 1) * P) len)) as (Ht & Hq & Hl).
  assert (Hsl : Z.of_nat (length (slice file ((k - 1) * P) len)) = len)
    by (apply slice_length; [nia | lia | rewrite <- Hsize; exact Hfit]).
  split_and!.
  - rewrite length_app, mk_hdr_length. unfold HDR. lia.
  - rewrite Ht. reflexivity.
  - rewrite Hq. apply Z.mod_small. lia.
  - rewrite Hl. apply Z.mod_small. lia.
  - intros i Hi. rewrite lookup_app_r by (rewrite mk_hdr_length; unfold HDR; lia).
    rewrite mk_hdr_length.
    replace (Z.to_nat (HDR + i) - 7)%nat with (Z.to_nat i) by (unfold HDR; lia).
    apply slice_lookup; [nia | exact Hi].
Qed.

Lemma sends_data k off len :
  sends cfg (Sender.TxData k off len) = true ->
  1 <= k <= N /\ Sender.TxData k off len = Sender.data_pkt cfg k.
Proof.
  cbn [sends]. rewrite !andb_true_iff, !Z.leb_le, !Z.eqb_eq.
  intros [[[H1 H2] ->] ->]. split; [lia | reflexivity].
Qed.

(** *** One arrival *)

Lemma mirrors_with_rx st bf from :
  mirrors cfg file st -> mirrors cfg file (Receiver.with_rx st bf from).
Proof. intros H. exact H. Qed.

Lemma start_arrival from st :
  Receiver.inv P st -> mirrors cfg file st ->
  exists st' out,
    Receiver.iter P (Receiver.Datagram from (Sender.wire file (Sender.TxStart T))) st
    = Receiver.Cont st' out /\ mirrors cfg file st'.
Proof.
  intros Hinv Hm. pose proof Hm as [Hm0 Hm1].
  pose proof wire_start_shape as Hw. cbv zeta in Hw.
  destruct Hw as (Hlen & Ht & Hq & Hl & Hrd).
  pose proof segs_bounds as [Hn Hc]. pose proof payload_bounds as HP.
  rewrite (SessionFacts.iter_by_header P) by (rewrite ?Hlen; unfold HDR; lia). cbv zeta.
  rewrite Ht, Hq, Hl.
  change ((PKT_START =? PKT_START) && (0 =? 0)) with true. cbn match.
  destruct (Receiver.started st) eqn:Hs; cbn [negb].
  - eexists. eexists. split; [reflexivity|]. now apply mirrors_with_rx.
  - change (negb (8 =? 8)) with false. cbn match.
    unfold Receiver.open_session. cbn [Receiver.with_rx Receiver.buf].
    rewrite rd_recv_into
      by (rewrite ?recv_into_count; unfold HDR in *; lia).
    rewrite Hrd. unfold Receiver.fmap_open_wo.
    replace (T =? 0) with false by (symmetry; apply Z.eqb_neq; lia).
    replace (2 ^ 63 <=? T) with false by (symmetry; apply Z.leb_gt; nia).
    cbn [orb]. eexists. eexists. split; [reflexivity|].
    split; cbn [Receiver.started Receiver.received Receiver.expected_total
                Receiver.total_segs Receiver.fm Receiver.have]; [discriminate|].
    intros _. split_and!.
    + reflexivity.
    + reflexivity.
    + rewrite length_replicate, Hsize. apply Nat2Z.id.
    + rewrite held_bytes_none. apply Hm0. reflexivity.
    + intros k i _ Hf. rewrite flag_replicate_false in Hf. discriminate.
Qed.

Lemma end_arrival from s st :
  Receiver.inv P st -> mirrors cfg file st ->
  exists st' out,
    Receiver.iter P (Receiver.Datagram from (Sender.wire file (Sender.TxEnd s))) st
    = Receiver.Cont st' out /\ mirrors cfg file st'.
Proof.
  intros Hinv Hm. cbn [Sender.wire]. pose proof payload_bounds as HP.
  destruct (mk_hdr_fields PKT_END s 0 []) as (Ht & _ & _).
  rewrite app_nil_r in Ht.
  rewrite (SessionFacts.iter_by_header P) by (rewrite ?mk_hdr_length; unfold HDR; lia).
  cbv zeta.
  rewrite Ht. change (PKT_END mod 256) with PKT_END.
  change (PKT_END =? PKT_START) with false. change (PKT_END =? PKT_DATA) with false.
  change (PKT_END =? PKT_END) with true. cbn match.
  destruct (Receiver.started st); cbn [negb];
    eexists; eexists; (split; [reflexivity | exact Hm]).
Qed.

Lemma data_arrival from k st :
  1 <= k <= N ->
  Receiver.inv P st -> mirrors cfg file st ->
  exists st' out,
    Receiver.iter P (Receiver.Datagram from (Sender.wire file (Sender.data_pkt cfg k))) st
    = Receiver.Cont st' out /\ mirrors cfg file st'.
Proof.
  intros Hk Hinv Hm. pose proof Hm as [Hm0 Hm1].
  pose proof (wire_data_shape k Hk) as Hw. cbv zeta in Hw.
  destruct Hw as (Hlen & Ht & Hq & Hl & Hbytes).
  destruct (segment_range k Hk) as (Hoff & Hsl & Hfit & _).
  pose proof segs_bounds as [Hn Hc]. pose proof payload_bounds as HP.
  set (dg := Sender.wire file (Sender.data_pkt cfg k)) in *.
  set (len := Sender.seg_len T P k) in *.
  rewrite (SessionFacts.iter_by_header P) by (rewrite ?Hlen; unfold HDR; lia). cbv zeta.
  rewrite Ht, Hq, Hl.
  change (PKT_DATA =? PKT_START) with false. change (PKT_DATA =? PKT_DATA) with true.
  cbn match.
  destruct (Receiver.started st) eqn:Hs; cbn [negb].
  2:{ eexists. eexists. split; [reflexivity | exact Hm]. }
  destruct (Hm1 eq_refl) as (Hexp & Hseg & Hfl & Hrec & Hsame).
  rewrite Hseg.
  replace (k =? 0) with false by (symmetry; apply Z.eqb_neq; lia).
  replace (N <? k) with false by (symmetry; apply Z.ltb_ge; lia).
  cbn [orb].
  destruct (flag (Receiver.have st) k) eqn:Hheld; cbn [negb].
  { eexists. eexists. split; [reflexivity | exact Hm]. }
  replace (P <? len) with false by (symmetry; apply Z.ltb_ge; lia).
  eexists. eexists. split; [reflexivity|].
  destruct Hinv as (Hb & _ & _ & Hhl & _).
  specialize (Hhl Hs).
  assert (Hsrc : slice (fst (recv_into (Receiver.buf st) (HDR + P) dg)) HDR len
                 = slice dg HDR len).
  { apply slice_recv_into; [unfold HDR; lia | lia |].
    rewrite recv_into_count. unfold HDR in *. lia. }
  assert (Hsrclen : Z.of_nat (length (slice dg HDR len)) = len)
    by (apply slice_length; unfold HDR in *; lia).
  split; cbn [Receiver.store_segment Receiver.with_rx Receiver.started Receiver.received
              Receiver.expected_total Receiver.total_segs Receiver.fm Receiver.have
              Receiver.buf]; [rewrite Hs; discriminate|].
  intros _. rewrite Hsrc, Hoff. split_and!.
  - exact Hexp.
  - exact Hseg.
  - unfold Receiver.memcpy_at. rewrite length_inserts. exact Hfl.
  - rewrite held_bytes_insert by (rewrite ?Hhl, ?Hseg; lia || exact Hheld).
    rewrite Hrec. apply u64_small.
    pose proof (held_bytes_bound (Receiver.have st)) as Hbd. fold len. nia.
  - intros k' i Hk' Hheld' Hi.
    destruct (Z.eq_dec k' k) as [->|Hne].
    + rewrite ReceiverFacts.memcpy_at_inside.
      * rewrite slice_lookup by (unfold HDR; lia). now apply Hbytes.
      * nia.
      * rewrite Hsrclen. exact Hi.
      * rewrite Hfl, <- Hsize. fold len in Hi. lia.
    + rewrite flag_insert_ne in Hheld' by lia.
      destruct (segment_range k' Hk') as (_ & Hsl' & _).
      rewrite ReceiverFacts.memcpy_at_outside.
      * now apply Hsame.
      * nia.
      * nia.
      * rewrite Hsrclen. nia.
Qed.

(** A packet of the sender, or an error, keeps the session the mirror of
    the sender's and is not fatal. *)
Lemma genuine_arrival a st :
  genuine cfg a = true ->
  Receiver.inv P st -> mirrors cfg file st ->
  exists st' out,
    Receiver.iter P (deliver file a) st = Receiver.Cont st' out /\
    mirrors cfg file st'.
Proof.
  intros Hg Hinv Hm. destruct a as [[from p]|]; cbn [deliver genuine] in *.
  2:{ eexists. eexists. split; [reflexivity | exact Hm]. }
  destruct p as [t|k off len|s].
  - cbn [sends] in Hg. apply Z.eqb_eq in Hg. subst t. now apply start_arrival.
  - apply sends_data in Hg as [Hk ->]. now apply data_arrival.
  - now apply end_arrival.
Qed.

Lemma genuine_run : forall arrs st,
  Forall (fun a => genuine cfg a = true) arrs ->
  Receiver.inv P st -> mirrors cfg file st ->
  exists st' out,
    Receiver.run P (map (deliver file) arrs) st = Some (st', out) /\
    mirrors cfg file st'.
Proof.
  induction arrs as [|a arrs IH]; intros st Hall Hinv Hm; cbn [map Receiver.run].
  - exists st, []. split; [now destruct (Receiver.finished st) | exact Hm].
  - destruct (Receiver.finished st); [exists st, []; split; [reflexivity | exact Hm]|].
    inversion Hall as [|? ? Ha Hall']; subst.
    destruct (genuine_arrival a st Ha Hinv Hm) as (st1 & o1 & Hit & Hm1).
    rewrite Hit.
    destruct (IH st1 Hall' (ReceiverFacts.iter_inv P _ _ _ _ Hinv Hit) Hm1)
      as (st2 & o2 & Hrun & Hm2).
    rewrite Hrun. exists st2, (o1 ++ o2). split; [reflexivity | exact Hm2].
Qed.

(** With every segment held, the output is the input. *)
Lemma mirrors_complete st :
  mirrors cfg file st -> Receiver.started st = true ->
  (forall k, 1 <= k <= N -> flag (Receiver.have st) k = true) ->
  Receiver.fm st = file /\ Receiver.received st = T /\ Receiver.exit_code st = 0.
Proof.
  intros [_ Hm1] Hs Hall. destruct (Hm1 Hs) as (Hexp & Hseg & Hfl & Hrec & Hsame).
  pose proof segs_bounds as [Hn Hc]. pose proof payload_bounds as HP.
  assert (Hr : Receiver.received st = T) by (rewrite Hrec; now apply held_bytes_all).
  split_and!.
  - apply list_eq. intros i.
    destruct (decide (i < length file)%nat) as [Hi|Hi].
    2:{ rewrite !lookup_ge_None_2 by lia. reflexivity. }
    set (z := Z.of_nat i).
    assert (Hz : 0 <= z < T) by lia.
    pose proof (Z.div_mod z P ltac:(lia)) as Hdm.
    pose proof (Z.mod_pos_bound z P ltac:(lia)) as Hmod.
    assert (Hq : 0 <= z / P) by (apply Z.div_pos; lia).
    assert (HqN : z / P + 1 <= N) by nia.
    destruct (segment_range (z / P + 1) ltac:(lia)) as (_ & _ & _ & Hfull & Hlast).
    replace i with (Z.to_nat ((z / P + 1 - 1) * P + z mod P)) by lia.
    apply Hsame; [lia | apply Hall; lia |].
    destruct (Z.eq_dec (z / P + 1) N) as [E|E].
    + rewrite (Hlast E). rewrite <- E. lia.
    + rewrite Hfull by lia. lia.
  - exact Hr.
  - unfold Receiver.exit_code. rewrite Hr, Hexp, Z.eqb_refl. cbn [negb andb].
    now rewrite andb_false_r.
Qed.

End Genuine.

Lemma init_mirrors cfg file P junk : mirrors cfg file (Receiver.init P junk).
Proof. split; [reflexivity | discriminate]. Qed.

(** X22.  A receiver started with the sender's [--mtu] that is handed, in any
    order, with repetitions and omissions and from any addresses, packets of
    that sender (START, DATA of segments of its input, END) and errors of
    [recvfrom] never ends in [die]; the output file has the size of the
    input, and in the state the receiver reaches every segment held has, at
    its offset, the bytes of the input; and if it has left the loop, the
    output file is the input,
    [received] is its size and the exit status is 0.  (Input not empty,
    [--mtu] from 576 to 65570, fewer than [2 ^ 32] segments.) *)
Theorem genuine_packets_rebuild_the_file (cfg : Sender.config) (file junk : list Byte.byte)
        (arrs : list arrival) :
  576 <= Sender.mtu cfg <= 65570 ->
  Sender.total_bytes cfg = Z.of_nat (length file) ->
  0 < Sender.total_bytes cfg ->
  (Sender.total_bytes cfg + Sender.payload_max cfg - 1) / Sender.payload_max cfg < 2 ^ 32 ->
  Forall (fun a => genuine cfg a = true) arrs ->
  exists st out,
    Receiver.run (Sender.payload_max cfg) (map (deliver file) arrs)
                 (Receiver.init (Sender.payload_max cfg) junk) = Some (st, out) /\
    (Receiver.started st = true ->
     length (Receiver.fm st) = length file /\
     forall k i,
       1 <= k <= Sender.total_segs cfg -> flag (Receiver.have st) k = true ->
       0 <= i < Sender.seg_len (Sender.total_bytes cfg) (Sender.payload_max cfg) k ->
       Receiver.fm st !! Z.to_nat ((k - 1) * Sender.payload_max cfg + i)
       = file !! Z.to_nat ((k - 1) * Sender.payload_max cfg + i)) /\
    (Receiver.finished st = true ->
     Receiver.fm st = file /\ Receiver.received st = Sender.total_bytes cfg /\
     Receiver.exit_code st = 0).
Proof.
  intros Hmtu Hsize Hpos Hsegs Hall.
  set (P := Sender.payload_max cfg).
  pose proof (ReceiverFacts.receiver_init_inv P junk) as Hinv0.
  destruct (genuine_run cfg file Hmtu Hsize Hpos Hsegs arrs (Receiver.init P junk) Hall Hinv0
                        (init_mirrors cfg file P junk)) as (st & out & Hrun & Hm).
  exists st, out. split; [exact Hrun|]. split.
  - intros Hs. destruct Hm as [_ Hm1]. destruct (Hm1 Hs) as (_ & _ & Hfl & _ & Hsame).
    split; assumption.
  - intros Hf.
    pose proof (ReceiverFacts.run_inv P _ _ _ _ Hinv0 Hrun) as Hinv.
    assert (Hset : Session.settled st).
    { eapply SessionFacts.run_settled; [exact Hinv0 | | exact Hrun]. intros Habs. discriminate. }
    destruct (Hset Hf) as [Hs Hc].
    destruct Hinv as (_ & _ & _ & _ & _ & _ & Hcont & _).
    apply (mirrors_complete cfg file Hmtu Hsize Hpos Hsegs st Hm Hs).
    intros k Hk. apply Hcont.
    destruct Hm as [_ Hm1]. destruct (Hm1 Hs) as (_ & Hseg & _). lia.
Qed.

Lemma genuine_packets_rebuild_the_file_witness :
  let cfg := Scenario.cfg0 in
  let arrs := [Some (1, Sender.data_pkt cfg 1); Some (1, Sender.TxStart 1182);
               Some (1, Sender.data_pkt cfg 3); None; Some (2, Sender.data_pkt cfg 1);
               Some (1, Sender.TxEnd 4); Some (1, Sender.data_pkt cfg 3);
               Some (1, Sender.data_pkt cfg 2); Some (1, Sender.data_pkt cfg 1);
               Some (1, Sender.TxEnd 4)] in
  (576 <= Sender.mtu cfg <= 65570 /\
   Sender.total_bytes cfg = Z.of_nat (length Scenario.file0) /\
   0 < Sender.total_bytes cfg /\
   (Sender.total_bytes cfg + Sender.payload_max cfg - 1) / Sender.payload_max cfg < 2 ^ 32 /\
   Forall (fun a => genuine cfg a = true) arrs) /\
  exists st out,
    Receiver.run (Sender.payload_max cfg) (map (deliver Scenario.file0) arrs)
                 (Receiver.init (Sender.payload_max cfg) []) = Some (st, out) /\
    Receiver.finished st = true /\
    Receiver.fm st = Scenario.file0 /\ Receiver.received st = Sender.total_bytes cfg /\
    Receiver.exit_code st = 0.
Proof.
  intros cfg arrs.
  assert (H1 : 576 <= Sender.mtu cfg <= 65570) by (vm_compute; split; discriminate).
  assert (H2 : Sender.total_bytes cfg = Z.of_nat (length Scenario.file0))
    by (vm_compute; reflexivity).
  assert (H3 : 0 < Sender.total_bytes cfg) by (vm_compute; reflexivity).
  assert (H4 : (Sender.total_bytes cfg + Sender.payload_max cfg - 1) / Sender.payload_max cfg
               < 2 ^ 32) by (vm_compute; reflexivity).
  assert (H5 : Forall (fun a => genuine cfg a = true) arrs)
    by (repeat constructor).
  split; [by_hyps|].
  destruct (genuine_packets_rebuild_the_file cfg Scenario.file0 [] arrs H1 H2 H3 H4 H5)
    as (st & out & Hrun & _ & Hdone).
  assert (Hf : Receiver.finished st = true).
  { pose proof Hrun as Hval. vm_compute in Hval. injection Hval as <- _. reflexivity. }
  exists st, out. split; [exact Hrun|]. split; [exact Hf | exact (Hdone Hf)].
Defined.

End TransferFacts.

(** ** The two programs on one link *)

Module LinkFacts.
Import Wire WireFacts.

Lemma flag_nonpos (l : list bool) k : k <= 0 -> flag l k = flag l 0.
Proof. intros Hk. unfold flag, cell. now replace (Z.to_nat k) with (Z.to_nat 0) by lia. Qed.

Lemma cell_nonpos (l : list Z) k : k <= 0 -> cell 0 l k = cell 0 l 0.
Proof. intros Hk. unfold cell. now replace (Z.to_nat k) with (Z.to_nat 0) by lia. Qed.

(** X23.  Every ACK the receiver sends is a datagram of 19 bytes that the
    sender's START and END exchanges take for the awaited ACK and from which
    the sender's main loop decodes the [cum_ack] and the SACK mask the
    receiver put in, whatever its receive buffer held before. *)
Theorem acks_are_decoded_as_sent (P : Z) (rst rst' : Receiver.state) (from : Z)
        (dg : list Byte.byte) (out : list Receiver.ack) (a : Receiver.ack)
        (cfg : Sender.config) (e : Sender.env) (st : Sender.state) (junk : list Byte.byte) :
  Receiver.reachable P rst ->
  Receiver.iter P (Receiver.Datagram from dg) rst = Receiver.Cont rst' out ->
  In a out ->
  Sender.rx e = Some (Receiver.ack_bytes a) ->
  Z.of_nat (length (Receiver.ack_bytes a)) = 19 /\
  Sender.is_ack (Some (Receiver.ack_bytes a), junk) = true /\
  Sender.recv_ack cfg e st
  = Sender.process_ack cfg (Receiver.ack_cum a) (Receiver.ack_mask a) st.
Proof.
  intros Hreach Hit Hin Hrx.
  pose proof (ReceiverFacts.iter_inv P _ _ _ _ (ReceiverFacts.reachable_inv P rst Hreach) Hit)
    as (_ & Hc & Hn & _).
  destruct (ReceiverFacts.iter_acks P from dg rst rst' out a Hit Hin) as (_ & Hcum & _ & Hmask).
  assert (Hm : 0 <= Receiver.ack_mask a < 2 ^ 64).
  { destruct Hmask as [[_ ->]|[_ ->]]; [lia | apply ReceiverFacts.sack_of_range]. }
  destruct (ReceiverFacts.ack_bytes_decoded a ltac:(lia) Hm) as (Hlen & Hty & Hl & Hrc & Hrm).
  split; [exact Hlen|]. split.
  - unfold Sender.is_ack. cbn [fst snd].
    assert (Hcount : HDR <= snd (recv_into (raw_buffer 64 junk) 64 (Receiver.ack_bytes a)))
      by (rewrite recv_into_count; unfold HDR, ACK_LEN in *; lia).
    destruct (header_of_datagram (raw_buffer 64 junk) 64 _ Hcount) as (Ht & _ & _).
    destruct (recv_into (raw_buffer 64 junk) 64 (Receiver.ack_bytes a)) as [abuf n].
    cbn [fst snd] in *. rewrite Ht, Hty.
    replace (HDR <=? n) with true by (symmetry; now apply Z.leb_le). reflexivity.
  - rewrite (SenderFacts.recv_ack_whole cfg e st (Receiver.ack_bytes a) Hrx ltac:(lia) Hty Hl).
    now rewrite Hrc, Hrm.
Qed.

Lemma acks_are_decoded_as_sent_witness :
  let rst := Scenario.after [Receiver.Datagram 1 Scenario.start0] in
  let dg := Scenario.data0 3 in
  let rst' := Scenario.after [Receiver.Datagram 1 Scenario.start0; Receiver.Datagram 1 dg] in
  let a := Receiver.mkAck 1 0 4 in
  let e := Scenario.env_rx (Receiver.ack_bytes a) in
  let st := Sender.init Scenario.cfg0 in
  (Receiver.reachable Scenario.P0 rst /\
   Receiver.iter Scenario.P0 (Receiver.Datagram 1 dg) rst = Receiver.Cont rst' [a] /\
   In a [a] /\ Sender.rx e = Some (Receiver.ack_bytes a)) /\
  Sender.is_ack (Some (Receiver.ack_bytes a), [Byte.xff]) = true /\
  Sender.recv_ack Scenario.cfg0 e st = Sender.process_ack Scenario.cfg0 0 4 st.
Proof.
  intros rst dg rst' a e st.
  assert (H1 : Receiver.reachable Scenario.P0 rst).
  { exists [], [Receiver.Datagram 1 Scenario.start0], [Receiver.mkAck 1 0 0].
    vm_compute. reflexivity. }
  assert (H2 : Receiver.iter Scenario.P0 (Receiver.Datagram 1 dg) rst = Receiver.Cont rst' [a])
    by (vm_compute; reflexivity).
  assert (H3 : In a [a]) by (left; reflexivity).
  assert (H4 : Sender.rx e = Some (Receiver.ack_bytes a)) by reflexivity.
  split; [by_hyps|].
  destruct (acks_are_decoded_as_sent Scenario.P0 rst rst' 1 dg [a] a Scenario.cfg0 e st
                                     [Byte.xff] H1 H2 H3 H4) as (_ & Hack & Hdec).
  split; [exact Hack | exact Hdec].
Defined.

(** X24.  The receiver acknowledges only what it holds: when one of its ACKs
    reaches a sender, every segment the ACK newly marks as acknowledged is a
    segment the receiver holds; so if all the segments the receiver holds
    are among those the sender has transmitted ([wire]), the ACK meets the
    condition of [Sender.honest]. *)
Theorem receiver_acks_only_what_it_holds (P : Z) (rst rst' : Receiver.state) (from : Z)
        (dg : list Byte.byte) (out : list Receiver.ack) (a : Receiver.ack)
        (cfg : Sender.config) (e : Sender.env) (st : Sender.state) (wire : list Z) :
  Receiver.reachable P rst ->
  Receiver.iter P (Receiver.Datagram from dg) rst = Receiver.Cont rst' out ->
  In a out ->
  Sender.total_segs cfg + 1 < 2 ^ 32 -> Sender.inv cfg st ->
  Sender.rx e = Some (Receiver.ack_bytes a) ->
  (forall k, flag (Sender.acked (Sender.recv_ack cfg e st)) k = true -> 1 <= k ->
             flag (Sender.acked st) k = true \/ flag (Receiver.have rst') k = true) /\
  ((forall k, flag (Receiver.have rst') k = true -> k ∈ wire) ->
   Sender.acks_within cfg wire st (Sender.recv_ack cfg e st)).
Proof.
  intros Hreach Hit Hin Hsegs Hinv Hrx.
  rewrite (ProtocolFacts.ack_delivered P rst from dg rst' out a cfg e st Hreach Hit Hin Hrx).
  pose proof (ReceiverFacts.iter_inv P _ _ _ _ (ReceiverFacts.reachable_inv P rst Hreach) Hit)
    as (_ & Hc & Hn & _ & _ & Hz & Hcont & _).
  destruct (ReceiverFacts.iter_acks P from dg rst rst' out a Hit Hin) as (_ & Hcum & _ & Hmask).
  destruct (SenderFacts.process_ack_spec cfg (Receiver.ack_cum a) (Receiver.ack_mask a) st
                                         Hsegs Hinv) as (_ & _ & _ & _ & Hacked & _).
  pose proof Hinv as (_ & _ & _ & (Hb & _) & _).
  assert (Hheld : forall k,
             flag (Sender.acked (Sender.process_ack cfg (Receiver.ack_cum a)
                                                    (Receiver.ack_mask a) st)) k = true ->
             1 <= k ->
             flag (Sender.acked st) k = true \/ flag (Receiver.have rst') k = true).
  { intros k Hset Hk.
    apply (Hacked k ltac:(lia)) in Hset as [Hold | [Hrange | (i & Hi & Hbit & -> & Hle)]].
    - now left.
    - right. apply Hcont. rewrite Hcum in Hrange. lia.
    - right.
      destruct Hmask as [[_ Hzero]|[_ Hsack]].
      + rewrite Hzero, Z.bits_0 in Hbit. discriminate.
      + rewrite Hsack in Hbit. apply ReceiverFacts.sack_of_testbit in Hbit; [|exact Hi].
        rewrite Hcum. exact (proj2 Hbit). }
  split; [exact Hheld|].
  intros Hwire k Hk Hset. destruct (Hheld k Hset ltac:(lia)) as [Hold|Hnew].
  - now left.
  - right. now apply Hwire.
Qed.

Lemma receiver_acks_only_what_it_holds_witness :
  let rst := Scenario.after [Receiver.Datagram 1 Scenario.start0] in
  let dg := Scenario.data0 1 in
  let rst' := Scenario.after [Receiver.Datagram 1 Scenario.start0; Receiver.Datagram 1 dg] in
  let a := Receiver.mkAck 1 1 0 in
  let cfg := Scenario.cfg0 in
  let e := Scenario.env_rx (Receiver.ack_bytes a) in
  let st := Sender.mkState [false; false; false; false] (map now_s [0; 5; 5; 5]) [0; 1; 1; 1] 1 4 3 in
  (Receiver.reachable Scenario.P0 rst /\
   Receiver.iter Scenario.P0 (Receiver.Datagram 1 dg) rst = Receiver.Cont rst' [a] /\
   In a [a] /\ Sender.total_segs cfg + 1 < 2 ^ 32 /\ Sender.inv cfg st /\
   Sender.rx e = Some (Receiver.ack_bytes a) /\
   (forall k, flag (Receiver.have rst') k = true -> k ∈ [1; 2; 3])) /\
  Sender.acks_within cfg [1; 2; 3] st (Sender.recv_ack cfg e st).
Proof.
  intros rst dg rst' a cfg e st.
  assert (H1 : Receiver.reachable Scenario.P0 rst).
  { exists [], [Receiver.Datagram 1 Scenario.start0], [Receiver.mkAck 1 0 0].
    vm_compute. reflexivity. }
  assert (H2 : Receiver.iter Scenario.P0 (Receiver.Datagram 1 dg) rst = Receiver.Cont rst' [a])
    by (vm_compute; reflexivity).
  assert (H3 : In a [a]) by (left; reflexivity).
  assert (H4 : Sender.total_segs cfg + 1 < 2 ^ 32) by (vm_compute; reflexivity).
  assert (H5 : Sender.inv cfg st).
  { assert (Hr : Sender.reached (Sender.bulk cfg [Scenario.env_silent] (Sender.init cfg))
                 = Some st) by (vm_compute; reflexivity).
    exact (proj1 (SenderFacts.bulk_spec cfg H4 [Scenario.env_silent] (Sender.init cfg) st
                                        (SenderFacts.sender_init_inv cfg H4) Hr)). }
  assert (H6 : Sender.rx e = Some (Receiver.ack_bytes a)) by reflexivity.
  assert (H7 : forall k, flag (Receiver.have rst') k = true -> k ∈ [1; 2; 3]).
  { assert (Hh : Receiver.have rst' = [false; true; false; false]) by (vm_compute; reflexivity).
    intros k. rewrite Hh. clear. unfold flag, cell.
    destruct (Z.to_nat k) as [|[|[|[|n]]]] eqn:Ek; cbn; intros Hk; try discriminate.
    replace k with 1 by lia. apply list_elem_of_here. }
  split; [by_hyps|].
  exact (proj2 (receiver_acks_only_what_it_holds Scenario.P0 rst rst' 1 dg [a] a cfg e st
                                              [1; 2; 3] H1 H2 H3 H4 H5 H6) H7).
Defined.


Lemma seg_len_le cfg k :
  0 <= Sender.seg_len (Sender.total_bytes cfg) (Sender.payload_max cfg) k
  <= Sender.payload_max cfg.
Proof.
  unfold Sender.seg_len.
  assert (HP : 512 <= Sender.payload_max cfg).
  { unfold Sender.payload_max, payload_max_of.
    destruct (Sender.mtu cfg - 28 - HDR <? 512) eqn:E; [lia | apply Z.ltb_ge in E; lia]. }
  set (x := u64 (Sender.total_bytes cfg - seg_offset k (Sender.payload_max cfg))).
  assert (Hx : 0 <= x) by apply u64_range.
  assert (Hm : 0 <= Z.min (Sender.payload_max cfg) x <= Sender.payload_max cfg) by lia.
  unfold u16. pose proof (Z.mod_pos_bound (Z.min (Sender.payload_max cfg) x) (2 ^ 16)
                                          ltac:(lia)).
  pose proof (Z.mod_le (Z.min (Sender.payload_max cfg) x) (2 ^ 16) ltac:(lia) ltac:(lia)).
  lia.
Qed.

(** X25.  With [--mtu] at 576 or more, no datagram the sender builds is longer
    than [mtu - 28] bytes, the room an IPv4 packet of [mtu] bytes leaves
    after the IP and UDP headers; so none is longer than the [7 +
    payload_max] bytes a receiver with the same [--mtu] asks [recvfrom]
    for, and none is cut short there. *)
Theorem datagrams_fit_the_mtu (cfg : Sender.config) (file : list Byte.byte) (p : Sender.tx) :
  576 <= Sender.mtu cfg -> Transfer.sends cfg p = true ->
  HDR <= Z.of_nat (length (Sender.wire file p)) <= Sender.mtu cfg - 28 /\
  Sender.mtu cfg - 28 = HDR + Sender.payload_max cfg /\
  forall buf,
    snd (recv_into buf (HDR + Sender.payload_max cfg) (Sender.wire file p))
    = Z.of_nat (length (Sender.wire file p)).
Proof.
  intros Hmtu Hp.
  assert (HP : Sender.mtu cfg - 28 = HDR + Sender.payload_max cfg).
  { unfold Sender.payload_max, payload_max_of, HDR.
    destruct (Sender.mtu cfg - 28 - 7 <? 512) eqn:E; [apply Z.ltb_lt in E; lia | lia]. }
  assert (Hlen : HDR <= Z.of_nat (length (Sender.wire file p)) <= Sender.mtu cfg - 28).
  { destruct p as [t|k off len|s]; cbn [Sender.wire].
    - rewrite length_app, mk_hdr_length, be_split_length. unfold HDR. lia.
    - cbn [Transfer.sends] in Hp. rewrite !andb_true_iff, !Z.eqb_eq in Hp.
      destruct Hp as [[_ _] ->].
      pose proof (seg_len_le cfg k) as Hl.
      rewrite length_app, mk_hdr_length. unfold slice. rewrite length_take.
      unfold HDR in *. lia.
    - rewrite mk_hdr_length. unfold HDR. lia. }
  split; [exact Hlen|]. split; [exact HP|].
  intros buf. rewrite recv_into_count. unfold HDR in *. lia.
Qed.

Lemma datagrams_fit_the_mtu_witness :
  let cfg := Scenario.cfg1 in
  let p := Sender.data_pkt cfg 1 in
  (576 <= Sender.mtu cfg /\ Transfer.sends cfg p = true) /\
  HDR <= Z.of_nat (length (Sender.wire Scenario.file1 p)) <= Sender.mtu cfg - 28 /\
  Z.of_nat (length (Sender.wire Scenario.file1 p)) = 1472.
Proof.
  intros cfg p.
  assert (H1 : 576 <= Sender.mtu cfg) by (vm_compute; discriminate).
  assert (H2 : Transfer.sends cfg p = true) by (vm_compute; reflexivity).
  split; [by_hyps|].
  split; [exact (proj1 (datagrams_fit_the_mtu cfg Scenario.file1 p H1 H2))|].
  vm_compute. reflexivity.
Defined.

End LinkFacts.
